(** * Fitness assistant: resilience and response normalisation layer

    A shallow embedding of the Convex backend of the fitness application
    ([convex/messages.ts], [convex/calories.ts], [convex/plans.ts]):

    - [retryWithBackoff] and the primary/fallback closure [generateContent];
    - the normalisation of model output ([analyzeFoodImage]'s parsing
      block, [validateWorkoutPlan], [validateDietPlan]);
    - the persistence operations [addMessage], [getMessages], [createPlan];
    - the three actions [generateResponse], [analyzeFoodImage] and
      [generatePlan].

    JavaScript values are an inductive type, objects are finite maps from
    property names to values, asynchronous code is written in explicit
    state-passing style over a [World] (environment, provider, tables), and
    a thrown exception is the [Throw] branch of [Result].  The chat
    session of the SDK ([startChat], [sendMessage]) is modelled with the
    validation of the history and the array it shares with the handler. *)

From stdpp Require Import gmap strings list fin_maps pretty.
From Stdlib Require Import ZArith Ascii String Lia.

#[local] Open Scope string_scope.
#[local] Open Scope Z_scope.
#[local] Set Warnings "-register-all".

(** * JavaScript strings

    A string is modelled by the bytes of its UTF-8 encoding.  The source
    only searches for and compares ASCII text, for which byte-wise and
    UTF-16-wise matching agree; white space outside the ASCII range is
    recognised by its encoding. *)

(** [s.includes(needle)]. *)
Fixpoint includes (s needle : string) : bool :=
  String.prefix needle s ||
  match s with
  | EmptyString => false
  | String _ rest => includes rest needle
  end.

(** [s.startsWith(p)]. *)
Definition startsWith (s p : string) : bool := String.prefix p s.

(** * Thrown values and results *)

(** What a [catch] clause can receive: an instance of [Error] (with its
    [name] and [message]), or a value that is not one, of which the source
    only observes the text [String(error)]. *)
Inductive Thrown : Type :=
| ErrorObj (name message : string)
| NonError (text : string).

(** [null], which is what [throw lastError!] throws when no attempt was
    made. *)
Definition ThrownNull : Thrown := NonError "null".

(** [new Error(message)]. *)
Definition newError (message : string) : Thrown := ErrorObj "Error" message.

(** [error instanceof Error ? error.message : String(error)]. *)
Definition errorMessageOf (error : Thrown) : string :=
  match error with
  | ErrorObj _ message => message
  | NonError text => text
  end.

Inductive Result (A : Type) : Type :=
| Ok (value : A)
| Throw (error : Thrown).
Arguments Ok {A} value.
Arguments Throw {A} error.

(** [errorMessage.includes("overloaded") || errorMessage.includes("503")]. *)
Definition isOverloadedMessage (errorMessage : string) : bool :=
  includes errorMessage "overloaded" || includes errorMessage "503".

Definition isOverloaded (error : Thrown) : bool :=
  isOverloadedMessage (errorMessageOf error).

(** * The resilient invoker *)

(** What [retryWithBackoff] does to the outside: it invokes the wrapped
    function and it suspends on a timer.  The trace is ghost state of the
    model; it records these two effects in the order they happen. *)
Inductive Effect : Type :=
| Invoke
| Wait (ms : Z).

Definition waits (tr : list Effect) : list Z :=
  omap (fun ev => match ev with Wait ms => Some ms | Invoke => None end) tr.

Definition invocations (tr : list Effect) : nat :=
  List.length (omap (fun ev => match ev with Invoke => Some tt | Wait _ => None end) tr).

Section Retry.
Context {W T : Type}.

(** The wrapped [fn : () => Promise<T>]: a transition of the world it
    acts on that settles with a value or with a thrown error. *)
Variable fn : W -> Result T * W.

Variables (maxRetries initialDelay : Z).

(** The [for] loop of [retryWithBackoff], entered with loop counter [i]
    and [remaining] iterations before [i < maxRetries] fails.  JavaScript
    numbers are modelled by integers: [initialDelay * Math.pow(2, i)] is
    exact below 2^53. *)
Fixpoint retryLoop (remaining : nat) (i : Z) (lastError : option Thrown)
    (w : W) : Result T * W * list Effect :=
  match remaining with
  | O =>
      (* throw lastError!; *)
      (Throw (default ThrownNull lastError), w, [])
  | S remaining' =>
      match fn w with
      | (Ok value, w') => (Ok value, w', [Invoke])
      | (Throw error, w') =>
          if isOverloaded error && (i <? maxRetries - 1) then
            let delay := initialDelay * 2 ^ i in
            let '(r, w'', tr) := retryLoop remaining' (i + 1) (Some error) w' in
            (r, w'', Invoke :: Wait delay :: tr)
          else (Throw error, w', [Invoke])
      end
  end.

Definition retryWithBackoff (w : W) : Result T * W * list Effect :=
  retryLoop (Z.to_nat maxRetries) 0 None w.

(** [fails_then_ok w errs v w']: starting in [w], successive invocations of
    [fn] throw the errors [errs], one after the other, and the next
    invocation returns [v], leaving the world in [w']. *)
Inductive fails_then_ok : W -> list Thrown -> T -> W -> Prop :=
| fto_ok w v w' :
    fn w = (Ok v, w') -> fails_then_ok w [] v w'
| fto_fail w e w1 errs v w' :
    fn w = (Throw e, w1) -> fails_then_ok w1 errs v w' ->
    fails_then_ok w (e :: errs) v w'.

End Retry.

(** The backoff schedule: what is observed when [k] attempts fail and are
    retried, counted from loop index [i], before the final attempt. *)
Fixpoint backoffTrace (initialDelay : Z) (i : Z) (k : nat) : list Effect :=
  match k with
  | O => [Invoke]
  | S k' => Invoke :: Wait (initialDelay * 2 ^ i) :: backoffTrace initialDelay (i + 1) k'
  end.

(** A wrapped function given by the outcomes of its successive calls; once
    the script is used up it rejects with [ThrownNull]. *)
Definition scripted {T : Type} (script : list (Result T)) : Result T * list (Result T) :=
  match script with
  | [] => (Throw ThrownNull, [])
  | r :: rest => (r, rest)
  end.

(** * Primary model with fallback

    The closure [generateContent] of [generateResponse] and of
    [analyzeFoodImage]: the two differ only in the request they send, which
    is [primary] (model gemini-2.0-flash) or [fallback] (gemini-2.5-pro). *)
Section Fallback.
Context {W T : Type}.
Variables (primary fallback : W -> Result T * W).

Definition generateContent (w : W) : Result T * W :=
  match primary w with
  | (Ok value, w') => (Ok value, w')
  | (Throw primaryError, w') =>
      let errorMessage := errorMessageOf primaryError in
      if includes errorMessage "overloaded" || includes errorMessage "503"
      then fallback w'
      else (Throw primaryError, w')
  end.

End Fallback.

(** * JavaScript values *)

(** A JavaScript number, as the exact decimal [mant * 10 ^ expo].  Every
    number this program handles is written as a decimal literal in model
    output or is an integer produced by [parseInt] or by the source; the
    decimal is what a double holds and prints for literals of up to 15
    significant digits within the range of doubles. *)
Record Num : Type := mkNum { mant : Z; expo : Z }.

Definition numOfZ (z : Z) : Num := mkNum z 0.

(** The number is an integer: no digit after the decimal point is non-zero. *)
Definition numIsInteger (n : Num) : bool :=
  (0 <=? expo n) || (mant n mod 10 ^ (- expo n) =? 0).

(** The integer a number stands for, when [numIsInteger]. *)
Definition numToZ (n : Num) : Z :=
  if 0 <=? expo n then mant n * 10 ^ expo n else mant n / 10 ^ (- expo n).

Inductive JsValue : Type :=
| JUndefined
| JNull
| JBool (b : bool)
| JNum (n : Num)
| JStr (s : string)
| JArr (items : list JsValue)
| JObj (fields : gmap string JsValue).

(** Errors raised by the engine and by library code rather than by a
    [throw] of the source.  The text of their messages is the engine's. *)
Inductive Fault : Type :=
| SyntaxError (text : string)      (* JSON.parse(text) rejects text *)
| TypeError (what : string)        (* access through null/undefined, call of a non-function *)
| ArgumentValidationError (what : string).  (* a Convex validator rejects an argument *)

Definition Fallible (A : Type) : Type := Fault + A.

Definition fbind {A B : Type} (m : Fallible A) (k : A -> Fallible B) : Fallible B :=
  match m with
  | inl f => inl f
  | inr a => k a
  end.

Notation "x <- m ;;; k" := (fbind m (fun x => k))
  (at level 100, m at next level, right associativity, only parsing).

Section MapF.
Context {A B : Type}.
Variable f : A -> Fallible B.

(** [xs.map(f)] for an [f] that may throw: stops at the first throw. *)
Fixpoint mapF (xs : list A) : Fallible (list B) :=
  match xs with
  | [] => inr []
  | x :: rest =>
      y <- f x ;;;
      ys <- mapF rest ;;;
      inr (y :: ys)
  end.

End MapF.

(** ToBoolean. *)
Definition truthy (v : JsValue) : bool :=
  match v with
  | JUndefined | JNull => false
  | JBool b => b
  | JNum n => negb (mant n =? 0)
  | JStr s => negb (String.eqb s "")
  | JArr _ | JObj _ => true
  end.

(** [a || b]. *)
Definition jsOr (a b : JsValue) : JsValue := if truthy a then a else b.

(** [v.prop] for the property names the source reads ([foodName], [sets],
    [meals], ...): none of them is defined on the prototype of a string,
    number, boolean or array, so only objects can have them. *)
Definition getProp (v : JsValue) (prop : string) : Fallible JsValue :=
  match v with
  | JUndefined | JNull => inl (TypeError ("read " +:+ prop))
  | JObj fields => inr (default JUndefined (fields !! prop))
  | _ => inr JUndefined
  end.

(** [v?.prop]. *)
Definition getPropOpt (v : JsValue) (prop : string) : JsValue :=
  match v with
  | JObj fields => default JUndefined (fields !! prop)
  | _ => JUndefined
  end.

(** [v.map(f)]: [map] is a function on arrays only. *)
Definition arrayMap (v : JsValue) (f : JsValue -> Fallible JsValue) : Fallible JsValue :=
  match v with
  | JArr items => ys <- mapF f items ;;; inr (JArr ys)
  | JUndefined | JNull => inl (TypeError "read map")
  | _ => inl (TypeError "map is not a function")
  end.

(** * Library functions on strings *)

Definition LF : ascii := ascii_of_nat 10.
Definition DQUOTE : ascii := ascii_of_nat 34.
Definition BACKSLASH : ascii := ascii_of_nat 92.

Definition str1 (c : ascii) : string := String c EmptyString.

(** White space in the ASCII range: TAB, LF, VT, FF, CR, SP. *)
Definition isWhiteSpace (c : ascii) : bool :=
  let n := nat_of_ascii c in
  ((9 <=? n)%nat && (n <=? 13)%nat) || (n =? 32)%nat.

(** White space outside the ASCII range, by its UTF-8 bytes: U+00A0 in two
    bytes; U+1680, U+2000 to U+200A, U+2028, U+2029, U+202F, U+205F,
    U+3000 and U+FEFF in three. *)
Definition isWhiteSpace2 (c1 c2 : ascii) : bool :=
  (nat_of_ascii c1 =? 194)%nat && (nat_of_ascii c2 =? 160)%nat.

Definition isWhiteSpace3 (c1 c2 c3 : ascii) : bool :=
  let n1 := nat_of_ascii c1 in
  let n2 := nat_of_ascii c2 in
  let n3 := nat_of_ascii c3 in
  ((n1 =? 225)%nat && (n2 =? 154)%nat && (n3 =? 128)%nat) ||
  ((n1 =? 226)%nat && (n2 =? 128)%nat &&
   (((128 <=? n3)%nat && (n3 <=? 138)%nat) ||
    (n3 =? 168)%nat || (n3 =? 169)%nat || (n3 =? 175)%nat)) ||
  ((n1 =? 226)%nat && (n2 =? 129)%nat && (n3 =? 159)%nat) ||
  ((n1 =? 227)%nat && (n2 =? 128)%nat && (n3 =? 128)%nat) ||
  ((n1 =? 239)%nat && (n2 =? 187)%nat && (n3 =? 191)%nat).

(** [s.trimStart()]: the white space and line terminators at the start
    are removed, as [trim] does and as [parseInt] skips them. *)
Fixpoint trimStart (s : string) : string :=
  match s with
  | String c1 rest1 =>
      if isWhiteSpace c1 then trimStart rest1
      else
        match rest1 with
        | String c2 rest2 =>
            if isWhiteSpace2 c1 c2 then trimStart rest2
            else
              match rest2 with
              | String c3 rest3 =>
                  if isWhiteSpace3 c1 c2 c3 then trimStart rest3 else s
              | EmptyString => s
              end
        | EmptyString => s
        end
  | EmptyString => EmptyString
  end.

(** The string consists of white space only. *)
Fixpoint allWhiteSpace (s : string) : bool :=
  match s with
  | String c1 rest1 =>
      if isWhiteSpace c1 then allWhiteSpace rest1
      else
        match rest1 with
        | String c2 rest2 =>
            if isWhiteSpace2 c1 c2 then allWhiteSpace rest2
            else
              match rest2 with
              | String c3 rest3 => isWhiteSpace3 c1 c2 c3 && allWhiteSpace rest3
              | EmptyString => false
              end
        | EmptyString => false
        end
  | EmptyString => true
  end.

(** [s.trimEnd()]: what follows the last character that is not white
    space is removed. *)
Fixpoint trimEnd (s : string) : string :=
  match s with
  | String c rest => if allWhiteSpace s then "" else String c (trimEnd rest)
  | EmptyString => EmptyString
  end.

(** [s.trim()]. *)
Definition trim (s : string) : string := trimEnd (trimStart s).

(** [s.replace(/pat\n?/g, "")] for a literal, non-empty [pat]: every match,
    found from left to right, is removed together with a line feed that
    follows it.  [skip] counts the characters of the current match that
    are still to be dropped. *)
Fixpoint removeAll (pat : string) (skip : nat) (s : string) : string :=
  match s with
  | EmptyString => EmptyString
  | String c rest =>
      match skip with
      | S skip' => removeAll pat skip' rest
      | O =>
          if String.prefix pat s then
            let matched :=
              if String.prefix (pat +:+ str1 LF) s
              then S (String.length pat) else String.length pat in
            removeAll pat (Nat.pred matched) rest
          else String c (removeAll pat O rest)
      end
  end.

(** The extraction of JSON from a markdown code block in
    [analyzeFoodImage]. *)
Definition stripCodeFence (text : string) : string :=
  let jsonText := trim text in
  if startsWith jsonText "```json" then
    removeAll "```" 0 (removeAll "```json" 0 jsonText)
  else if startsWith jsonText "```" then
    removeAll "```" 0 jsonText
  else jsonText.

(** ** Number to string *)

Fixpoint stripZeros (s : string) : string * Z :=
  match s with
  | EmptyString => (EmptyString, 0)
  | String c rest =>
      let '(rest', removed) := stripZeros rest in
      if String.eqb rest' "" && Ascii.eqb c "0" then ("", removed + 1)
      else (String c rest', removed)
  end.

Fixpoint zeros (k : nat) : string :=
  match k with
  | O => ""
  | S k' => String "0" (zeros k')
  end.

(** Number::toString(x) in radix 10. *)
Definition numToString (x : Num) : string :=
  if mant x =? 0 then "0" else
  let sign := if mant x <? 0 then "-" else "" in
  let '(ds, removed) := stripZeros (pretty (Z.abs (mant x))) in
  let k := Z.of_nat (String.length ds) in
  let n := k + expo x + removed in
  sign +:+
  (if (k <=? n) && (n <=? 21) then ds +:+ zeros (Z.to_nat (n - k))
   else if (0 <? n) && (n <=? 21) then
     String.substring 0 (Z.to_nat n) ds +:+ "." +:+
     String.substring (Z.to_nat n) (Z.to_nat (k - n)) ds
   else if (-6 <? n) && (n <=? 0) then "0." +:+ zeros (Z.to_nat (- n)) +:+ ds
   else
     let e := n - 1 in
     let es := (if 0 <=? e then "+" else "-") +:+ pretty (Z.abs e) in
     if k =? 1 then ds +:+ "e" +:+ es
     else String.substring 0 1 ds +:+ "." +:+
          String.substring 1 (Z.to_nat (k - 1)) ds +:+ "e" +:+ es).

Fixpoint join (sep : string) (parts : list string) : string :=
  match parts with
  | [] => ""
  | [x] => x
  | x :: rest => x +:+ sep +:+ join sep rest
  end.

(** [String(v)].  An object parsed from JSON has no callable [toString] of
    its own; when it has an own property of that name, conversion to a
    primitive fails. *)
Fixpoint toStringJs (v : JsValue) : Fallible string :=
  match v with
  | JUndefined => inr "undefined"
  | JNull => inr "null"
  | JBool b => inr (if b then "true" else "false")
  | JNum n => inr (numToString n)
  | JStr s => inr s
  | JArr items =>
      parts <- mapF (fun x =>
                 match x with
                 | JUndefined | JNull => inr ""
                 | _ => toStringJs x
                 end) items ;;;
      inr (join "," parts)
  | JObj fields =>
      match fields !! "toString" with
      | Some _ => inl (TypeError "Cannot convert object to primitive value")
      | None => inr "[object Object]"
      end
  end.

(** ** parseInt *)

Definition digitValue (c : ascii) : option Z :=
  let n := Z.of_nat (nat_of_ascii c) in
  if (48 <=? n) && (n <=? 57) then Some (n - 48)
  else if (97 <=? n) && (n <=? 102) then Some (n - 87)
  else if (65 <=? n) && (n <=? 70) then Some (n - 55)
  else None.

(** The longest prefix of [s] made of digits of the radix, read as a
    number after the digits [acc] already read; [None] without any digit. *)
Fixpoint readDigits (radix : Z) (s : string) (acc : option Z) : option Z :=
  match s with
  | EmptyString => acc
  | String c rest =>
      match digitValue c with
      | Some d =>
          if d <? radix then readDigits radix rest (Some (default 0 acc * radix + d))
          else acc
      | None => acc
      end
  end.

(** [parseInt(s)] of a string, without radix argument; [None] is NaN. *)
Definition parseIntString (s : string) : option Z :=
  let s := trimStart s in
  let '(sign, s) :=
    match s with
    | String c rest =>
        if Ascii.eqb c "-" then (-1, rest)
        else if Ascii.eqb c "+" then (1, rest) else (1, s)
    | EmptyString => (1, s)
    end in
  let '(radix, s) :=
    match s with
    | String c0 (String c1 rest) =>
        if Ascii.eqb c0 "0" && (Ascii.eqb c1 "x" || Ascii.eqb c1 "X")
        then (16, rest) else (10, s)
    | _ => (10, s)
    end in
  z ← readDigits radix s None; Some (sign * z).

(** [parseInt(v)]: the argument is converted to a string first. *)
Definition parseInt (v : JsValue) : Fallible (option Z) :=
  s <- toStringJs v ;;; inr (parseIntString s).

(** [parseInt(v) || d]: NaN and 0 are both falsy. *)
Definition parseIntOr (v : JsValue) (d : Z) : Fallible JsValue :=
  r <- parseInt v ;;;
  inr (match r with
       | Some z => if z =? 0 then JNum (numOfZ d) else JNum (numOfZ z)
       | None => JNum (numOfZ d)
       end).

(** ** Object spread *)

Fixpoint chars (s : string) : list JsValue :=
  match s with
  | EmptyString => []
  | String c rest => JStr (str1 c) :: chars rest
  end.

Definition indexed (items : list JsValue) : gmap string JsValue :=
  list_to_map (imap (fun i x => (pretty i, x)) items).

(** The own enumerable properties copied by [{...v}]. *)
Definition spread (v : JsValue) : gmap string JsValue :=
  match v with
  | JObj fields => fields
  | JArr items => indexed items
  | JStr s => indexed (chars s)
  | _ => ∅
  end.

(** * JSON.parse

    A recursive-descent reading of the JSON grammar (ECMA-404), which is
    what [JSON.parse] accepts.  An escape [\uXXXX] is stored as the UTF-8
    bytes of that code unit. *)

Definition isJsonSpace (c : ascii) : bool :=
  let n := nat_of_ascii c in
  (n =? 32)%nat || (n =? 9)%nat || (n =? 10)%nat || (n =? 13)%nat.

Fixpoint skipWs (s : string) : string :=
  match s with
  | String c rest => if isJsonSpace c then skipWs rest else s
  | EmptyString => EmptyString
  end.

Definition isDigit (c : ascii) : bool :=
  let n := nat_of_ascii c in (48 <=? n)%nat && (n <=? 57)%nat.

Definition byte (z : Z) : string := str1 (ascii_of_nat (Z.to_nat z)).

Definition utf8 (u : Z) : string :=
  if u <? 128 then byte u
  else if u <? 2048 then byte (192 + u / 64) +:+ byte (128 + u mod 64)
  else byte (224 + u / 4096) +:+ byte (128 + (u / 64) mod 64) +:+ byte (128 + u mod 64).

(** The character denoted by a one-letter escape. *)
Definition unescape (c : ascii) : option ascii :=
  if Ascii.eqb c DQUOTE then Some DQUOTE
  else if Ascii.eqb c BACKSLASH then Some BACKSLASH
  else if Ascii.eqb c "/" then Some "/"%char
  else if Ascii.eqb c "b" then Some (ascii_of_nat 8)
  else if Ascii.eqb c "f" then Some (ascii_of_nat 12)
  else if Ascii.eqb c "n" then Some (ascii_of_nat 10)
  else if Ascii.eqb c "r" then Some (ascii_of_nat 13)
  else if Ascii.eqb c "t" then Some (ascii_of_nat 9)
  else None.

(** The characters of a string literal after its opening quote, up to and
    including the closing quote. *)
Fixpoint parseStringBody (s : string) : option (string * string) :=
  match s with
  | EmptyString => None
  | String c rest =>
      if Ascii.eqb c DQUOTE then Some ("", rest)
      else if Ascii.eqb c BACKSLASH then
        match rest with
        | String e rest1 =>
            if Ascii.eqb e "u" then
              match rest1 with
              | String h3 (String h2 (String h1 (String h0 rest2))) =>
                  d3 ← digitValue h3; d2 ← digitValue h2;
                  d1 ← digitValue h1; d0 ← digitValue h0;
                  '(str, r) ← parseStringBody rest2;
                  Some (utf8 (((d3 * 16 + d2) * 16 + d1) * 16 + d0) +:+ str, r)
              | _ => None
              end
            else
              ch ← unescape e;
              '(str, r) ← parseStringBody rest1;
              Some (String ch str, r)
        | EmptyString => None
        end
      else if (nat_of_ascii c <? 32)%nat then None
      else
        '(str, r) ← parseStringBody rest;
        Some (String c str, r)
  end.

Fixpoint spanDigits (s : string) : string * string :=
  match s with
  | String c rest =>
      if isDigit c then let '(ds, r) := spanDigits rest in (String c ds, r)
      else ("", s)
  | EmptyString => ("", "")
  end.

Definition digitsToZ (ds : string) : Z := default 0 (readDigits 10 ds None).

(** A number literal: an optional minus sign; the integer part, which is
    0 or starts with a non-zero digit; an optional fraction of one or more
    digits; an optional exponent with optional sign. *)
Definition parseNumber (s : string) : option (Num * string) :=
  let '(negative, s) :=
    match s with
    | String c rest => if Ascii.eqb c "-" then (true, rest) else (false, s)
    | EmptyString => (false, s)
    end in
  '(ip, s) ←
    match s with
    | String c rest =>
        if Ascii.eqb c "0" then Some ("0", rest)
        else if isDigit c then Some (spanDigits s)
        else None
    | EmptyString => None
    end;
  '(fp, s) ←
    match s with
    | String c rest =>
        if Ascii.eqb c "." then
          let '(ds, r) := spanDigits rest in
          if String.eqb ds "" then None else Some (ds, r)
        else Some ("", s)
    | EmptyString => Some ("", s)
    end;
  '(ex, s) ←
    match s with
    | String c rest =>
        if Ascii.eqb c "e" || Ascii.eqb c "E" then
          let '(sign, rest) :=
            match rest with
            | String c' rest' =>
                if Ascii.eqb c' "-" then (-1, rest')
                else if Ascii.eqb c' "+" then (1, rest') else (1, rest)
            | EmptyString => (1, rest)
            end in
          let '(ds, r) := spanDigits rest in
          if String.eqb ds "" then None else Some (sign * digitsToZ ds, r)
        else Some (0, s)
    | EmptyString => Some (0, s)
    end;
  let m := digitsToZ (ip +:+ fp) in
  Some (mkNum (if negative : bool then - m else m) (ex - Z.of_nat (String.length fp)), s).

(** A value, the elements of an array after [[], and the members of an
    object after [{].  [fuel] bounds the depth of the recursion; each step
    down reads at least one character every second step, so twice the
    length of the text is enough. *)
Fixpoint parseValue (fuel : nat) (s : string) : option (JsValue * string) :=
  match fuel with
  | O => None
  | S fuel' =>
      let s := skipWs s in
      match s with
      | EmptyString => None
      | String c rest =>
          if Ascii.eqb c "{" then
            match skipWs rest with
            | String c' rest' =>
                if Ascii.eqb c' "}" then Some (JObj ∅, rest')
                else parseMembers fuel' (skipWs rest) ∅
            | EmptyString => None
            end
          else if Ascii.eqb c "[" then
            match skipWs rest with
            | String c' rest' =>
                if Ascii.eqb c' "]" then Some (JArr [], rest')
                else parseElements fuel' rest []
            | EmptyString => None
            end
          else if Ascii.eqb c DQUOTE then
            '(str, r) ← parseStringBody rest; Some (JStr str, r)
          else if Ascii.eqb c "-" || isDigit c then
            '(n, r) ← parseNumber s; Some (JNum n, r)
          else if String.prefix "true" s then
            Some (JBool true, String.substring 4 (String.length s - 4) s)
          else if String.prefix "false" s then
            Some (JBool false, String.substring 5 (String.length s - 5) s)
          else if String.prefix "null" s then
            Some (JNull, String.substring 4 (String.length s - 4) s)
          else None
      end
  end
with parseElements (fuel : nat) (s : string) (acc : list JsValue)
    : option (JsValue * string) :=
  match fuel with
  | O => None
  | S fuel' =>
      '(v, r) ← parseValue fuel' s;
      match skipWs r with
      | String c r' =>
          if Ascii.eqb c "," then parseElements fuel' r' (acc ++ [v])
          else if Ascii.eqb c "]" then Some (JArr (acc ++ [v]), r')
          else None
      | EmptyString => None
      end
  end
with parseMembers (fuel : nat) (s : string) (acc : gmap string JsValue)
    : option (JsValue * string) :=
  match fuel with
  | O => None
  | S fuel' =>
      match skipWs s with
      | String q r =>
          if Ascii.eqb q DQUOTE then
            '(k, r1) ← parseStringBody r;
            match skipWs r1 with
            | String c r2 =>
                if Ascii.eqb c ":" then
                  '(v, r3) ← parseValue fuel' r2;
                  match skipWs r3 with
                  | String c' r4 =>
                      if Ascii.eqb c' "," then parseMembers fuel' r4 (<[k:=v]> acc)
                      else if Ascii.eqb c' "}" then Some (JObj (<[k:=v]> acc), r4)
                      else None
                  | EmptyString => None
                  end
                else None
            | EmptyString => None
            end
          else None
      | EmptyString => None
      end
  end.

(** [JSON.parse(text)]. *)
Definition JSON_parse (text : string) : Fallible JsValue :=
  match parseValue (2 * String.length text + 2) text with
  | Some (v, rest) =>
      if String.eqb (skipWs rest) "" then inr v else inl (SyntaxError text)
  | None => inl (SyntaxError text)
  end.

(** * The response normaliser *)

Record NutritionalInfo : Type := mkNutritionalInfo {
  protein : JsValue;
  carbs : JsValue;
  fat : JsValue;
  fiber : JsValue
}.

(** The object literal returned by [analyzeFoodImage].  Its declared type
    has [calories: number] and strings elsewhere, but [parsedData] is
    [any]: what is stored is whatever value the response holds. *)
Record FoodAnalysis : Type := mkFoodAnalysis {
  foodName : JsValue;
  calories : JsValue;
  servingSize : JsValue;
  confidence : JsValue;
  nutritionalInfo : NutritionalInfo;
  description : JsValue
}.

(** The object literal built from [parsedData]. *)
Definition foodAnalysisOf (parsedData : JsValue) : Fallible FoodAnalysis :=
  foodName <- getProp parsedData "foodName" ;;;
  calories <- getProp parsedData "calories" ;;;
  servingSize <- getProp parsedData "servingSize" ;;;
  confidence <- getProp parsedData "confidence" ;;;
  info1 <- getProp parsedData "nutritionalInfo" ;;;
  info2 <- getProp parsedData "nutritionalInfo" ;;;
  info3 <- getProp parsedData "nutritionalInfo" ;;;
  info4 <- getProp parsedData "nutritionalInfo" ;;;
  description <- getProp parsedData "description" ;;;
  inr {|
    foodName := jsOr foodName (JStr "Unknown Food");
    calories := jsOr calories (JNum (numOfZ 0));
    servingSize := jsOr servingSize (JStr "Unknown");
    confidence := jsOr confidence (JStr "low");
    nutritionalInfo := {|
      protein := jsOr (getPropOpt info1 "protein") (JStr "N/A");
      carbs := jsOr (getPropOpt info2 "carbs") (JStr "N/A");
      fat := jsOr (getPropOpt info3 "fat") (JStr "N/A");
      fiber := jsOr (getPropOpt info4 "fiber") (JStr "N/A")
    |};
    description := jsOr description (JStr "Could not analyze the food.")
  |}.

(** The parsing block of [analyzeFoodImage], from [text.trim()] to the
    returned object. *)
Definition parseFoodResponse (text : string) : Fallible FoodAnalysis :=
  let jsonText := stripCodeFence text in
  parsedData <- JSON_parse jsonText ;;;
  foodAnalysisOf parsedData.

(** [typeof x === "number" ? x : parseInt(x) || d]. *)
Definition numberOr (x : JsValue) (d : Z) : Fallible JsValue :=
  match x with
  | JNum _ => inr x
  | _ => parseIntOr x d
  end.

Definition validateRoutine (routine : JsValue) : Fallible JsValue :=
  let copied := spread routine in
  rawSets <- getProp routine "sets" ;;;
  sets <- numberOr rawSets 3 ;;;
  rawReps <- getProp routine "reps" ;;;
  reps <- numberOr rawReps 10 ;;;
  inr (JObj (<["reps" := reps]> (<["sets" := sets]> copied))).

Definition validateExercise (exercise : JsValue) : Fallible JsValue :=
  let copied := spread exercise in
  routines <- getProp exercise "routines" ;;;
  routines' <- arrayMap routines validateRoutine ;;;
  inr (JObj (<["routines" := routines']> copied)).

(** [plan] is the fresh result of [JSON.parse]: the assignment to
    [plan.exercises] updates the only reference to it. *)
Definition validateWorkoutPlan (plan : JsValue) : Fallible JsValue :=
  exercises <- getProp plan "exercises" ;;;
  if truthy exercises then
    exercises' <- arrayMap exercises validateExercise ;;;
    inr (match plan with
         | JObj fields => JObj (<["exercises" := exercises']> fields)
         | _ => plan
         end)
  else inr plan.

Definition validateMeal (meal : JsValue) : Fallible JsValue :=
  name <- getProp meal "name" ;;;
  foods <- getProp meal "foods" ;;;
  inr (JObj (<["foods" := foods]> {["name" := name]})).

Definition validateDietPlan (plan : JsValue) : Fallible JsValue :=
  rawCalories <- getProp plan "dailyCalories" ;;;
  dailyCalories <- numberOr rawCalories 2000 ;;;
  meals <- getProp plan "meals" ;;;
  meals' <- arrayMap meals validateMeal ;;;
  inr (JObj (<["meals" := meals']> {["dailyCalories" := dailyCalories]})).

(** * The database

    The two tables the source uses, in creation order.  Document ids are
    drawn from a counter. *)

Inductive Role : Type := user | assistant.

(** A document of the table [chatMessages]. *)
Record ChatMessage : Type := mkChatMessage {
  msgId : nat;
  msgUserId : string;
  role : Role;
  content : string;
  timestamp : Z
}.

(** The argument of [createPlan], as its validators declare it. *)
Record Routine : Type := mkRoutine { routineName : string; sets : Num; reps : Num }.
Record Exercise : Type := mkExercise { day : string; routines : list Routine }.
Record WorkoutPlan : Type := mkWorkoutPlan { schedule : list string; exercises : list Exercise }.
Record Meal : Type := mkMeal { mealName : string; foods : list string }.
Record DietPlan : Type := mkDietPlan { dailyCalories : Num; meals : list Meal }.

Record PlanArgs : Type := mkPlanArgs {
  userId : string;
  name : string;
  workoutPlan : WorkoutPlan;
  dietPlan : DietPlan;
  isActive : bool
}.

(** A document of the table [plans]: the inserted fields and its [_id]. *)
Record Plan : Type := mkPlan { planId : nat; planFields : PlanArgs }.

Record Db : Type := mkDb {
  chatMessages : list ChatMessage;
  plans : list Plan;
  nextId : nat
}.

Definition emptyDb : Db := mkDb [] [] 0.

(** [ctx.db.patch(id, { isActive: false })]. *)
Definition deactivate (p : Plan) : Plan :=
  let a := planFields p in
  mkPlan (planId p) (mkPlanArgs (userId a) (name a) (workoutPlan a) (dietPlan a) false).

Definition patchInactive (id : nat) (db : Db) : Db :=
  mkDb (chatMessages db)
       (map (fun p => if decide (planId p = id) then deactivate p else p) (plans db))
       (nextId db).

(** [ctx.db.insert("plans", args)]. *)
Definition insertPlan (args : PlanArgs) (db : Db) : nat * Db :=
  (nextId db,
   mkDb (chatMessages db) (plans db ++ [mkPlan (nextId db) args]) (S (nextId db))).

(** The plans of the index range [by_user_id = owner] that pass the
    filter [isActive = true]. *)
Definition isActivePlanOf (owner : string) (p : Plan) : bool :=
  bool_decide (userId (planFields p) = owner) && isActive (planFields p).

Definition activePlansOf (owner : string) (db : Db) : list Plan :=
  List.filter (isActivePlanOf owner) (plans db).

(** The handler of the mutation [createPlan]. *)
Definition createPlan (args : PlanArgs) (db : Db) : nat * Db :=
  let activePlans := activePlansOf (userId args) db in
  let db := foldl (fun db plan => patchInactive (planId plan) db) db activePlans in
  insertPlan args db.

(** [getUserPlans]: the plans of a user, newest first. *)
Definition getUserPlans (owner : string) (db : Db) : list Plan :=
  rev (List.filter (fun p => bool_decide (userId (planFields p) = owner)) (plans db)).

(** The handler of the mutation [addMessage]; [now] is [Date.now()]. *)
Definition addMessage (owner : string) (r : Role) (text : string) (now : Z)
    (db : Db) : nat * Db :=
  (nextId db,
   mkDb (chatMessages db ++ [mkChatMessage (nextId db) owner r text now])
        (plans db) (S (nextId db))).

(** The handler of the query [getMessages]: the messages of a user, oldest
    first. *)
Definition getMessages (owner : string) (db : Db) : list ChatMessage :=
  List.filter (fun m => bool_decide (msgUserId m = owner)) (chatMessages db).

(** The handler of the mutation [clearMessages]. *)
Definition clearMessages (owner : string) (db : Db) : Db :=
  let messages := getMessages owner db in
  foldl (fun db message =>
           mkDb (List.filter (fun m => negb (bool_decide (msgId m = msgId message)))
                             (chatMessages db))
                (plans db) (nextId db))
        db messages.

(** A run of [createPlan] calls, one after the other; the ids they return
    are collected in call order. *)
Fixpoint createPlans (calls : list PlanArgs) (db : Db) : list nat * Db :=
  match calls with
  | [] => ([], db)
  | args :: rest =>
      let '(id, db) := createPlan args db in
      let '(ids, db) := createPlans rest db in
      (id :: ids, db)
  end.

(** ** Argument validation

    [runMutation(api.plans.createPlan, ...)] checks its argument against
    the validators of [createPlan]: an object has exactly the declared
    fields, each of the declared type. *)

Definition asString (v : JsValue) : option string :=
  match v with JStr s => Some s | _ => None end.

Definition asNumber (v : JsValue) : option Num :=
  match v with JNum n => Some n | _ => None end.

Definition asArray {A : Type} (elem : JsValue -> option A) (v : JsValue) : option (list A) :=
  match v with JArr items => mapM elem items | _ => None end.

Definition asObject (keys : list string) (v : JsValue) : option (gmap string JsValue) :=
  match v with
  | JObj fields =>
      if decide (dom fields = list_to_set keys) then Some fields else None
  | _ => None
  end.

Definition asRoutine (v : JsValue) : option Routine :=
  o ← asObject ["name"; "sets"; "reps"] v;
  n ← o !! "name" ≫= asString;
  s ← o !! "sets" ≫= asNumber;
  r ← o !! "reps" ≫= asNumber;
  Some (mkRoutine n s r).

Definition asExercise (v : JsValue) : option Exercise :=
  o ← asObject ["day"; "routines"] v;
  d ← o !! "day" ≫= asString;
  rs ← o !! "routines" ≫= asArray asRoutine;
  Some (mkExercise d rs).

Definition asWorkoutPlan (v : JsValue) : option WorkoutPlan :=
  o ← asObject ["schedule"; "exercises"] v;
  sch ← o !! "schedule" ≫= asArray asString;
  exs ← o !! "exercises" ≫= asArray asExercise;
  Some (mkWorkoutPlan sch exs).

Definition asMeal (v : JsValue) : option Meal :=
  o ← asObject ["name"; "foods"] v;
  n ← o !! "name" ≫= asString;
  fs ← o !! "foods" ≫= asArray asString;
  Some (mkMeal n fs).

Definition asDietPlan (v : JsValue) : option DietPlan :=
  o ← asObject ["dailyCalories"; "meals"] v;
  c ← o !! "dailyCalories" ≫= asNumber;
  ms ← o !! "meals" ≫= asArray asMeal;
  Some (mkDietPlan c ms).

(** ** The conversation window *)

(** [xs.slice(start, end)]. *)
Definition slice {A : Type} (start end_ : Z) (xs : list A) : list A :=
  let len := Z.of_nat (List.length xs) in
  let k := if start <? 0 then Z.max (len + start) 0 else Z.min start len in
  let final := if end_ <? 0 then Z.max (len + end_) 0 else Z.min end_ len in
  take (Z.to_nat (final - k)) (drop (Z.to_nat k) xs).

(** An entry of the chat history sent to the model: the role is the string
    [user] or [model], the text is the single part. *)
Record Content : Type := mkContent { contentRole : string; contentText : string }.

Definition toContent (msg : ChatMessage) : Content :=
  mkContent (match role msg with user => "user" | assistant => "model" end) (content msg).

(** [messages.slice(-11, -1).map(...)] in [generateResponse]. *)
Definition conversationHistory (messages : list ChatMessage) : list Content :=
  map toContent (slice (-11) (-1) messages).

(** * The world of an action

    What an action can observe and change: the environment variable with
    the API credential, the AI provider behind the network, the timers it
    waits on, the database, the clock, and the message texts of the errors
    the engine raises.  The provider is any function from the number of
    calls made so far and the request to an outcome.  The clock is read,
    not advanced: documents are ordered by their position in the table,
    and nothing depends on the value of a timestamp. *)

(** What is sent to the model.  The prompt texts, the system instruction
    and the generation parameters are fixed by the kind of request; only
    the parameters that vary are listed. *)
Inductive Payload : Type :=
| ChatTurn (history : list Content) (message : string)
| FoodImage (imageData mimeType : string)
| WorkoutPrompt (age height weight injuries workout_days fitness_goal fitness_level : string)
| DietPrompt (age height weight fitness_goal dietary_restrictions : string).

(** A network call to the provider. *)
Record Request : Type := mkRequest { model : string; payload : Payload }.

(** A response of the provider.  Reading its text can throw (a blocked
    candidate).  [candidate] is the content of its first candidate when
    the chat session of the SDK takes the response for valid, and [None]
    otherwise; the content has one text part, which is what a model
    without tools returns. *)
Record Response : Type := mkResponse {
  text : Result string;
  candidate : option Content
}.

Record World : Type := mkWorld {
  GEMINI_API_KEY : option string;                   (* process.env.GEMINI_API_KEY *)
  provider : nat -> Request -> Result Response;     (* outcome of the n-th network call *)
  requests : list Request;                          (* network calls made so far, oldest first *)
  timers : list Z;                                  (* setTimeout delays waited for, oldest first *)
  db : Db;
  now : Z;                                          (* Date.now() *)
  today : string;                                   (* new Date().toLocaleDateString() *)
  engineMessage : Fault -> string
}.

Definition withRequests (w : World) (rs : list Request) : World :=
  mkWorld (GEMINI_API_KEY w) (provider w) rs (timers w) (db w) (now w) (today w) (engineMessage w).

Definition withTimers (w : World) (ts : list Z) : World :=
  mkWorld (GEMINI_API_KEY w) (provider w) (requests w) ts (db w) (now w) (today w) (engineMessage w).

Definition withDb (w : World) (d : Db) : World :=
  mkWorld (GEMINI_API_KEY w) (provider w) (requests w) (timers w) d (now w) (today w) (engineMessage w).

(** An asynchronous computation: a transition of the world that settles
    with a value or rejects with a thrown error. *)
Definition Action (A : Type) : Type := World -> Result A * World.

Definition ret {A : Type} (a : A) : Action A := fun w => (Ok a, w).

Definition throw {A : Type} (e : Thrown) : Action A := fun w => (Throw e, w).

Definition bind {A B : Type} (m : Action A) (k : A -> Action B) : Action B :=
  fun w =>
    match m w with
    | (Ok a, w') => k a w'
    | (Throw e, w') => (Throw e, w')
    end.

Notation "x <~ m ;; k" := (bind m (fun x => k))
  (at level 100, m at next level, right associativity, only parsing).

(** [try { body } catch (error) { handler }]. *)
Definition tryCatch {A : Type} (body : Action A) (handler : Thrown -> Action A) : Action A :=
  fun w =>
    match body w with
    | (Ok a, w') => (Ok a, w')
    | (Throw error, w') => handler error w'
    end.

Definition faultName (f : Fault) : string :=
  match f with
  | SyntaxError _ => "SyntaxError"
  | TypeError _ => "TypeError"
  | ArgumentValidationError _ => "Error"
  end.

(** Code that may raise an engine error, run inside an action. *)
Definition liftF {A : Type} (m : Fallible A) : Action A :=
  fun w =>
    match m with
    | inr a => (Ok a, w)
    | inl f => (Throw (ErrorObj (faultName f) (engineMessage w f)), w)
    end.

(** [!process.env.GEMINI_API_KEY]. *)
Definition apiKeyMissing (w : World) : bool :=
  match GEMINI_API_KEY w with
  | None => true
  | Some key => String.eqb key ""
  end.

(** [model.generateContent(...)], and the request of
    [chat.sendMessage(...)]: one network call to the provider. *)
Definition send (req : Request) : Action Response :=
  fun w => (provider w (List.length (requests w)) req, withRequests w (requests w ++ [req])).

(** [response.text()]. *)
Definition responseText (response : Response) : Action string :=
  fun w => (text response, w).

(** [await retryWithBackoff(fn, maxRetries, initialDelay)] inside an action:
    the delays waited for are recorded in the world. *)
Definition retrying {A : Type} (fn : Action A) (maxRetries initialDelay : Z) : Action A :=
  fun w =>
    let '(r, w', tr) := retryWithBackoff fn maxRetries initialDelay w in
    (r, withTimers w' (timers w' ++ waits tr)).

(** [ctx.runMutation(api.messages.addMessage, ...)]. *)
Definition runAddMessage (owner : string) (r : Role) (text : string) : Action nat :=
  fun w => let '(id, d) := addMessage owner r text (now w) (db w) in (Ok id, withDb w d).

(** [ctx.runQuery(api.messages.getMessages, ...)]. *)
Definition runGetMessages (owner : string) : Action (list ChatMessage) :=
  fun w => (Ok (getMessages owner (db w)), w).

(** [ctx.runMutation(api.plans.createPlan, ...)] with the plans computed
    by [generatePlan]: the argument is validated, then the handler runs. *)
Definition runCreatePlan (owner : string) (dietPlan : JsValue) (active : bool)
    (workoutPlan : JsValue) (planName : string) : Action nat :=
  fun w =>
    match asWorkoutPlan workoutPlan, asDietPlan dietPlan with
    | Some wp, Some dp =>
        let '(id, d) := createPlan (mkPlanArgs owner planName wp dp active) (db w) in
        (Ok id, withDb w d)
    | _, _ => liftF (inl (ArgumentValidationError "createPlan")) w
    end.

(** * The chat session of the SDK

    [model.startChat({ history })] validates the history and keeps the
    array it is given.  [chat.sendMessage(message)] sends that history
    with the message and, when the response is valid, pushes the message
    and the content of the response onto the array.  In the handlers the
    array is [conversationHistory]: every chat session of one run shares
    it. *)

Definition POSSIBLE_ROLES : list string := ["user"; "model"; "function"; "system"].

(** [JSON.stringify(POSSIBLE_ROLES)]. *)
Definition POSSIBLE_ROLES_json : string :=
  let q := str1 DQUOTE in
  "[" +:+ q +:+ "user" +:+ q +:+ "," +:+ q +:+ "model" +:+ q +:+ "," +:+
  q +:+ "function" +:+ q +:+ "," +:+ q +:+ "system" +:+ q +:+ "]".

(** [new GoogleGenerativeAIError(message)]. *)
Definition sdkError (message : string) : Thrown :=
  newError ("[GoogleGenerativeAI Error]: " +:+ message).

(** [validateChatHistory(history)], for contents with one text part: the
    first content must have the role [user], every role must be one of
    the possible roles, and a text part is not allowed for the role
    [function]. *)
Fixpoint validateChatHistory (prevContent : bool) (history : list Content) : Result unit :=
  match history with
  | [] => Ok tt
  | currContent :: rest =>
      let role := contentRole currContent in
      if negb prevContent && negb (String.eqb role "user") then
        Throw (sdkError ("First content should be with role 'user', got " +:+ role))
      else if negb (existsb (String.eqb role) POSSIBLE_ROLES) then
        Throw (sdkError ("Each item should include role field. Got " +:+ role +:+
                         " but valid roles are: " +:+ POSSIBLE_ROLES_json))
      else if String.eqb role "function" then
        Throw (sdkError "Content with role 'function' can't contain 'text' part")
      else validateChatHistory true rest
  end.

(** What a chat exchange works on: the world and the array
    [conversationHistory]. *)
Definition ChatState : Type := World * list Content.

(** One chat exchange with the model [modelName]:
    [model.startChat({ history: conversationHistory })],
    [chat.sendMessage(args.userMessage)] and [result.response.text()]. *)
Definition chatRequest (modelName userMessage : string)
    (s : ChatState) : Result string * ChatState :=
  let '(w, history) := s in
  match validateChatHistory false history with
  | Throw error => (Throw error, (w, history))
  | Ok _ =>
      match send (mkRequest modelName (ChatTurn history userMessage)) w with
      | (Throw error, w') => (Throw error, (w', history))
      | (Ok result, w') =>
          let history' :=
            match candidate result with
            | Some responseContent =>
                (history ++ [mkContent "user" userMessage; responseContent])%list
            | None => history
            end in
          (text result, (w', history'))
      end
  end.

(** A closure over the array [history], run inside an action: the array
    lives as long as the handler runs. *)
Definition chatting {A : Type} (fn : ChatState -> Result A * ChatState)
    (history : list Content) : Action A :=
  fun w => let '(r, s') := fn (w, history) in (r, s'.1).

(** [await retryWithBackoff(fn, maxRetries, initialDelay)] for such a
    closure: the delays waited for are recorded in the world. *)
Definition retryingChat {A : Type} (fn : ChatState -> Result A * ChatState)
    (maxRetries initialDelay : Z) (history : list Content) : Action A :=
  fun w =>
    let '(r, s', tr) := retryWithBackoff fn maxRetries initialDelay (w, history) in
    (r, withTimers s'.1 (timers s'.1 ++ waits tr)).

(** * The actions *)

(** The [catch] clause of [generateResponse]. *)
Definition generateResponseCatch {A : Type} (error : Thrown) : Action A :=
  let errorMessage := errorMessageOf error in
  if includes errorMessage "overloaded" || includes errorMessage "503" then
    throw (newError "The AI service is currently busy. Please try again in a few moments.")
  else if includes errorMessage "API key" || includes errorMessage "API_KEY_INVALID" then
    throw (newError "API configuration error. Please contact support.")
  else if includes errorMessage "quota" || includes errorMessage "QUOTA_EXCEEDED" then
    throw (newError "API quota exceeded. Please try again later.")
  else throw (newError ("Failed to generate AI response: " +:+ errorMessage)).

(** The action [generateResponse] of [convex/messages.ts]. *)
Definition generateResponse (owner userMessage : string) : Action string :=
  tryCatch
    (fun w =>
       if apiKeyMissing w then
         throw (newError "GEMINI_API_KEY is not configured in environment variables") w
       else
         (_ <~ runAddMessage owner user userMessage ;;
          messages <~ runGetMessages owner ;;
          let history := conversationHistory messages in
          aiResponse <~
            retryingChat (generateContent
                            (chatRequest "gemini-2.0-flash" userMessage)
                            (chatRequest "gemini-2.5-pro" userMessage))
                         3 2000 history ;;
          _ <~ runAddMessage owner assistant aiResponse ;;
          ret aiResponse) w)
    generateResponseCatch.

(** One vision call to the model [modelName]:
    [model.generateContent([prompt, imagePart])] and [result.response]. *)
Definition visionRequest (modelName imageData mimeType : string) : Action Response :=
  send (mkRequest modelName (FoodImage imageData mimeType)).

(** The [catch] clause of [analyzeFoodImage]. *)
Definition analyzeFoodImageCatch {A : Type} (error : Thrown) : Action A :=
  let errorMessage := errorMessageOf error in
  if includes errorMessage "overloaded" || includes errorMessage "503" then
    throw (newError "The AI service is currently busy. Please try again in a few moments.")
  else if includes errorMessage "API key" || includes errorMessage "API_KEY_INVALID" then
    throw (newError "API configuration error. Please contact support.")
  else if includes errorMessage "quota" || includes errorMessage "QUOTA_EXCEEDED" then
    throw (newError "API quota exceeded. Please try again later.")
  else if includes errorMessage "SAFETY" then
    throw (newError "The image was blocked by safety filters. Please try a different image.")
  else if includes errorMessage "invalid" && includes errorMessage "image" then
    throw (newError "Invalid image format. Please try a different image.")
  else throw (newError ("Failed to analyze the image: " +:+ errorMessage)).

(** The action [analyzeFoodImage] with retry and fallback.  (The earlier
    [convex/calories.ts] makes a single call to gemini-2.5-flash and has
    the same credential check and the same parsing block.) *)
Definition analyzeFoodImage (imageData mimeType : string) : Action FoodAnalysis :=
  tryCatch
    (fun w =>
       if apiKeyMissing w then
         throw (newError "GEMINI_API_KEY is not configured in environment variables") w
       else
         (response <~
            retrying (generateContent
                        (visionRequest "gemini-2.0-flash" imageData mimeType)
                        (visionRequest "gemini-2.5-pro" imageData mimeType))
                     3 2000 ;;
          text <~ responseText response ;;
          liftF (parseFoodResponse text)) w)
    analyzeFoodImageCatch.

(** The arguments of the action [generatePlan]. *)
Record GeneratePlanArgs : Type := mkGeneratePlanArgs {
  gpUserId : string;
  age : string;
  height : string;
  weight : string;
  injuries : string;
  workout_days : string;
  fitness_goal : string;
  fitness_level : string;
  dietary_restrictions : string
}.

(** The action [generatePlan]. *)
Definition generatePlan (args : GeneratePlanArgs) : Action nat :=
  workoutResult <~
    send (mkRequest "gemini-2.5-pro"
            (WorkoutPrompt (age args) (height args) (weight args) (injuries args)
               (workout_days args) (fitness_goal args) (fitness_level args))) ;;
  workoutPlanText <~ responseText workoutResult ;;
  workoutPlan <~ liftF (JSON_parse workoutPlanText) ;;
  workoutPlan <~ liftF (validateWorkoutPlan workoutPlan) ;;
  dietResult <~
    send (mkRequest "gemini-2.5-pro"
            (DietPrompt (age args) (height args) (weight args) (fitness_goal args)
               (dietary_restrictions args))) ;;
  dietPlanText <~ responseText dietResult ;;
  dietPlan <~ liftF (JSON_parse dietPlanText) ;;
  dietPlan <~ liftF (validateDietPlan dietPlan) ;;
  fun w =>
    runCreatePlan (gpUserId args) dietPlan true workoutPlan
      (fitness_goal args +:+ " Plan - " +:+ today w) w.

(** * Shapes of values

    The vocabulary in which the properties of the normaliser are stated. *)

Definition nullish (v : JsValue) : bool :=
  match v with JUndefined | JNull => true | _ => false end.

Definition isNumber (v : JsValue) : bool :=
  match v with JNum _ => true | _ => false end.

(** The value is a number without fractional part. *)
Definition isInteger (v : JsValue) : bool :=
  match v with JNum n => numIsInteger n | _ => false end.

(** The value is an integer that is at least 1. *)
Definition isIntegerAtLeast1 (v : JsValue) : bool :=
  match v with JNum n => numIsInteger n && (1 <=? numToZ n) | _ => false end.

(** Neither an array nor an object. *)
Definition scalar (v : JsValue) : bool :=
  match v with JArr _ | JObj _ => false | _ => true end.

(** Every field of a food analysis holds a value. *)
Definition completeFood (r : FoodAnalysis) : Prop :=
  nullish (foodName r) = false /\ nullish (calories r) = false /\
  nullish (servingSize r) = false /\ nullish (confidence r) = false /\
  nullish (protein (nutritionalInfo r)) = false /\
  nullish (carbs (nutritionalInfo r)) = false /\
  nullish (fat (nutritionalInfo r)) = false /\
  nullish (fiber (nutritionalInfo r)) = false /\
  nullish (description r) = false.

(** A sub-field of [nutritionalInfo] is omitted: the whole object is
    absent, or it is an object without that key. *)
Definition subfieldOmitted (fields : gmap string JsValue) (sub : string) : Prop :=
  fields !! "nutritionalInfo" = None \/
  exists info : gmap string JsValue,
    fields !! "nutritionalInfo" = Some (JObj info) /\ info !! sub = None.

Definition routinesOfExercise (exercise : JsValue) : list JsValue :=
  match getPropOpt exercise "routines" with JArr rs => rs | _ => [] end.

(** All routines of all exercises of a workout plan. *)
Definition routinesOf (plan : JsValue) : list JsValue :=
  match getPropOpt plan "exercises" with
  | JArr exs => List.concat (map routinesOfExercise exs)
  | _ => []
  end.

(** [fixedField d raw out]: [out] is what [numberOr raw d] makes of the
    field value [raw]. *)
Inductive fixedField (d : Z) (raw : JsValue) : JsValue -> Prop :=
| fixed_number n :
    raw = JNum n -> fixedField d raw (JNum n)
| fixed_parsed z :
    isNumber raw = false -> parseInt raw = inr (Some z) -> z <> 0 ->
    fixedField d raw (JNum (numOfZ z))
| fixed_default :
    isNumber raw = false ->
    parseInt raw = inr None \/ parseInt raw = inr (Some 0) ->
    fixedField d raw (JNum (numOfZ d)).

Definition fixedRoutine (routine routine' : JsValue) : Prop :=
  fixedField 3 (getPropOpt routine "sets") (getPropOpt routine' "sets") /\
  fixedField 10 (getPropOpt routine "reps") (getPropOpt routine' "reps").

(** A routine with numeric [sets] and [reps]. *)
Definition completeRoutine (routine : JsValue) : Prop :=
  isNumber (getPropOpt routine "sets") = true /\
  isNumber (getPropOpt routine "reps") = true.

(** The workout JSON the prompt asks for, as far as the validation depends
    on it: an object whose [exercises], when given, is an array of objects,
    each with an array [routines] of objects whose [sets] and [reps] are
    scalars or absent. *)
Definition expectedRoutine (routine : JsValue) : Prop :=
  exists fields : gmap string JsValue, routine = JObj fields /\
    scalar (default JUndefined (fields !! "sets")) = true /\
    scalar (default JUndefined (fields !! "reps")) = true.

Definition expectedExercise (exercise : JsValue) : Prop :=
  exists (fields : gmap string JsValue) rs, exercise = JObj fields /\
    fields !! "routines" = Some (JArr rs) /\ Forall expectedRoutine rs.

Definition expectedWorkout (plan : JsValue) : Prop :=
  exists fields : gmap string JsValue, plan = JObj fields /\
    (fields !! "exercises" = None \/
     exists exs, fields !! "exercises" = Some (JArr exs) /\ Forall expectedExercise exs).

(** The diet JSON the prompt asks for: an object with a scalar or absent
    [dailyCalories] and an array [meals] of objects with [name] and
    [foods]. *)
Definition expectedMeal (meal : JsValue) : Prop :=
  exists (fields : gmap string JsValue) n fs, meal = JObj fields /\
    fields !! "name" = Some n /\ fields !! "foods" = Some fs.

Definition expectedDiet (plan : JsValue) : Prop :=
  exists (fields : gmap string JsValue) ms, plan = JObj fields /\
    scalar (default JUndefined (fields !! "dailyCalories")) = true /\
    fields !! "meals" = Some (JArr ms) /\ Forall expectedMeal ms.

(** A meal re-projected to exactly [name] and [foods]. *)
Definition completeMeal (meal : JsValue) : Prop :=
  exists n fs, meal = JObj (<["foods" := fs]> {["name" := n]}).

(** A diet plan with a numeric [dailyCalories] and re-projected meals. *)
Definition completeDiet (plan : JsValue) : Prop :=
  exists c ms, plan = JObj (<["meals" := JArr ms]> {["dailyCalories" := JNum c]}) /\
    Forall completeMeal ms.

(** A workout JSON that has every field of the schema: a [schedule], and
    [exercises] that each have a [day] and [routines], every routine with
    a [name] and with [sets] and [reps] that are scalars or absent. *)
Definition givenRoutine (routine : JsValue) : Prop :=
  exists fields : gmap string JsValue, routine = JObj fields /\
    is_Some (fields !! "name") /\
    scalar (default JUndefined (fields !! "sets")) = true /\
    scalar (default JUndefined (fields !! "reps")) = true.

Definition givenExercise (exercise : JsValue) : Prop :=
  exists (fields : gmap string JsValue) rs, exercise = JObj fields /\
    is_Some (fields !! "day") /\
    fields !! "routines" = Some (JArr rs) /\ Forall givenRoutine rs.

Definition givenWorkout (plan : JsValue) : Prop :=
  exists (fields : gmap string JsValue) exs, plan = JObj fields /\
    is_Some (fields !! "schedule") /\
    fields !! "exercises" = Some (JArr exs) /\ Forall givenExercise exs.

(** A workout plan in which every field of the schema is there: a
    [schedule], and [exercises] that each have a [day] and [routines],
    every routine with a [name] and numeric [sets] and [reps]. *)
Definition namedRoutine (routine : JsValue) : Prop :=
  exists (fields : gmap string JsValue) s r, routine = JObj fields /\
    is_Some (fields !! "name") /\
    fields !! "sets" = Some (JNum s) /\ fields !! "reps" = Some (JNum r).

Definition completeExercise (exercise : JsValue) : Prop :=
  exists (fields : gmap string JsValue) rs, exercise = JObj fields /\
    is_Some (fields !! "day") /\
    fields !! "routines" = Some (JArr rs) /\ Forall namedRoutine rs.

Definition completeWorkout (plan : JsValue) : Prop :=
  exists (fields : gmap string JsValue) exs, plan = JObj fields /\
    is_Some (fields !! "schedule") /\
    fields !! "exercises" = Some (JArr exs) /\ Forall completeExercise exs.

(** Lines 286-287 and 329-330 of [generatePlan]: parse, then validate. *)
Definition parseWorkoutPlan (text : string) : Fallible JsValue :=
  workoutPlan <- JSON_parse text ;;; validateWorkoutPlan workoutPlan.

Definition parseDietPlan (text : string) : Fallible JsValue :=
  dietPlan <- JSON_parse text ;;; validateDietPlan dietPlan.

(** * Network calls made by an action *)

(** From [w] to [w'] the network calls in [sent] were made, in this order,
    and all of them satisfy [P]. *)
Definition appends (P : Request -> Prop) (w w' : World) : Prop :=
  exists sent, requests w' = (requests w ++ sent)%list /\ Forall P sent.

(** Whatever the world, the action only adds network calls that satisfy
    [P]. *)
Definition appending {A : Type} (P : Request -> Prop) (m : Action A) : Prop :=
  forall w, appends P w (m w).2.

(** * Example inputs *)

Definition quoted (s : string) : string := str1 DQUOTE +:+ s +:+ str1 DQUOTE.

(** The model's answer for an apple, inside a markdown code block:
    the text of the scenario, with keys [foodName] and [calories] only. *)
Definition appleJson : string :=
  "{" +:+ quoted "foodName" +:+ ":" +:+ quoted "Apple" +:+ "," +:+
  quoted "calories" +:+ ":95}".

Definition appleResponse : string :=
  "```json" +:+ str1 LF +:+ appleJson +:+ str1 LF +:+ "```".

(** An answer whose calories are a fraction. *)
Definition fractionResponse : string := "{" +:+ quoted "calories" +:+ ":95.5}".

(** A refusal in prose instead of JSON. *)
Definition proseResponse : string := "I cannot analyze this image".

Definition e503 : Thrown := newError "[503 Service Unavailable] The model is overloaded.".
Definition eOverloaded : Thrown := newError "The model is overloaded. Please try again later.".
Definition eBadKey : Thrown := newError "[400 Bad Request] API key not valid.".

(** A world with a credential, an empty database and a provider that
    answers the n-th call with the n-th entry of [outcomes]. *)
Definition worldWith (key : option string) (outcomes : list (Result Response)) : World :=
  mkWorld key (fun n _ => nth n outcomes (Throw ThrownNull)) [] [] emptyDb 0 "1/1/2026"
          (fun f => match f with
                    | SyntaxError _ => "Unexpected token"
                    | TypeError what => what
                    | ArgumentValidationError what => what
                    end).

(** A response with one candidate, whose text is [t]. *)
Definition answer (t : string) : Response :=
  mkResponse (Ok t) (Some (mkContent "model" t)).

(** A routine as the prompt forbids it: repetitions in prose. *)
Definition pullUps : JsValue :=
  JObj (<["reps" := JStr "As many as possible"]>
        (<["sets" := JNum (numOfZ 4)]> {["name" := JStr "Pull-ups"]})).

(** A workout plan whose only routine has zero sets. *)
Definition zeroSetsPlanText : string :=
  "{" +:+ quoted "schedule" +:+ ":[" +:+ quoted "Monday" +:+ "]," +:+
  quoted "exercises" +:+ ":[{" +:+ quoted "day" +:+ ":" +:+ quoted "Monday" +:+ "," +:+
  quoted "routines" +:+ ":[{" +:+ quoted "name" +:+ ":" +:+ quoted "Plank" +:+ "," +:+
  quoted "sets" +:+ ":0," +:+ quoted "reps" +:+ ":" +:+ quoted "As many as possible" +:+
  "}]}]}".

Definition dietText : string :=
  "{" +:+ quoted "dailyCalories" +:+ ":" +:+ quoted "2200 kcal" +:+ "," +:+
  quoted "meals" +:+ ":[{" +:+ quoted "name" +:+ ":" +:+ quoted "Breakfast" +:+ "," +:+
  quoted "foods" +:+ ":[" +:+ quoted "Oatmeal" +:+ "]," +:+
  quoted "notes" +:+ ":" +:+ quoted "warm" +:+ "}]}".

Definition zeroSetsPlan : JsValue :=
  JObj (<["exercises" :=
            JArr [JObj (<["routines" :=
                            JArr [JObj (<["reps" := JStr "As many as possible"]>
                                        (<["sets" := JNum (numOfZ 0)]>
                                         {["name" := JStr "Plank"]}))]]>
                        {["day" := JStr "Monday"]})]]>
        {["schedule" := JArr [JStr "Monday"]]}).

Definition zeroSetsPlanFixed : JsValue :=
  JObj (<["exercises" :=
            JArr [JObj (<["routines" :=
                            JArr [JObj (<["reps" := JNum (numOfZ 10)]>
                                        (<["sets" := JNum (numOfZ 0)]>
                                         {["name" := JStr "Plank"]}))]]>
                        {["day" := JStr "Monday"]})]]>
        {["schedule" := JArr [JStr "Monday"]]}).

Definition dietPlanParsed : JsValue :=
  JObj (<["meals" :=
            JArr [JObj (<["notes" := JStr "warm"]>
                        (<["foods" := JArr [JStr "Oatmeal"]]>
                         {["name" := JStr "Breakfast"]}))]]>
        {["dailyCalories" := JStr "2200 kcal"]}).

Definition planFor (owner planName : string) : PlanArgs :=
  mkPlanArgs owner planName
    (mkWorkoutPlan ["Monday"] [mkExercise "Monday" [mkRoutine "Squat" (numOfZ 3) (numOfZ 10)]])
    (mkDietPlan (numOfZ 2000) [mkMeal "Breakfast" ["Oatmeal"]])
    true.

(** A database in which alice already has two active plans and bob one. *)
Definition crowdedDb : Db :=
  mkDb [] [mkPlan 0 (planFor "alice" "old 1"); mkPlan 1 (planFor "bob" "his");
           mkPlan 2 (planFor "alice" "old 2")] 3.

Definition threeCalls : list PlanArgs :=
  [planFor "alice" "first"; planFor "alice" "second"; planFor "alice" "third"].

Definition chatTurn (n : nat) : ChatMessage :=
  mkChatMessage n "alice" (if Nat.even n then user else assistant) (pretty n) (Z.of_nat n).

(** A database with twelve stored turns of alice, numbered 0 to 11. *)
Definition twelveTurnsDb : Db := mkDb (map chatTurn (seq 0 12)) [] 12.

Definition demoArgs : GeneratePlanArgs :=
  mkGeneratePlanArgs "alice" "30" "180cm" "80kg" "none" "3" "strength" "beginner" "none".

(** A world with a credential and twelve stored turns, whose provider
    answers the first call. *)
Definition chatWorld : World :=
  withDb (worldWith (Some "key") [Ok (answer "Drink water.")]) twelveTurnsDb.

(** Twelve stored turns of alice whose first message got no reply: the
    roles are user, user, assistant, user, assistant, ... *)
Definition lateTurn (n : nat) : ChatMessage :=
  mkChatMessage n "alice" (if (n =? 0)%nat || Nat.odd n then user else assistant)
                (pretty n) (Z.of_nat n).

Definition unansweredDb : Db := mkDb (map lateTurn (seq 0 12)) [] 12.

Definition unansweredWorld : World :=
  withDb (worldWith (Some "key") [Ok (answer "Drink water.")]) unansweredDb.

(** A response the chat session takes for valid, whose text cannot be
    read: the candidate was blocked, and the reason the provider gives
    mentions 503. *)
Definition blockedResponse : Response :=
  mkResponse
    (Throw (sdkError "Candidate was blocked due to RECITATION: see policy 503"))
    (Some (mkContent "model" "Drink")).

(** A world with one stored exchange, whose provider answers the first
    call with the blocked response and the second with a text. *)
Definition blockedWorld : World :=
  withDb (worldWith (Some "key") [Ok blockedResponse; Ok (answer "Drink water.")])
         (mkDb [chatTurn 0; chatTurn 1] [] 2).

(** A world without credential; the provider rejects every call. *)
Definition noKeyWorld : World := worldWith None [].

(** A world whose primary model is overloaded and whose fallback model
    rejects the credential. *)
Definition overloadWorld : World := worldWith (Some "key") [Throw e503; Throw eBadKey].

(** * Runs of failures *)

(** [fails_with fn w errs w']: starting in [w], successive invocations of
    [fn] throw the errors [errs], one after the other, and leave the world
    in [w']. *)
Inductive fails_with {W T : Type} (fn : W -> Result T * W) : W -> list Thrown -> W -> Prop :=
| fw_nil w : fails_with fn w [] w
| fw_cons w e w1 errs w' :
    fn w = (Throw e, w1) -> fails_with fn w1 errs w' ->
    fails_with fn w (e :: errs) w'.

(** The sum of the delays waited for. *)
Definition totalWait (tr : list Effect) : Z := fold_right Z.add 0 (waits tr).

(** * Network calls, counted *)

(** From [w] to [w'] nothing changed but the list of network calls, to
    which between [lo] and [hi] calls were added, all of them in [P]. *)
Definition sends (P : Request -> Prop) (lo hi : nat) (w w' : World) : Prop :=
  exists sent,
    w' = withRequests w (requests w ++ sent) /\
    Forall P sent /\ (lo <= List.length sent <= hi)%nat.

(** The action makes the network call [req], once, and changes nothing
    else. *)
Definition callsOnce {A : Type} (req : Request) (m : Action A) : Prop :=
  forall w, (m w).2 = withRequests w (requests w ++ [req]).

(** The four messages [generateResponse] can fail with. *)
Definition generateResponseFailure (cause message : string) : Prop :=
  message = "The AI service is currently busy. Please try again in a few moments." \/
  message = "API configuration error. Please contact support." \/
  message = "API quota exceeded. Please try again later." \/
  message = "Failed to generate AI response: " +:+ cause.

(** The six messages [analyzeFoodImage] can fail with. *)
Definition analyzeFoodImageFailure (cause message : string) : Prop :=
  message = "The AI service is currently busy. Please try again in a few moments." \/
  message = "API configuration error. Please contact support." \/
  message = "API quota exceeded. Please try again later." \/
  message = "The image was blocked by safety filters. Please try a different image." \/
  message = "Invalid image format. Please try a different image." \/
  message = "Failed to analyze the image: " +:+ cause.

(** The two requests of [generatePlan]. *)
Definition workoutRequest (args : GeneratePlanArgs) : Request :=
  mkRequest "gemini-2.5-pro"
    (WorkoutPrompt (age args) (height args) (weight args) (injuries args)
       (workout_days args) (fitness_goal args) (fitness_level args)).

Definition dietRequest (args : GeneratePlanArgs) : Request :=
  mkRequest "gemini-2.5-pro"
    (DietPrompt (age args) (height args) (weight args) (fitness_goal args)
       (dietary_restrictions args)).

(** A chat request of one run: to one of the models [models], with the
    message, and with a history that starts with [window]. *)
Definition chatCall (models : list string) (window : list Content) (userMessage : string)
    (r : Request) : Prop :=
  In (model r) models /\
  exists pushed, payload r = ChatTurn (window ++ pushed) userMessage.

(** The error of the SDK for a history that starts with a turn of the
    assistant. *)
Definition firstContentError : Thrown :=
  sdkError "First content should be with role 'user', got model".

(** * Well-formed databases *)

(** The ids of all documents, of both tables. *)
Definition docIds (d : Db) : list nat :=
  (map msgId (chatMessages d) ++ map planId (plans d))%list.

(** No two documents share an id, and every id was drawn from the
    counter. *)
Definition wfDb (d : Db) : Prop :=
  NoDup (docIds d) /\ Forall (fun id => (id < nextId d)%nat) (docIds d).

(** The plans of a user, in creation order. *)
Definition plansOf (owner : string) (d : Db) : list Plan :=
  List.filter (fun p => bool_decide (userId (planFields p) = owner)) (plans d).

(** * Fields kept by the validation *)

Definition exercisesOf (plan : JsValue) : list JsValue :=
  match getPropOpt plan "exercises" with JArr exs => exs | _ => [] end.

Definition mealsOf (plan : JsValue) : list JsValue :=
  match getPropOpt plan "meals" with JArr ms => ms | _ => [] end.

(** [v'] is an object that has the own properties of [v], except possibly
    for the keys in [changed]. *)
Definition keepsOtherFields (changed : list string) (v v' : JsValue) : Prop :=
  exists fields' : gmap string JsValue,
    v' = JObj fields' /\ forall k, k ∉ changed -> fields' !! k = spread v !! k.

(** A database with messages of two users. *)
Definition mixedDb : Db :=
  mkDb [mkChatMessage 0 "alice" user "hi" 1; mkChatMessage 1 "bob" user "hello" 2;
        mkChatMessage 2 "alice" assistant "welcome" 3; mkChatMessage 3 "bob" assistant "hey" 4]
       [mkPlan 4 (planFor "alice" "plan")] 5.

(** A routine with a field the schema does not have. *)
Definition routineWithNote : JsValue :=
  JObj (<["note" := JStr "slow"]>
        (<["reps" := JNum (numOfZ 12)]>
         (<["sets" := JNum (numOfZ 3)]> {["name" := JStr "Squat"]}))).

(** A meal with a field the schema does not have. *)
Definition mealWithNote : JsValue :=
  JObj (<["note" := JStr "warm"]>
        (<["foods" := JArr [JStr "Oatmeal"; JStr "Tea"]]> {["name" := JStr "Breakfast"]})).

(** * The actions without retry

    The earlier versions of the two actions, as [convex/calories.ts] and
    the second copy in [convex/messages.ts] have them: a single call to
    gemini-2.5-flash, and a catch clause that wraps every error. *)

(** The action [analyzeFoodImage] of [convex/calories.ts]. *)
Definition analyzeFoodImage_single (imageData mimeType : string) : Action FoodAnalysis :=
  tryCatch
    (fun w =>
       if apiKeyMissing w then
         throw (newError "GEMINI_API_KEY is not configured in environment variables") w
       else
         (result <~ send (mkRequest "gemini-2.5-flash" (FoodImage imageData mimeType)) ;;
          text <~ responseText result ;;
          liftF (parseFoodResponse text)) w)
    (fun error =>
       throw (newError ("Failed to analyze food image: " +:+
                        match error with
                        | ErrorObj _ message => message
                        | NonError _ => "Unknown error"
                        end))).

(** The action [generateResponse] without retry. *)
Definition generateResponse_single (owner userMessage : string) : Action string :=
  tryCatch
    (fun w =>
       if apiKeyMissing w then
         throw (newError "GEMINI_API_KEY is not configured in environment variables") w
       else
         (_ <~ runAddMessage owner user userMessage ;;
          messages <~ runGetMessages owner ;;
          let history := conversationHistory messages in
          aiResponse <~ chatting (chatRequest "gemini-2.5-flash" userMessage) history ;;
          _ <~ runAddMessage owner assistant aiResponse ;;
          ret aiResponse) w)
    (fun error =>
       let errorMessage :=
         match error with
         | ErrorObj _ message => message
         | NonError _ => "Unknown error occurred"
         end in
       throw (newError ("Failed to generate AI response: " +:+ errorMessage))).

(** * Code fences *)

(** The text [body] inside a markdown code block with the given tag
    ([json] or nothing), as models write it. *)
Definition fenced (tag body : string) : string :=
  "```" +:+ tag +:+ str1 LF +:+ body +:+ str1 LF +:+ "```".

(** * Theorems *)

(** ** The library model on sample inputs *)

Example includes_samples :
  map (includes "[503 Service Unavailable] The model is overloaded.")
      ["503"; "overloaded"; "quota"; ""] = [true; true; false; true].
Proof. reflexivity. Qed.

Example stripCodeFence_samples :
  stripCodeFence ("  ```json" +:+ str1 LF +:+ "{}" +:+ str1 LF +:+ "```  ") = "{}" +:+ str1 LF /\
  stripCodeFence ("```" +:+ str1 LF +:+ "[1]```") = "[1]" /\
  stripCodeFence " {} " = "{}".
Proof. repeat split. Qed.

(** White space outside the ASCII range is removed and skipped as well:
    a byte order mark, a no-break space, a line separator, an ideographic
    space. *)
Example trim_samples :
  trim (byte 239 +:+ byte 187 +:+ byte 191 +:+ " {} " +:+ byte 194 +:+ byte 160 +:+
        byte 226 +:+ byte 128 +:+ byte 168) = "{}" /\
  parseIntString (byte 227 +:+ byte 128 +:+ byte 128 +:+ "12") = Some 12 /\
  stripCodeFence (byte 239 +:+ byte 187 +:+ byte 191 +:+ "{}") = "{}" /\
  trim (byte 226 +:+ byte 128 +:+ "x") = byte 226 +:+ byte 128 +:+ "x".
Proof. vm_compute. repeat split. Qed.

Example numToString_samples :
  map numToString [mkNum 955 (-1); mkNum 1200 0; mkNum (-5) (-7); mkNum 1 21;
                   mkNum 123 (-5); mkNum 0 3; mkNum 15 20]
  = ["95.5"; "1200"; "-5e-7"; "1e+21"; "0.00123"; "0"; "1.5e+21"].
Proof. vm_compute. reflexivity. Qed.

Example parseIntString_samples :
  map parseIntString ["12 reps"; "As many as possible"; " -4"; "0x1A"; "8-12"; ""; "3.7"; "+"; "0"]
  = [Some 12; None; Some (-4); Some 26; Some 8; None; Some 3; None; Some 0].
Proof. vm_compute. reflexivity. Qed.

Example toStringJs_samples :
  toStringJs (JArr [JNum (mkNum 25 (-1)); JNull; JArr [JStr "a"; JBool true]]) = inr "2.5,,a,true" /\
  toStringJs (JObj ∅) = inr "[object Object]".
Proof. split; vm_compute; reflexivity. Qed.

Example JSON_parse_samples :
  JSON_parse appleJson =
    inr (JObj (<["calories" := JNum (numOfZ 95)]> {["foodName" := JStr "Apple"]})) /\
  JSON_parse ("[1.50, -2e3 , [], {}, true,null, {" +:+ quoted "a" +:+ " : [ false ] } ]") =
    inr (JArr [JNum (mkNum 150 (-2)); JNum (mkNum (-2) 3); JArr []; JObj ∅; JBool true;
               JNull; JObj {["a" := JArr [JBool false]]}]) /\
  JSON_parse (quoted ("a" +:+ str1 BACKSLASH +:+ "n" +:+ str1 BACKSLASH +:+ "u0041")) =
    inr (JStr ("a" +:+ str1 LF +:+ "A")) /\
  map (fun t => if JSON_parse t is inr _ then true else false)
      ["01"; "1."; "[1,]"; "{"; "tru"; ""; "nulll"; "[1 2]"; "-"; " 7 "; "1e5"; "{,}"]
  = [false; false; false; false; false; false; false; false; false; true; true; false].
Proof. repeat split; vm_compute; reflexivity. Qed.

Example validateDietPlan_sample :
  parseDietPlan dietText =
    inr (JObj (<["meals" := JArr [JObj (<["foods" := JArr [JStr "Oatmeal"]]>
                                        {["name" := JStr "Breakfast"]})]]>
               {["dailyCalories" := JNum (numOfZ 2200)]})).
Proof. vm_compute. reflexivity. Qed.

(** [includes] is the substring relation. *)
Lemma prefix_iff (p s : string) :
  String.prefix p s = true <-> exists rest, s = p +:+ rest.
Proof.
  revert s. induction p as [|c p IH]; intros s.
  - split; [intros _; now exists s|now destruct s].
  - destruct s as [|d s]; [split; [discriminate|intros (r & Hr); discriminate]|].
    cbn [String.prefix]. destruct (ascii_dec c d) as [->|Hne].
    + split.
      * intros H. apply IH in H as (r & ->). now exists r.
      * intros (r & Hr). apply IH. exists r. now inversion Hr.
    + split; [discriminate|]. intros (r & Hr). inversion Hr. congruence.
Qed.

Lemma includes_iff (s needle : string) :
  includes s needle = true <-> exists before after, s = before +:+ needle +:+ after.
Proof.
  split.
  - induction s as [|c s IH]; cbn [includes]; rewrite orb_true_iff; intros [H|H].
    + apply prefix_iff in H as (r & ->). now exists "", r.
    + discriminate.
    + apply prefix_iff in H as (r & ->). now exists "", r.
    + destruct (IH H) as (a & b & ->). now exists (String c a), b.
  - intros (a & b & ->). induction a as [|c a IH].
    + assert (H : String.prefix needle (needle +:+ b) = true)
        by (apply prefix_iff; now exists b).
      change ("" +:+ needle +:+ b) with (needle +:+ b).
      destruct (needle +:+ b); cbn [includes]; now rewrite H.
    + change (String c a +:+ needle +:+ b) with (String c (a +:+ needle +:+ b)).
      cbn [includes]. rewrite IH. apply orb_true_r.
Qed.

(** ** The resilient invoker *)

Section RetryFacts.
Context {W T : Type}.
Variable fn : W -> Result T * W.
Variables (maxRetries initialDelay : Z).

(** The loop, entered at index [i] with enough iterations left, rides out
    [errs] and returns the value of the attempt that succeeds. *)
Lemma retryLoop_rides_out w errs v w' :
  fails_then_ok fn w errs v w' ->
  Forall (fun e => isOverloaded e = true) errs ->
  forall remaining i lastError,
    (List.length errs < remaining)%nat ->
    0 <= i ->
    i + Z.of_nat (List.length errs) < maxRetries ->
    retryLoop fn maxRetries initialDelay remaining i lastError w =
    (Ok v, w', backoffTrace initialDelay i (List.length errs)).
Proof.
  induction 1 as [w v w' Hfn | w e w1 errs v w' Hfn Hrest IH];
    intros Hover remaining i lastError Hrem Hi Hmax.
  - destruct remaining as [|remaining]; [simpl in Hrem; lia|].
    simpl. rewrite Hfn. reflexivity.
  - inversion Hover as [|? ? He Hover']; subst.
    destruct remaining as [|remaining]; [simpl in Hrem; lia|].
    simpl in Hrem, Hmax. simpl retryLoop. rewrite Hfn, He.
    replace (i <? maxRetries - 1) with true by (symmetry; apply Z.ltb_lt; lia).
    simpl andb. cbv iota.
    rewrite (IH Hover' remaining (i + 1) (Some e)) by lia.
    reflexivity.
Qed.

Lemma waits_backoffTrace i k :
  waits (backoffTrace initialDelay i k) =
  map (fun j => initialDelay * 2 ^ (i + Z.of_nat j)) (seq 0 k).
Proof.
  revert i. induction k as [|k IH]; intros i; [reflexivity|].
  simpl backoffTrace. change (waits (Invoke :: Wait ?d :: ?tr)) with (d :: waits tr).
  rewrite IH. simpl. rewrite Z.add_0_r. f_equal.
  rewrite <- seq_shift, map_map. apply map_ext. intros j. f_equal. f_equal. lia.
Qed.

Lemma invocations_backoffTrace i k :
  invocations (backoffTrace initialDelay i k) = S k.
Proof.
  revert i. induction k as [|k IH]; intros i; [reflexivity|].
  simpl backoffTrace.
  change (invocations (Invoke :: Wait ?d :: ?tr)) with (S (invocations tr)).
  now rewrite IH.
Qed.

End RetryFacts.

(** The script [map Throw errs ++ Ok v :: rest] makes [scripted] fail with
    [errs] and then return [v]. *)
Lemma scripted_fails_then_ok {T : Type} (errs : list Thrown) (v : T) rest :
  fails_then_ok scripted (map Throw errs ++ Ok v :: rest)%list errs v rest.
Proof.
  induction errs as [|e errs IH]; simpl.
  - now apply fto_ok.
  - eapply fto_fail; [reflexivity | exact IH].
Qed.

(** C1. When the wrapped function fails fewer than [maxRetries] times in a
    row, each time with a message that contains "overloaded" or "503", and
    then succeeds, [retryWithBackoff] returns the value of the successful
    attempt; it invokes the function once per failure and once more, and
    after the failure of attempt [i] (counted from 0) it waits
    [initialDelay * 2^i] before the next attempt.  With [maxRetries = 3]
    and [initialDelay = 2000] the waits are 2000 and 4000. *)
Theorem retryWithBackoff_transient_then_success {W T : Type}
    (fn : W -> Result T * W) (maxRetries initialDelay : Z)
    (w : W) (errs : list Thrown) (v : T) (w' : W) :
  fails_then_ok fn w errs v w' ->
  Forall (fun e => includes (errorMessageOf e) "overloaded" = true \/
                   includes (errorMessageOf e) "503" = true) errs ->
  Z.of_nat (List.length errs) < maxRetries ->
  exists tr,
    retryWithBackoff fn maxRetries initialDelay w = (Ok v, w', tr) /\
    tr = backoffTrace initialDelay 0 (List.length errs) /\
    waits tr = map (fun i => initialDelay * 2 ^ Z.of_nat i) (seq 0 (List.length errs)) /\
    invocations tr = S (List.length errs) /\
    (maxRetries = 3 -> initialDelay = 2000 -> List.length errs = 2%nat ->
     waits tr = [2000; 4000]).
Proof.
  intros Hrun Hover Hlen.
  exists (backoffTrace initialDelay 0 (List.length errs)).
  assert (Hw : waits (backoffTrace initialDelay 0 (List.length errs)) =
               map (fun i => initialDelay * 2 ^ Z.of_nat i) (seq 0 (List.length errs))).
  { rewrite waits_backoffTrace. apply map_ext. intros j. now rewrite Z.add_0_l. }
  split; [|split; [reflexivity|split; [exact Hw|split]]].
  - unfold retryWithBackoff.
    apply retryLoop_rides_out; try lia; [exact Hrun|].
    eapply Forall_impl; [exact Hover|].
    intros e [H|H]; unfold isOverloaded, isOverloadedMessage; rewrite H;
      [reflexivity | apply orb_true_r].
  - apply invocations_backoffTrace.
  - intros _ -> Hk. rewrite Hw, Hk. reflexivity.
Qed.

Lemma retryWithBackoff_transient_then_success_witness :
  exists tr,
    retryWithBackoff scripted 3 2000
      [Throw e503; Throw eOverloaded; Ok "done"; Ok "unused"] =
      (Ok "done", [Ok "unused"], tr) /\
    tr = [Invoke; Wait 2000; Invoke; Wait 4000; Invoke] /\
    waits tr = [2000; 4000] /\ invocations tr = 3%nat.
Proof.
  destruct (retryWithBackoff_transient_then_success scripted 3 2000
              [Throw e503; Throw eOverloaded; Ok "done"; Ok "unused"]
              [e503; eOverloaded] "done" [Ok "unused"])
    as (tr & Hrun & Htr & _ & Hinv & Hwaits).
  - apply (scripted_fails_then_ok [e503; eOverloaded]).
  - repeat constructor; left; reflexivity.
  - simpl. lia.
  - exists tr. split; [exact Hrun|]. split; [exact Htr|]. split; [|exact Hinv].
    apply Hwaits; reflexivity.
Defined.

(** C2. When the first attempt fails with an error whose message contains
    neither "overloaded" nor "503", [retryWithBackoff] (with at least one
    attempt allowed) invokes the wrapped function exactly once, waits on no
    timer and rejects with that very error. *)
Theorem retryWithBackoff_non_transient_no_retry {W T : Type}
    (fn : W -> Result T * W) (maxRetries initialDelay : Z)
    (w : W) (e : Thrown) (w' : W) :
  fn w = (Throw e, w') ->
  includes (errorMessageOf e) "overloaded" = false ->
  includes (errorMessageOf e) "503" = false ->
  0 < maxRetries ->
  exists tr,
    retryWithBackoff fn maxRetries initialDelay w = (Throw e, w', tr) /\
    invocations tr = 1%nat /\ waits tr = [].
Proof.
  intros Hfn H1 H2 Hmax. exists [Invoke].
  split; [|split; reflexivity].
  unfold retryWithBackoff.
  destruct (Z.to_nat maxRetries) as [|n] eqn:Hn; [lia|].
  simpl. rewrite Hfn. unfold isOverloaded, isOverloadedMessage.
  rewrite H1, H2. reflexivity.
Qed.

Lemma retryWithBackoff_non_transient_no_retry_witness :
  exists tr,
    retryWithBackoff scripted 3 2000 [Throw eBadKey; Ok "never asked"] =
      (Throw eBadKey, [Ok "never asked"], tr) /\
    invocations tr = 1%nat /\ waits tr = [].
Proof.
  apply (retryWithBackoff_non_transient_no_retry scripted 3 2000
           [Throw eBadKey; Ok "never asked"] eBadKey [Ok "never asked"]);
    [reflexivity | reflexivity | reflexivity | lia].
Defined.

(** C10. When the primary call fails with an overload-classified error and
    the fallback call then fails with an error that is not one, the error
    [generateContent] rejects with is the fallback's, and it is that error
    the retry loop classifies: a single invocation of [generateContent],
    no wait, and the fallback's error is propagated. *)
Theorem fallback_error_is_classified_not_retried {W T : Type}
    (primary fallback : W -> Result T * W) (maxRetries initialDelay : Z)
    (w w1 w2 : W) (primaryError fallbackError : Thrown) :
  primary w = (Throw primaryError, w1) ->
  isOverloaded primaryError = true ->
  fallback w1 = (Throw fallbackError, w2) ->
  isOverloaded fallbackError = false ->
  0 < maxRetries ->
  generateContent primary fallback w = (Throw fallbackError, w2) /\
  retryWithBackoff (generateContent primary fallback) maxRetries initialDelay w =
    (Throw fallbackError, w2, [Invoke]).
Proof.
  intros Hp Ho1 Hf Ho2 Hmax.
  assert (Hgc : generateContent primary fallback w = (Throw fallbackError, w2)).
  { unfold generateContent. rewrite Hp.
    unfold isOverloaded, isOverloadedMessage in Ho1. cbv zeta. rewrite Ho1. exact Hf. }
  split; [exact Hgc|].
  unfold retryWithBackoff.
  destruct (Z.to_nat maxRetries) as [|n] eqn:Hn; [lia|].
  simpl. rewrite Hgc, Ho2. reflexivity.
Qed.

Lemma fallback_error_is_classified_not_retried_witness :
  exists s2,
    retryWithBackoff
      (generateContent (chatRequest "gemini-2.0-flash" "hello")
                       (chatRequest "gemini-2.5-pro" "hello"))
      3 2000 (overloadWorld, []) = (Throw eBadKey, s2, [Invoke]) /\
    map model (requests s2.1) = ["gemini-2.0-flash"; "gemini-2.5-pro"].
Proof.
  eexists. split.
  - eapply (fallback_error_is_classified_not_retried
              (chatRequest "gemini-2.0-flash" "hello")
              (chatRequest "gemini-2.5-pro" "hello") 3 2000 (overloadWorld, [])
              _ _ e503 eBadKey); [reflexivity | reflexivity | reflexivity | reflexivity | lia].
  - reflexivity.
Defined.

(** ** The response normaliser *)

Lemma truthy_not_nullish v : truthy v = true -> nullish v = false.
Proof. destruct v; simpl; auto; discriminate. Qed.

Lemma jsOr_not_nullish a d : nullish d = false -> nullish (jsOr a d) = false.
Proof.
  intros Hd. unfold jsOr. destruct (truthy a) eqn:E; [now apply truthy_not_nullish|exact Hd].
Qed.

Lemma foodAnalysisOf_object (fields : gmap string JsValue) :
  foodAnalysisOf (JObj fields) = inr {|
    foodName := jsOr (default JUndefined (fields !! "foodName")) (JStr "Unknown Food");
    calories := jsOr (default JUndefined (fields !! "calories")) (JNum (numOfZ 0));
    servingSize := jsOr (default JUndefined (fields !! "servingSize")) (JStr "Unknown");
    confidence := jsOr (default JUndefined (fields !! "confidence")) (JStr "low");
    nutritionalInfo := {|
      protein := jsOr (getPropOpt (default JUndefined (fields !! "nutritionalInfo")) "protein") (JStr "N/A");
      carbs := jsOr (getPropOpt (default JUndefined (fields !! "nutritionalInfo")) "carbs") (JStr "N/A");
      fat := jsOr (getPropOpt (default JUndefined (fields !! "nutritionalInfo")) "fat") (JStr "N/A");
      fiber := jsOr (getPropOpt (default JUndefined (fields !! "nutritionalInfo")) "fiber") (JStr "N/A")
    |};
    description := jsOr (default JUndefined (fields !! "description")) (JStr "Could not analyze the food.")
  |}.
Proof. reflexivity. Qed.

Lemma subfield_default fields sub :
  subfieldOmitted fields sub ->
  jsOr (getPropOpt (default JUndefined (fields !! "nutritionalInfo")) sub) (JStr "N/A") = JStr "N/A".
Proof.
  intros [H | (info & H & Hsub)]; rewrite H; simpl; [reflexivity|].
  now rewrite Hsub.
Qed.

(** C6. When the response text, after removal of the code fence, is a JSON
    object, the normalised result gives every omitted field its default:
    foodName "Unknown Food", calories 0, servingSize "Unknown", confidence
    "low", description "Could not analyze the food.", and "N/A" for each
    omitted sub-field of nutritionalInfo, and every field of the result
    holds a value; for the fenced text with only
    foodName "Apple" and calories 95 the result has servingSize "Unknown",
    confidence "low" and protein, carbs, fat and fiber all "N/A". *)
Theorem food_defaults_for_omitted_fields (text : string) (fields : gmap string JsValue) :
  JSON_parse (stripCodeFence text) = inr (JObj fields) ->
  (exists r, parseFoodResponse text = inr r /\
    (fields !! "foodName" = None -> foodName r = JStr "Unknown Food") /\
    (fields !! "calories" = None -> calories r = JNum (numOfZ 0)) /\
    (fields !! "servingSize" = None -> servingSize r = JStr "Unknown") /\
    (fields !! "confidence" = None -> confidence r = JStr "low") /\
    (fields !! "description" = None -> description r = JStr "Could not analyze the food.") /\
    (subfieldOmitted fields "protein" -> protein (nutritionalInfo r) = JStr "N/A") /\
    (subfieldOmitted fields "carbs" -> carbs (nutritionalInfo r) = JStr "N/A") /\
    (subfieldOmitted fields "fat" -> fat (nutritionalInfo r) = JStr "N/A") /\
    (subfieldOmitted fields "fiber" -> fiber (nutritionalInfo r) = JStr "N/A") /\
    completeFood r) /\
  parseFoodResponse appleResponse =
    inr {| foodName := JStr "Apple";
           calories := JNum (numOfZ 95);
           servingSize := JStr "Unknown";
           confidence := JStr "low";
           nutritionalInfo := {| protein := JStr "N/A"; carbs := JStr "N/A";
                                 fat := JStr "N/A"; fiber := JStr "N/A" |};
           description := JStr "Could not analyze the food." |}.
Proof.
  intros Hparse. split; [|vm_compute; reflexivity].
  unfold parseFoodResponse. rewrite Hparse. cbn [fbind].
  rewrite foodAnalysisOf_object. eexists. split; [reflexivity|].
  unfold completeFood.
  cbn [foodName calories servingSize confidence description nutritionalInfo
       protein carbs fat fiber].
  repeat split; try (intros ->; reflexivity); try apply subfield_default;
    apply jsOr_not_nullish; reflexivity.
Qed.

Lemma food_defaults_for_omitted_fields_witness :
  exists r, parseFoodResponse appleResponse = inr r /\
    servingSize r = JStr "Unknown" /\ confidence r = JStr "low" /\
    nutritionalInfo r = {| protein := JStr "N/A"; carbs := JStr "N/A";
                           fat := JStr "N/A"; fiber := JStr "N/A" |}.
Proof.
  destruct (food_defaults_for_omitted_fields appleResponse
              (<["calories" := JNum (numOfZ 95)]> {["foodName" := JStr "Apple"]}))
    as [(r & Hr & _ & _ & Hserving & Hconf & _ & Hp & Hc & Hfa & Hfi & _) _].
  - vm_compute. reflexivity.
  - exists r. split; [exact Hr|].
    split; [apply Hserving; reflexivity|].
    split; [apply Hconf; reflexivity|].
    destruct r as [? ? ? ? [] ?]; simpl in *.
    rewrite Hp, Hc, Hfa, Hfi by (left; reflexivity). reflexivity.
Defined.

(** C5 (as amended). When the response is a JSON object, the calories of
    the result are the parsed value itself when that is a number other than
    0: it is not rounded, so a fraction stays a fraction.  When calories
    are absent, or present with a falsy value (null, 0, false, the empty
    string), the result's calories are the number 0. *)
Theorem food_calories_kept_or_zero (text : string) (fields : gmap string JsValue) :
  JSON_parse (stripCodeFence text) = inr (JObj fields) ->
  exists r, parseFoodResponse text = inr r /\
    (forall n, fields !! "calories" = Some (JNum n) -> mant n <> 0 ->
               calories r = JNum n) /\
    (fields !! "calories" = None -> calories r = JNum (numOfZ 0)) /\
    (forall v, fields !! "calories" = Some v -> truthy v = false ->
               calories r = JNum (numOfZ 0)).
Proof.
  intros Hparse. unfold parseFoodResponse. rewrite Hparse. cbn [fbind].
  rewrite foodAnalysisOf_object. eexists. split; [reflexivity|].
  cbn [calories]. repeat split.
  - intros n -> Hn. unfold jsOr. simpl.
    destruct (mant n =? 0) eqn:E; [apply Z.eqb_eq in E; contradiction|reflexivity].
  - intros ->. reflexivity.
  - intros v -> Hv. unfold jsOr. simpl. now rewrite Hv.
Qed.

Lemma food_calories_kept_or_zero_witness :
  exists r, parseFoodResponse fractionResponse = inr r /\
    calories r = JNum (mkNum 955 (-1)).
Proof.
  destruct (food_calories_kept_or_zero fractionResponse
              {["calories" := JNum (mkNum 955 (-1))]}) as (r & Hr & Hkept & _).
  - vm_compute. reflexivity.
  - exists r. split; [exact Hr|]. apply Hkept; [reflexivity|discriminate].
Defined.

(** Counterexample to C5 as stated: for the response with calories 95.5
    the result's calories are 95.5, which is not an integer. *)
Lemma food_calories_fraction_not_integer :
  exists r, parseFoodResponse fractionResponse = inr r /\
    isInteger (calories r) = false.
Proof. eexists. split; vm_compute; reflexivity. Qed.

(** ** Workout plans *)

Lemma getProp_inr v prop x : getProp v prop = inr x -> x = getPropOpt v prop.
Proof. destruct v; simpl; intros H; inversion H; reflexivity. Qed.

Lemma mapF_Forall2 {A B : Type} (f : A -> Fallible B) (R : A -> B -> Prop) xs ys :
  (forall x y, f x = inr y -> R x y) ->
  mapF f xs = inr ys -> Forall2 R xs ys.
Proof.
  intros Hf. revert ys. induction xs as [|x xs IH]; simpl; intros ys H.
  - inversion H. constructor.
  - destruct (f x) as [?|y] eqn:Hx; simpl in H; [discriminate|].
    destruct (mapF f xs) as [?|ys'] eqn:Hxs; simpl in H; [discriminate|].
    inversion H; subst. constructor; auto.
Qed.

Lemma mapF_total {A B : Type} (f : A -> Fallible B) (P : A -> Prop) (Q : B -> Prop) xs :
  (forall x, P x -> exists y, f x = inr y /\ Q y) ->
  Forall P xs -> exists ys, mapF f xs = inr ys /\ Forall Q ys.
Proof.
  intros Hf. induction 1 as [|x xs Hx _ (ys & Hys & HQ)]; simpl.
  - exists []. split; [reflexivity|constructor].
  - destruct (Hf x Hx) as (y & Hy & Qy). rewrite Hy, Hys. simpl.
    exists (y :: ys). split; [reflexivity|constructor; assumption].
Qed.

Lemma arrayMap_inr v f out :
  arrayMap v f = inr out ->
  exists xs ys, v = JArr xs /\ out = JArr ys /\ mapF f xs = inr ys.
Proof.
  destruct v; simpl; try discriminate.
  destruct (mapF f items) as [?|ys] eqn:E; simpl; [discriminate|].
  intros H; inversion H; subst. eauto.
Qed.

Lemma numberOr_fixed raw d out : numberOr raw d = inr out -> fixedField d raw out.
Proof.
  unfold numberOr, parseIntOr. destruct (isNumber raw) eqn:Hnum.
  - destruct raw; try discriminate. intros H; inversion H; subst. now constructor.
  - assert (H0 : fbind (parseInt raw)
                   (fun r => inr match r with
                                 | Some z => if z =? 0 then JNum (numOfZ d) else JNum (numOfZ z)
                                 | None => JNum (numOfZ d)
                                 end) = inr out -> fixedField d raw out).
    { destruct (parseInt raw) as [?|[z|]] eqn:Hp; simpl; try discriminate.
      - destruct (z =? 0) eqn:Hz; intros H; inversion H; subst.
        + apply Z.eqb_eq in Hz; subst. apply fixed_default; auto.
        + apply Z.eqb_neq in Hz. now apply fixed_parsed.
      - intros H; inversion H; subst. apply fixed_default; auto. }
    destruct raw; try discriminate; exact H0.
Qed.

Lemma validateRoutine_fixed routine routine' :
  validateRoutine routine = inr routine' -> fixedRoutine routine routine'.
Proof.
  unfold validateRoutine.
  destruct (getProp routine "sets") as [?|rawSets] eqn:Hs; simpl; [discriminate|].
  destruct (numberOr rawSets 3) as [?|sets'] eqn:Hs'; simpl; [discriminate|].
  destruct (getProp routine "reps") as [?|rawReps] eqn:Hr; simpl; [discriminate|].
  destruct (numberOr rawReps 10) as [?|reps'] eqn:Hr'; simpl; [discriminate|].
  intros H; inversion H; subst; clear H.
  apply getProp_inr in Hs, Hr. subst.
  split; simpl.
  - rewrite lookup_insert_ne by discriminate. rewrite lookup_insert_eq. simpl.
    now apply numberOr_fixed.
  - rewrite lookup_insert_eq. simpl. now apply numberOr_fixed.
Qed.

Lemma validateExercise_fixed exercise exercise' :
  validateExercise exercise = inr exercise' ->
  Forall2 fixedRoutine (routinesOfExercise exercise) (routinesOfExercise exercise').
Proof.
  unfold validateExercise.
  destruct (getProp exercise "routines") as [?|routines0] eqn:Hr; simpl; [discriminate|].
  destruct (arrayMap routines0 validateRoutine) as [?|routines1] eqn:Hm; simpl; [discriminate|].
  intros H; inversion H; subst; clear H.
  apply getProp_inr in Hr.
  apply arrayMap_inr in Hm as (rs & rs' & Hrs & Hrs' & Hmap).
  rewrite Hrs in Hr. rewrite Hrs'. clear Hrs Hrs'.
  unfold routinesOfExercise. rewrite <- Hr. simpl. rewrite lookup_insert_eq. simpl.
  eapply mapF_Forall2; [|exact Hmap]. apply validateRoutine_fixed.
Qed.

Lemma Forall2_concat {A B : Type} (R : A -> B -> Prop) xss yss :
  Forall2 (Forall2 R) xss yss -> Forall2 R (List.concat xss) (List.concat yss).
Proof.
  induction 1; simpl; [constructor|]. now apply Forall2_app.
Qed.

Lemma Forall2_map_both {A B C D : Type} (R : C -> D -> Prop) (f : A -> C) (g : B -> D) xs ys :
  Forall2 (fun x y => R (f x) (g y)) xs ys -> Forall2 R (map f xs) (map g ys).
Proof. induction 1; simpl; constructor; auto. Qed.

Lemma validateWorkoutPlan_routines plan plan' :
  validateWorkoutPlan plan = inr plan' ->
  Forall2 fixedRoutine (routinesOf plan) (routinesOf plan').
Proof.
  intros Hv. unfold validateWorkoutPlan in Hv.
  destruct (getProp plan "exercises") as [?|exercises0] eqn:He; simpl in Hv; [discriminate|].
  apply getProp_inr in He.
  destruct (truthy exercises0) eqn:Ht.
  - destruct (arrayMap exercises0 validateExercise) as [?|exercises1] eqn:Hm;
      simpl in Hv; [discriminate|].
    apply arrayMap_inr in Hm as (exs & exs' & Hexs & Hexs' & Hmap).
    rewrite Hexs in He. rewrite Hexs' in Hv. clear Hexs Hexs' Ht.
    destruct plan as [| | | | | |fields]; simpl in He; try discriminate.
    inversion Hv; subst; clear Hv.
    unfold routinesOf. simpl. rewrite <- He, lookup_insert_eq. simpl.
    apply Forall2_concat, Forall2_map_both.
    eapply mapF_Forall2; [|exact Hmap]. apply validateExercise_fixed.
  - inversion Hv; subst; clear Hv.
    unfold routinesOf.
    destruct (getPropOpt plan' "exercises"); try constructor. discriminate.
Qed.

Lemma fixedRoutine_complete rs rs' :
  Forall2 fixedRoutine rs rs' -> Forall completeRoutine rs'.
Proof.
  induction 1 as [|r r' rs rs' [Hs Hr] _ IH]; constructor; [|exact IH].
  split; [inversion Hs | inversion Hr]; reflexivity.
Qed.

(** C7 (as amended). For every workout plan that validation accepts, each
    routine of the result has numeric sets and reps obtained from the
    routine it comes from as follows: a value that is already a number is
    kept unchanged, whatever it is; any other value is replaced by the
    integer [parseInt] reads from it when that is not 0, and by the default
    (3 for sets, 10 for reps) when [parseInt] yields NaN or 0.  So
    reps "As many as possible" becomes 10 while sets 4 stays 4. *)
Theorem validateWorkoutPlan_fixes_sets_and_reps (plan plan' : JsValue) :
  validateWorkoutPlan plan = inr plan' ->
  Forall2 fixedRoutine (routinesOf plan) (routinesOf plan') /\
  Forall completeRoutine (routinesOf plan') /\
  validateRoutine pullUps =
    inr (JObj (<["reps" := JNum (numOfZ 10)]>
               (<["sets" := JNum (numOfZ 4)]> {["name" := JStr "Pull-ups"]}))).
Proof.
  intros Hv. pose proof (validateWorkoutPlan_routines _ _ Hv) as H2.
  split; [exact H2|]. split; [|vm_compute; reflexivity].
  eapply fixedRoutine_complete, H2.
Qed.

Lemma validateWorkoutPlan_fixes_sets_and_reps_witness :
  JSON_parse zeroSetsPlanText = inr zeroSetsPlan /\
  validateWorkoutPlan zeroSetsPlan = inr zeroSetsPlanFixed /\
  Forall2 fixedRoutine (routinesOf zeroSetsPlan) (routinesOf zeroSetsPlanFixed) /\
  Forall completeRoutine (routinesOf zeroSetsPlanFixed).
Proof.
  split; [vm_compute; reflexivity|].
  split; [vm_compute; reflexivity|].
  destruct (validateWorkoutPlan_fixes_sets_and_reps zeroSetsPlan zeroSetsPlanFixed)
    as (H1 & H2 & _).
  - vm_compute. reflexivity.
  - split; assumption.
Defined.

(** Counterexample to C7 as stated: a routine with [sets: 0] keeps 0 sets,
    which is not an integer of at least 1. *)
Lemma validateWorkoutPlan_keeps_zero_sets :
  exists plan',
    parseWorkoutPlan zeroSetsPlanText = inr plan' /\
    map (fun r => (getPropOpt r "sets", getPropOpt r "reps")) (routinesOf plan') =
      [(JNum (numOfZ 0), JNum (numOfZ 10))] /\
    Exists (fun r => isIntegerAtLeast1 (getPropOpt r "sets") = false) (routinesOf plan').
Proof.
  eexists. split; [vm_compute; reflexivity|].
  split; [vm_compute; reflexivity|].
  apply Exists_cons_hd. vm_compute. reflexivity.
Qed.

(** ** Totality on the expected JSON *)

Lemma foodAnalysisOf_not_nullish v :
  nullish v = false -> exists r, foodAnalysisOf v = inr r /\ completeFood r.
Proof.
  intros Hv.
  assert (Hget : forall prop, getProp v prop = inr (getPropOpt v prop)).
  { intros prop. destruct v; try discriminate; reflexivity. }
  unfold foodAnalysisOf. rewrite !Hget. cbn [fbind].
  eexists. split; [reflexivity|].
  unfold completeFood; cbn [foodName calories servingSize confidence description
                            nutritionalInfo protein carbs fat fiber].
  repeat split; apply jsOr_not_nullish; reflexivity.
Qed.

Lemma toStringJs_scalar v : scalar v = true -> exists s, toStringJs v = inr s.
Proof. destruct v; simpl; try discriminate; eauto. Qed.

Lemma numberOr_scalar v d : scalar v = true -> exists n, numberOr v d = inr (JNum n).
Proof.
  intros Hs. destruct (isNumber v) eqn:Hn.
  - destruct v; try discriminate. simpl. eauto.
  - destruct (toStringJs_scalar v Hs) as (str & Hstr).
    assert (H : exists n, parseIntOr v d = inr (JNum n)).
    { unfold parseIntOr, parseInt. rewrite Hstr. cbn [fbind].
      destruct (parseIntString str) as [z|]; [destruct (z =? 0)|]; eauto. }
    destruct v; try discriminate; exact H.
Qed.

Lemma validateRoutine_total routine :
  expectedRoutine routine -> exists routine', validateRoutine routine = inr routine'.
Proof.
  intros (fields & -> & Hs & Hr). unfold validateRoutine. cbn [getProp fbind].
  destruct (numberOr_scalar _ 3 Hs) as (s & ->).
  destruct (numberOr_scalar _ 10 Hr) as (r & ->).
  cbn [fbind]. eauto.
Qed.

Lemma validateExercise_total exercise :
  expectedExercise exercise -> exists exercise', validateExercise exercise = inr exercise'.
Proof.
  intros (fields & rs & -> & Hrs & Hall). unfold validateExercise. cbn [getProp fbind].
  rewrite Hrs. cbn [default from_option id arrayMap].
  destruct (mapF_total validateRoutine expectedRoutine (fun _ => True) rs) as (rs' & -> & _);
    [|exact Hall|cbn [fbind]; eauto].
  intros r Hr. destruct (validateRoutine_total r Hr) as (r' & ->). eauto.
Qed.

Lemma validateWorkoutPlan_total plan :
  expectedWorkout plan ->
  exists plan', validateWorkoutPlan plan = inr plan' /\
    Forall completeRoutine (routinesOf plan').
Proof.
  intros Hexp.
  assert (H : exists plan', validateWorkoutPlan plan = inr plan').
  { destruct Hexp as (fields & -> & [Hnone | (exs & Hexs & Hall)]);
      unfold validateWorkoutPlan; cbn [getProp fbind].
    - rewrite Hnone. simpl. eauto.
    - rewrite Hexs. cbn [default from_option id truthy arrayMap].
      destruct (mapF_total validateExercise expectedExercise (fun _ => True) exs)
        as (exs' & -> & _); [|exact Hall|cbn [fbind]; eauto].
      intros e He. destruct (validateExercise_total e He) as (e' & ->). eauto. }
  destruct H as (plan' & Hv). exists plan'. split; [exact Hv|].
  eapply fixedRoutine_complete, validateWorkoutPlan_routines, Hv.
Qed.

Lemma validateMeal_total meal :
  expectedMeal meal -> exists meal', validateMeal meal = inr meal' /\ completeMeal meal'.
Proof.
  intros (fields & n & fs & -> & Hn & Hf). unfold validateMeal. cbn [getProp fbind].
  rewrite Hn, Hf. cbn [default from_option id]. eexists. split; [reflexivity|]. now exists n, fs.
Qed.

Lemma validateDietPlan_total plan :
  expectedDiet plan ->
  exists plan', validateDietPlan plan = inr plan' /\ completeDiet plan'.
Proof.
  intros (fields & ms & -> & Hc & Hms & Hall). unfold validateDietPlan. cbn [getProp fbind].
  destruct (numberOr_scalar _ 2000 Hc) as (c & ->). cbn [fbind].
  rewrite Hms. cbn [default from_option id arrayMap].
  destruct (mapF_total validateMeal expectedMeal completeMeal ms) as (ms' & -> & Hms');
    [apply validateMeal_total|exact Hall|].
  cbn [fbind]. eexists. split; [reflexivity|]. now exists c, ms'.
Qed.

Lemma validateRoutine_given routine :
  givenRoutine routine ->
  exists routine', validateRoutine routine = inr routine' /\ namedRoutine routine'.
Proof.
  intros (fields & -> & Hname & Hs & Hr). unfold validateRoutine. cbn [getProp fbind].
  destruct (numberOr_scalar _ 3 Hs) as (s & ->).
  destruct (numberOr_scalar _ 10 Hr) as (r & ->).
  cbn [fbind spread]. eexists. split; [reflexivity|].
  eexists _, s, r. split; [reflexivity|]. split; [|split].
  - now rewrite !lookup_insert_ne by discriminate.
  - rewrite lookup_insert_ne by discriminate. apply lookup_insert_eq.
  - apply lookup_insert_eq.
Qed.

Lemma validateExercise_given exercise :
  givenExercise exercise ->
  exists exercise', validateExercise exercise = inr exercise' /\ completeExercise exercise'.
Proof.
  intros (fields & rs & -> & Hday & Hrs & Hall). unfold validateExercise. cbn [getProp fbind].
  rewrite Hrs. cbn [default from_option id arrayMap].
  destruct (mapF_total validateRoutine givenRoutine namedRoutine rs) as (rs' & -> & Hrs');
    [apply validateRoutine_given|exact Hall|].
  cbn [fbind spread]. eexists. split; [reflexivity|].
  eexists _, rs'. split; [reflexivity|]. split; [|split; [apply lookup_insert_eq|exact Hrs']].
  now rewrite lookup_insert_ne by discriminate.
Qed.

Lemma validateWorkoutPlan_given plan :
  givenWorkout plan ->
  exists plan', validateWorkoutPlan plan = inr plan' /\ completeWorkout plan'.
Proof.
  intros (fields & exs & -> & Hsched & Hexs & Hall). unfold validateWorkoutPlan.
  cbn [getProp fbind]. rewrite Hexs. cbn [default from_option id truthy arrayMap].
  destruct (mapF_total validateExercise givenExercise completeExercise exs)
    as (exs' & -> & Hexs'); [apply validateExercise_given|exact Hall|].
  cbn [fbind]. eexists. split; [reflexivity|].
  eexists _, exs'. split; [reflexivity|]. split; [|split; [apply lookup_insert_eq|exact Hexs']].
  now rewrite lookup_insert_ne by discriminate.
Qed.

(** C3 (as amended).  On text that is not JSON the normaliser does not
    return a value: it raises the syntax error of [JSON.parse].  On JSON
    of the expected kind it returns a value.  For a food analysis, text
    that after removal of the code fence parses to any value other than
    null gives a result with every field populated.  For a diet plan, an
    object with an array of meal objects that have name and foods, and
    with a dailyCalories that is absent or a scalar, gives an object with
    exactly a numeric dailyCalories and meals with exactly name and
    foods.  For a workout plan, an object whose exercises, when given,
    are an array of objects with arrays of routine objects whose sets and
    reps are absent or scalars gives a plan whose routines all have
    numeric sets and reps; fields other than sets and reps are not
    supplied, so the plan has its schedule, its days and the names of its
    routines when the JSON had them, and only then: the empty object is
    returned as it is. *)
Theorem normaliser_total_on_expected_json :
  (forall text v, JSON_parse (stripCodeFence text) = inr v -> nullish v = false ->
     exists r, parseFoodResponse text = inr r /\ completeFood r) /\
  (forall text plan, JSON_parse text = inr plan -> expectedWorkout plan ->
     exists plan', parseWorkoutPlan text = inr plan' /\
       Forall completeRoutine (routinesOf plan')) /\
  (forall text plan, JSON_parse text = inr plan -> givenWorkout plan ->
     exists plan', parseWorkoutPlan text = inr plan' /\ completeWorkout plan') /\
  (parseWorkoutPlan "{}" = inr (JObj ∅) /\ ~ completeWorkout (JObj ∅)) /\
  (forall text plan, JSON_parse text = inr plan -> expectedDiet plan ->
     exists plan', parseDietPlan text = inr plan' /\ completeDiet plan') /\
  (forall text fault, JSON_parse (stripCodeFence text) = inl fault ->
     parseFoodResponse text = inl fault) /\
  (forall text fault, JSON_parse text = inl fault ->
     parseWorkoutPlan text = inl fault /\ parseDietPlan text = inl fault).
Proof.
  split; [|split; [|split; [|split; [|split; [|split]]]]].
  - intros text v Hp Hv. unfold parseFoodResponse. rewrite Hp. cbn [fbind].
    now apply foodAnalysisOf_not_nullish.
  - intros text plan Hp Hexp. unfold parseWorkoutPlan. rewrite Hp. cbn [fbind].
    now apply validateWorkoutPlan_total.
  - intros text plan Hp Hexp. unfold parseWorkoutPlan. rewrite Hp. cbn [fbind].
    now apply validateWorkoutPlan_given.
  - split; [vm_compute; reflexivity|].
    intros (fields & exs & [= <-] & [x Hx] & _). rewrite lookup_empty in Hx. discriminate.
  - intros text plan Hp Hexp. unfold parseDietPlan. rewrite Hp. cbn [fbind].
    now apply validateDietPlan_total.
  - intros text fault Hp. unfold parseFoodResponse. now rewrite Hp.
  - intros text fault Hp. unfold parseWorkoutPlan, parseDietPlan. now rewrite Hp.
Qed.

Lemma normaliser_total_on_expected_json_witness :
  (exists r, parseFoodResponse appleResponse = inr r /\ completeFood r) /\
  (exists plan', parseWorkoutPlan zeroSetsPlanText = inr plan' /\
     Forall completeRoutine (routinesOf plan')) /\
  (exists plan', parseWorkoutPlan zeroSetsPlanText = inr plan' /\ completeWorkout plan') /\
  (exists plan', parseDietPlan dietText = inr plan' /\ completeDiet plan') /\
  parseFoodResponse proseResponse = inl (SyntaxError proseResponse).
Proof.
  destruct normaliser_total_on_expected_json
    as (Hfood & Hworkout & Hgiven & _ & Hdiet & Hbad & _).
  split; [|split; [|split; [|split]]].
  - apply (Hfood appleResponse
             (JObj (<["calories" := JNum (numOfZ 95)]> {["foodName" := JStr "Apple"]})));
      vm_compute; reflexivity.
  - apply (Hworkout zeroSetsPlanText zeroSetsPlan); [vm_compute; reflexivity|].
    eexists. split; [reflexivity|]. right. eexists. split; [vm_compute; reflexivity|].
    repeat constructor. eexists _, _. split; [reflexivity|].
    split; [vm_compute; reflexivity|].
    repeat constructor. eexists. split; [reflexivity|]. split; vm_compute; reflexivity.
  - apply (Hgiven zeroSetsPlanText zeroSetsPlan); [vm_compute; reflexivity|].
    eexists _, _. split; [reflexivity|]. split; [eexists; vm_compute; reflexivity|].
    split; [vm_compute; reflexivity|].
    repeat constructor. eexists _, _. split; [reflexivity|].
    split; [eexists; vm_compute; reflexivity|]. split; [vm_compute; reflexivity|].
    repeat constructor. eexists. split; [reflexivity|].
    split; [eexists; vm_compute; reflexivity|]. split; vm_compute; reflexivity.
  - apply (Hdiet dietText dietPlanParsed); [vm_compute; reflexivity|].
    eexists _, _. split; [reflexivity|]. split; [vm_compute; reflexivity|].
    split; [vm_compute; reflexivity|].
    repeat constructor. eexists _, _, _. split; [reflexivity|].
    split; vm_compute; reflexivity.
  - apply Hbad. vm_compute. reflexivity.
Defined.

(** Counterexample to C3 as stated: on a refusal in prose the normaliser
    raises a syntax error and returns no value. *)
Lemma normaliser_raises_on_prose :
  parseFoodResponse proseResponse = inl (SyntaxError proseResponse) /\
  ~ exists r, parseFoodResponse proseResponse = inr r.
Proof.
  assert (H : parseFoodResponse proseResponse = inl (SyntaxError proseResponse))
    by (vm_compute; reflexivity).
  split; [exact H|]. intros (r & Hr). rewrite H in Hr. discriminate.
Qed.

(** ** The active plan *)

(** The patch loop of [createPlan] deactivates exactly the documents whose
    id is the id of one of the collected plans. *)
Lemma patch_loop_plans (l : list Plan) (db : Db) :
  plans (foldl (fun db plan => patchInactive (planId plan) db) db l) =
  map (fun p => if decide (planId p ∈ map planId l) then deactivate p else p) (plans db).
Proof.
  revert db. induction l as [|a l IH]; intros db; simpl.
  - rewrite <- (map_id (plans db)) at 1. apply map_ext. intros p.
    destruct (decide (planId p ∈ [])) as [H|_]; [inversion H|reflexivity].
  - rewrite IH. simpl. rewrite map_map. apply map_ext. intros p.
    destruct (decide (planId p = planId a)) as [Heq|Hne].
    + destruct (decide (planId (deactivate p) ∈ map planId l));
        destruct (decide (planId p ∈ planId a :: map planId l)) as [_|Hn];
        try reflexivity; exfalso; apply Hn; rewrite Heq; left.
    + destruct (decide (planId p ∈ map planId l)) as [Hin|Hnin];
        destruct (decide (planId p ∈ planId a :: map planId l)) as [Hin'|Hnin'];
        try reflexivity; exfalso.
      * apply Hnin'. now right.
      * apply Hnin. inversion Hin'; subst; [contradiction|assumption].
Qed.

Lemma patch_loop_rest (l : list Plan) (db : Db) :
  chatMessages (foldl (fun db plan => patchInactive (planId plan) db) db l) = chatMessages db /\
  nextId (foldl (fun db plan => patchInactive (planId plan) db) db l) = nextId db.
Proof.
  revert db. induction l as [|a l IH]; intros db; simpl; [auto|].
  destruct (IH (patchInactive (planId a) db)) as [-> ->]. auto.
Qed.

(** One call: the new document is appended with the id that is returned,
    and no document before it is an active plan of the owner any more. *)
Lemma createPlan_step (args : PlanArgs) (db : Db) :
  exists older,
    createPlan args db =
      (nextId db, mkDb (chatMessages db) (older ++ [mkPlan (nextId db) args]) (S (nextId db))) /\
    Forall2 (fun p p' => p' = p \/ p' = deactivate p) (plans db) older /\
    Forall (fun p => isActivePlanOf (userId args) p = false) older.
Proof.
  unfold createPlan, insertPlan.
  set (l := activePlansOf (userId args) db).
  destruct (patch_loop_rest l db) as [-> ->].
  rewrite patch_loop_plans.
  eexists. split; [reflexivity|]. split.
  - apply Forall2_fmap_r, Forall_Forall2_diag, Forall_forall. intros p _.
    unfold compose. destruct (decide (planId p ∈ map planId l)); auto.
  - apply Forall_fmap, Forall_forall. intros p Hp. unfold compose.
    destruct (decide (planId p ∈ map planId l)) as [_|Hnin].
    + unfold isActivePlanOf, deactivate. simpl. apply andb_false_r.
    + destruct (isActivePlanOf (userId args) p) eqn:Hact; [|reflexivity].
      exfalso. apply Hnin. apply list_elem_of_fmap. exists p. split; [reflexivity|].
      apply list_elem_of_In, filter_In. split; [now apply list_elem_of_In|exact Hact].
Qed.

Lemma activePlansOf_after_insert owner older p :
  Forall (fun q => isActivePlanOf owner q = false) older ->
  isActivePlanOf owner p = true ->
  List.filter (isActivePlanOf owner) (older ++ [p]) = [p].
Proof.
  intros Hold Hp. rewrite List.filter_app. simpl. rewrite Hp.
  replace (List.filter (isActivePlanOf owner) older) with (@nil Plan); [reflexivity|].
  symmetry. induction Hold as [|q older Hq _ IH]; simpl; [reflexivity|].
  now rewrite Hq.
Qed.

(** C4. After one or more [createPlan] calls in a row for one owner, each
    with [isActive = true] and starting from any database, the table ends
    with the plan created by the last call, under the id that call
    returned; that plan is active, no document before it is an active plan
    of the owner, and so the active plans of the owner are exactly that
    one.  Each single call leaves every earlier document as it was or with
    [isActive] set to false, none of them an active plan of the caller's
    owner, and appends the new plan after them. *)
Theorem createPlan_leaves_one_active_plan (owner : string) (calls : list PlanArgs) (db : Db) :
  calls <> [] ->
  Forall (fun args => userId args = owner /\ isActive args = true) calls ->
  exists ids db' older id args,
    createPlans calls db = (ids, db') /\
    List.length ids = List.length calls /\
    last ids = Some id /\ last calls = Some args /\
    plans db' = (older ++ [mkPlan id args])%list /\
    Forall (fun p => isActivePlanOf owner p = false) older /\
    activePlansOf owner db' = [mkPlan id args] /\
    (forall args0 db0, exists older0,
       createPlan args0 db0 =
         (nextId db0, mkDb (chatMessages db0) (older0 ++ [mkPlan (nextId db0) args0])
                           (S (nextId db0))) /\
       Forall2 (fun p p' => p' = p \/ p' = deactivate p) (plans db0) older0 /\
       Forall (fun p => isActivePlanOf (userId args0) p = false) older0).
Proof.
  intros Hne Hall.
  cut (exists ids db' older id args,
         createPlans calls db = (ids, db') /\
         List.length ids = List.length calls /\
         last ids = Some id /\ last calls = Some args /\
         plans db' = (older ++ [mkPlan id args])%list /\
         Forall (fun p => isActivePlanOf owner p = false) older /\
         activePlansOf owner db' = [mkPlan id args]).
  { intros (ids & db' & older & id & args & H1 & H2 & H3 & H4 & H5 & H6 & H7).
    exists ids, db', older, id, args. repeat (split; [assumption|]).
    apply createPlan_step. }
  revert db.
  induction calls as [|a calls IH]; [contradiction|]; intros db.
  inversion Hall as [|? ? [Hown Hact] Hall']; subst.
  destruct (createPlan_step a db) as (older & Hstep & _ & Hold).
  cbn [createPlans]. rewrite Hstep.
  destruct calls as [|b calls].
  - simpl. eexists [nextId db], _, older, (nextId db), a.
    repeat split; try reflexivity; [exact Hold|].
    unfold activePlansOf. simpl. apply activePlansOf_after_insert; [exact Hold|].
    unfold isActivePlanOf. simpl. rewrite Hact, bool_decide_eq_true_2; reflexivity.
  - destruct (IH ltac:(discriminate) Hall' (mkDb (chatMessages db)
                 (older ++ [mkPlan (nextId db) a]) (S (nextId db))))
      as (ids & db' & older' & id & args & Hrun & Hlen & Hid & Hargs & Hplans & Hold' & Hactive).
    rewrite Hrun. exists (nextId db :: ids), db', older', id, args.
    repeat split; try assumption.
    + simpl. now rewrite Hlen.
    + destruct ids as [|i ids]; [discriminate|exact Hid].
Qed.

Lemma createPlan_leaves_one_active_plan_witness :
  exists ids db' older id args,
    createPlans threeCalls crowdedDb = (ids, db') /\
    List.length ids = List.length threeCalls /\
    last ids = Some id /\ last threeCalls = Some args /\
    plans db' = (older ++ [mkPlan id args])%list /\
    Forall (fun p => isActivePlanOf "alice" p = false) older /\
    activePlansOf "alice" db' = [mkPlan id args].
Proof.
  destruct (createPlan_leaves_one_active_plan "alice" threeCalls crowdedDb)
    as (ids & db' & older & id & args & H1 & H2 & H3 & H4 & H5 & H6 & H7 & _).
  - discriminate.
  - repeat constructor.
  - exists ids, db', older, id, args. repeat (split; [assumption|]). assumption.
Defined.

Example createPlan_three_calls :
  let '(ids, db') := createPlans threeCalls crowdedDb in
  ids = [3; 4; 5]%nat /\
  activePlansOf "alice" db' = [mkPlan 5 (planFor "alice" "third")] /\
  activePlansOf "bob" db' = [mkPlan 1 (planFor "bob" "his")] /\
  map planId (plans db') = [0; 1; 2; 3; 4; 5]%nat.
Proof. vm_compute. repeat split. Qed.

(** ** Network calls of the actions *)

Lemma appends_refl P w : appends P w w.
Proof. exists []. split; [now rewrite app_nil_r|constructor]. Qed.

Lemma appends_trans P w1 w2 w3 : appends P w1 w2 -> appends P w2 w3 -> appends P w1 w3.
Proof.
  intros (s1 & H1 & F1) (s2 & H2 & F2). exists (s1 ++ s2)%list.
  split; [now rewrite H2, H1, app_assoc|now apply Forall_app].
Qed.

Lemma appends_same_requests P w w' : requests w' = requests w -> appends P w w'.
Proof. intros H. exists []. split; [now rewrite app_nil_r|constructor]. Qed.

Lemma appending_ret {A} P (a : A) : appending P (ret a).
Proof. intros w. apply appends_refl. Qed.

Lemma appending_throw {A} P e : appending P (@throw A e).
Proof. intros w. apply appends_refl. Qed.

Lemma appending_bind {A B} P (m : Action A) (k : A -> Action B) :
  appending P m -> (forall a, appending P (k a)) -> appending P (bind m k).
Proof.
  intros Hm Hk w. unfold bind. specialize (Hm w).
  destruct (m w) as [[a|e] w']; simpl in *; [|exact Hm].
  eapply appends_trans; [exact Hm|apply Hk].
Qed.

Lemma appending_tryCatch {A} P (body : Action A) handler :
  appending P body -> (forall e, appending P (handler e)) ->
  appending P (tryCatch body handler).
Proof.
  intros Hb Hh w. unfold tryCatch. specialize (Hb w).
  destruct (body w) as [[a|e] w']; simpl in *; [exact Hb|].
  eapply appends_trans; [exact Hb|apply Hh].
Qed.

Lemma appending_liftF {A} P (m : Fallible A) : appending P (liftF m).
Proof. intros w. unfold liftF. destruct m; apply appends_refl. Qed.

Lemma appending_responseText P response : appending P (responseText response).
Proof. intros w. apply appends_refl. Qed.

Lemma appending_send (P : Request -> Prop) req : P req -> appending P (send req).
Proof.
  intros HP w. exists [req]. split; [reflexivity|]. now constructor.
Qed.

Lemma appending_generateContent {A} P (primary fallback : Action A) :
  appending P primary -> appending P fallback ->
  appending P (generateContent primary fallback).
Proof.
  intros Hp Hf w. unfold generateContent. specialize (Hp w).
  destruct (primary w) as [[a|e] w']; simpl in *; [exact Hp|].
  destruct (_ || _); [|exact Hp].
  eapply appends_trans; [exact Hp|apply Hf].
Qed.

Lemma appending_retryLoop {A} P (fn : Action A) maxRetries initialDelay :
  appending P fn ->
  forall remaining i lastError w,
    appends P w (retryLoop fn maxRetries initialDelay remaining i lastError w).1.2.
Proof.
  intros Hfn. induction remaining as [|n IH]; intros i lastError w; simpl.
  - apply appends_refl.
  - specialize (Hfn w). destruct (fn w) as [[a|e] w']; simpl in *; [exact Hfn|].
    destruct (_ && _); [|exact Hfn].
    specialize (IH (i + 1) (Some e) w').
    destruct (retryLoop fn maxRetries initialDelay n (i + 1) (Some e) w') as [[r w''] tr].
    simpl in *. eapply appends_trans; eassumption.
Qed.

Lemma appending_retrying {A} P (fn : Action A) maxRetries initialDelay :
  appending P fn -> appending P (retrying fn maxRetries initialDelay).
Proof.
  intros Hfn w. unfold retrying, retryWithBackoff.
  pose proof (appending_retryLoop P fn maxRetries initialDelay Hfn
                (Z.to_nat maxRetries) 0 None w) as H.
  destruct (retryLoop fn maxRetries initialDelay (Z.to_nat maxRetries) 0 None w)
    as [[r w'] tr].
  simpl in *. exact H.
Qed.

Lemma appending_runAddMessage P owner r text : appending P (runAddMessage owner r text).
Proof. intros w. apply appends_same_requests. reflexivity. Qed.

Lemma appending_runGetMessages P owner : appending P (runGetMessages owner).
Proof. intros w. apply appends_refl. Qed.

Lemma appending_runCreatePlan P owner dietPlan active workoutPlan planName :
  appending P (runCreatePlan owner dietPlan active workoutPlan planName).
Proof.
  intros w. unfold runCreatePlan.
  destruct (asWorkoutPlan workoutPlan), (asDietPlan dietPlan);
    apply appends_same_requests; reflexivity.
Qed.

(** The first thing [send req] followed by anything does is the network
    call [req]. *)
Lemma bind_send_first {A} P req (k : Response -> Action A) w :
  (forall a, appending P (k a)) ->
  appends P (withRequests w (requests w ++ [req])) (bind (send req) k w).2.
Proof.
  intros Hk. unfold bind, send.
  destruct (provider w (List.length (requests w)) req) as [a|e]; simpl.
  - apply Hk.
  - apply appends_refl.
Qed.

Lemma retryLoop_first {A} P (fn : Action A) maxRetries initialDelay w w1 :
  appending P fn -> appends P w1 (fn w).2 ->
  forall n i lastError,
    appends P w1 (retryLoop fn maxRetries initialDelay (S n) i lastError w).1.2.
Proof.
  intros Hfn H1 n i lastError. simpl.
  destruct (fn w) as [[a|e] w']; simpl in *; [exact H1|].
  destruct (_ && _); [|exact H1].
  pose proof (appending_retryLoop P fn maxRetries initialDelay Hfn n (i + 1) (Some e) w') as H.
  destruct (retryLoop fn maxRetries initialDelay n (i + 1) (Some e) w') as [[r w''] tr].
  simpl in *. eapply appends_trans; eassumption.
Qed.

Lemma generateContent_first {A} P req (k : Response -> Action A) (fallback : Action A) w :
  (forall a, appending P (k a)) -> appending P fallback ->
  appends P (withRequests w (requests w ++ [req]))
    (generateContent (bind (send req) k) fallback w).2.
Proof.
  intros Hk Hf. unfold generateContent.
  pose proof (bind_send_first P req k w Hk) as H.
  destruct (bind (send req) k w) as [[a|e] w']; simpl in *; [exact H|].
  destruct (_ || _); [|exact H].
  eapply appends_trans; [exact H|apply Hf].
Qed.

(** ** The conversation window *)

Lemma slice_window {A : Type} (prior : list A) (newest : A) :
  slice (-11) (-1) (prior ++ [newest]) = drop (List.length prior - 10) prior.
Proof.
  unfold slice. rewrite length_app. simpl List.length.
  change (-11 <? 0) with true. change (-1 <? 0) with true. cbv iota.
  set (n := List.length prior).
  replace (Z.to_nat (Z.max (Z.of_nat (n + 1) + -11) 0)) with (n - 10)%nat by lia.
  replace (Z.to_nat (Z.max (Z.of_nat (n + 1) + -1) 0 - Z.max (Z.of_nat (n + 1) + -11) 0))
    with (n - (n - 10))%nat by lia.
  rewrite drop_app_le by (fold n; lia).
  rewrite take_app_le by (rewrite length_drop; fold n; lia).
  apply take_ge. rewrite length_drop. fold n. lia.
Qed.

Lemma getMessages_addMessage owner r text now db :
  getMessages owner (addMessage owner r text now db).2 =
  (getMessages owner db ++ [mkChatMessage (nextId db) owner r text now])%list.
Proof.
  unfold getMessages, addMessage. simpl. rewrite List.filter_app. simpl.
  now rewrite bool_decide_eq_true_2.
Qed.

Lemma appends_bind {A B} P w0 (m : Action A) (k : A -> Action B) w :
  appends P w0 (m w).2 -> (forall a, appending P (k a)) ->
  appends P w0 (bind m k w).2.
Proof.
  intros Hm Hk. unfold bind.
  destruct (m w) as [[a|e] w']; simpl in *; [|exact Hm].
  eapply appends_trans; [exact Hm|apply Hk].
Qed.

Lemma appends_tryCatch {A} P w0 (body : Action A) handler w :
  appends P w0 (body w).2 -> (forall e, appending P (handler e)) ->
  appends P w0 (tryCatch body handler w).2.
Proof.
  intros Hb Hh. unfold tryCatch.
  destruct (body w) as [[a|e] w']; simpl in *; [exact Hb|].
  eapply appends_trans; [exact Hb|apply Hh].
Qed.

Lemma retrying_first {A} P (fn : Action A) maxRetries initialDelay w w1 :
  0 < maxRetries -> appending P fn -> appends P w1 (fn w).2 ->
  appends P w1 (retrying fn maxRetries initialDelay w).2.
Proof.
  intros Hmax Hfn H1. unfold retrying, retryWithBackoff.
  destruct (Z.to_nat maxRetries) as [|n] eqn:Hn; [lia|].
  pose proof (retryLoop_first P fn maxRetries initialDelay w w1 Hfn H1 n 0 None) as H.
  destruct (retryLoop fn maxRetries initialDelay (S n) 0 None w) as [[r w'] tr].
  simpl in *. exact H.
Qed.

Lemma appending_generateResponseCatch {A} P e : appending P (@generateResponseCatch A e).
Proof.
  unfold generateResponseCatch.
  repeat (destruct (_ || _); [apply appending_throw|]). apply appending_throw.
Qed.

Lemma appends_first P w req w' :
  appends P (withRequests w (requests w ++ [req])) w' ->
  exists later, requests w' = (requests w ++ req :: later)%list /\ Forall P later.
Proof.
  intros (sent & Hreq & Hall). exists sent. split; [|exact Hall].
  rewrite Hreq. simpl. now rewrite <- app_assoc.
Qed.

Lemma db_withDb w d : db (withDb w d) = d.
Proof. reflexivity. Qed.

Lemma sends_refl P w : sends P 0 0 w w.
Proof.
  exists []. split; [|split; [constructor|simpl; lia]].
  rewrite app_nil_r. now destruct w.
Qed.

Lemma sends_trans P a b c d w1 w2 w3 :
  sends P a b w1 w2 -> sends P c d w2 w3 -> sends P (a + c) (b + d) w1 w3.
Proof.
  intros (s1 & -> & F1 & L1) (s2 & -> & F2 & L2). exists (s1 ++ s2)%list.
  split; [|split; [now apply Forall_app|rewrite length_app; lia]].
  unfold withRequests. simpl. now rewrite app_assoc.
Qed.

Lemma sends_weaken P a b a' b' w w' :
  sends P a b w w' -> (a' <= a)%nat -> (b <= b')%nat -> sends P a' b' w w'.
Proof. intros (s & H & F & L) ? ?. exists s. repeat split; auto; lia. Qed.

Lemma generateResponseCatch_message {A} (e : Thrown) w :
  exists message,
    @generateResponseCatch A e w = (Throw (newError message), w) /\
    generateResponseFailure (errorMessageOf e) message.
Proof.
  unfold generateResponseCatch, generateResponseFailure, throw.
  repeat (destruct (_ || _); [eexists; split; [reflexivity|tauto]|]).
  eexists; split; [reflexivity|tauto].
Qed.

(** ** The chat session *)

Lemma validateChatHistory_turns msgs :
  validateChatHistory true (map toContent msgs) = Ok tt.
Proof. induction msgs as [|m msgs IH]; [reflexivity|]. destruct m as [? ? [] ? ?]; exact IH. Qed.

(** The SDK accepts a window of stored turns that is empty or starts with
    a turn of the user, and rejects one that starts with a turn of the
    assistant. *)
Lemma validateChatHistory_window msgs :
  validateChatHistory false (map toContent msgs) =
  match msgs with
  | [] => Ok tt
  | m :: _ => match role m with user => Ok tt | assistant => Throw firstContentError end
  end.
Proof.
  destruct msgs as [|[? ? [] ? ?] msgs]; [reflexivity| |reflexivity].
  apply (validateChatHistory_turns msgs).
Qed.

Lemma head_window_user msgs :
  (forall c, head (map toContent msgs) = Some c -> contentRole c = "user") ->
  validateChatHistory false (map toContent msgs) = Ok tt.
Proof.
  intros H. rewrite validateChatHistory_window.
  destruct msgs as [|m msgs]; [reflexivity|].
  specialize (H _ eq_refl). destruct m as [? ? [] ? ?]; [reflexivity|discriminate].
Qed.

Lemma head_window_model msgs :
  (exists c, head (map toContent msgs) = Some c /\ contentRole c = "model") ->
  validateChatHistory false (map toContent msgs) = Throw firstContentError.
Proof.
  intros (c & Hc & Hrole). rewrite validateChatHistory_window.
  destruct msgs as [|m msgs]; [discriminate|].
  injection Hc as <-. destruct m as [? ? [] ? ?]; [discriminate|reflexivity].
Qed.

Section ChatRun.
Variables (models : list string) (window : list Content) (userMessage : string).

(** The array starts with the window, whatever was pushed onto it. *)
Let grown (s : ChatState) : Prop := exists pushed, s.2 = (window ++ pushed)%list.
Let P : Request -> Prop := chatCall models window userMessage.

Lemma chatRequest_rejected modelName w history error :
  validateChatHistory false history = Throw error ->
  chatRequest modelName userMessage (w, history) = (Throw error, (w, history)).
Proof. intros H. unfold chatRequest. now rewrite H. Qed.

Lemma chatRequest_accepted modelName w history :
  validateChatHistory false history = Ok tt ->
  exists r pushed,
    chatRequest modelName userMessage (w, history) =
      (r, (withRequests w (requests w ++ [mkRequest modelName (ChatTurn history userMessage)]),
           (history ++ pushed)%list)).
Proof.
  intros H. unfold chatRequest, send. rewrite H.
  destruct (provider w _ _) as [result|error].
  - destruct (candidate result) as [c|]; eexists _, _; [reflexivity|].
    now rewrite app_nil_r.
  - eexists _, []. now rewrite app_nil_r.
Qed.

Lemma chatRequest_step modelName s :
  In modelName models -> grown s ->
  sends P 0 1 s.1 (chatRequest modelName userMessage s).2.1 /\
  grown (chatRequest modelName userMessage s).2.
Proof.
  intros Hin (pushed & Hs). destruct s as [w history]. simpl in Hs. subst history.
  destruct (validateChatHistory false (window ++ pushed)) as [[]|error] eqn:Hv.
  - destruct (chatRequest_accepted modelName w _ Hv) as (r & pushed' & ->). simpl. split.
    + exists [mkRequest modelName (ChatTurn (window ++ pushed) userMessage)].
      split; [reflexivity|]. split; [|simpl; lia].
      constructor; [|constructor]. split; [exact Hin|now exists pushed].
    + exists (pushed ++ pushed')%list. unfold grown. simpl. now rewrite app_assoc.
  - rewrite (chatRequest_rejected modelName w _ _ Hv). simpl. split.
    + eapply sends_weaken; [apply sends_refl|lia|lia].
    + now exists pushed.
Qed.

Lemma generateContent_chat primaryModel fallbackModel s :
  In primaryModel models -> In fallbackModel models -> grown s ->
  let out := generateContent (chatRequest primaryModel userMessage)
                             (chatRequest fallbackModel userMessage) s in
  sends P 0 2 s.1 out.2.1 /\ grown out.2.
Proof.
  intros Hp Hf Hs. cbv zeta. unfold generateContent.
  destruct (chatRequest_step primaryModel s Hp Hs) as [H1 G1].
  destruct (chatRequest primaryModel userMessage s) as [[a|e] s1]; simpl in H1, G1.
  - simpl. split; [eapply sends_weaken; [exact H1|lia|lia]|exact G1].
  - destruct (_ || _).
    + destruct (chatRequest_step fallbackModel s1 Hf G1) as [H2 G2]. split; [|exact G2].
      eapply sends_weaken; [eapply sends_trans; [exact H1|exact H2]|lia|lia].
    + simpl. split; [eapply sends_weaken; [exact H1|lia|lia]|exact G1].
Qed.

Variable fn : ChatState -> Result string * ChatState.
Variables (maxRetries initialDelay : Z).
Hypothesis fn_step : forall s, grown s -> sends P 0 2 s.1 (fn s).2.1 /\ grown (fn s).2.

Lemma retryLoop_chat n :
  forall i lastError s, grown s ->
    sends P 0 (2 * n) s.1 (retryLoop fn maxRetries initialDelay n i lastError s).1.2.1.
Proof.
  induction n as [|n IH]; intros i lastError s Hs.
  - apply sends_refl.
  - simpl retryLoop. destruct (fn_step s Hs) as [H1 G1].
    destruct (fn s) as [[a|e] s1]; simpl in H1, G1.
    + simpl. eapply sends_weaken; [exact H1|lia|lia].
    + destruct (_ && _).
      * specialize (IH (i + 1) (Some e) s1 G1).
        destruct (retryLoop fn maxRetries initialDelay n (i + 1) (Some e) s1) as [[r s2] tr].
        simpl in *. eapply sends_weaken; [eapply sends_trans; eassumption|lia|lia].
      * simpl. eapply sends_weaken; [exact H1|lia|lia].
Qed.

(** After the first invocation at most [2 * n] further calls are made. *)
Lemma retryLoop_chat_rest n i lastError s :
  grown s ->
  sends P 0 (2 * n) (fn s).2.1
    (retryLoop fn maxRetries initialDelay (S n) i lastError s).1.2.1.
Proof.
  intros Hs. simpl retryLoop. destruct (fn_step s Hs) as [_ G1].
  destruct (fn s) as [[a|e] s1]; simpl in G1.
  - simpl. eapply sends_weaken; [apply sends_refl|lia|lia].
  - destruct (_ && _).
    + pose proof (retryLoop_chat n (i + 1) (Some e) s1 G1) as H.
      destruct (retryLoop fn maxRetries initialDelay n (i + 1) (Some e) s1) as [[r s2] tr].
      exact H.
    + simpl. eapply sends_weaken; [apply sends_refl|lia|lia].
Qed.

End ChatRun.

(** With a window the SDK accepts, the first thing the closure does is the
    call to the primary model with exactly the window. *)
Lemma generateContent_chat_first window userMessage w :
  validateChatHistory false window = Ok tt ->
  let out := generateContent (chatRequest "gemini-2.0-flash" userMessage)
                             (chatRequest "gemini-2.5-pro" userMessage) (w, window) in
  sends (chatCall ["gemini-2.0-flash"; "gemini-2.5-pro"] window userMessage) 0 1
    (withRequests w (requests w ++
       [mkRequest "gemini-2.0-flash" (ChatTurn window userMessage)])) out.2.1.
Proof.
  intros Hv. cbv zeta. unfold generateContent.
  destruct (chatRequest_accepted userMessage "gemini-2.0-flash" w window Hv)
    as (r & pushed & ->).
  destruct r as [a|e]; [eapply sends_weaken; [apply sends_refl|lia|lia]|].
  destruct (_ || _); [|eapply sends_weaken; [apply sends_refl|lia|lia]].
  refine (proj1 (chatRequest_step _ window userMessage "gemini-2.5-pro" (_, _) _ _)).
  - simpl. auto.
  - now exists pushed.
Qed.

(** The two runs of the retry loop of [generateResponse]: with a window
    the SDK accepts, and with a window it rejects. *)
Lemma retryingChat_requests window userMessage w :
  let out := retryingChat (generateContent (chatRequest "gemini-2.0-flash" userMessage)
                                            (chatRequest "gemini-2.5-pro" userMessage))
                          3 2000 window w in
  let P := chatCall ["gemini-2.0-flash"; "gemini-2.5-pro"] window userMessage in
  (exists sent, requests out.2 = (requests w ++ sent)%list /\ db out.2 = db w /\
                now out.2 = now w /\ Forall P sent /\ (List.length sent <= 6)%nat) /\
  (validateChatHistory false window = Ok tt ->
   exists later,
     requests out.2 =
       (requests w ++ mkRequest "gemini-2.0-flash" (ChatTurn window userMessage) :: later)%list /\
     Forall P later).
Proof.
  cbv zeta. unfold retryingChat, retryWithBackoff. change (Z.to_nat 3) with 3%nat.
  set (fn := generateContent _ _).
  set (P := chatCall _ window userMessage).
  assert (Hstep : forall s, (exists pushed, s.2 = (window ++ pushed)%list) ->
            sends P 0 2 s.1 (fn s).2.1 /\ exists pushed, (fn s).2.2 = (window ++ pushed)%list).
  { intros s Hs. apply (generateContent_chat _ window userMessage); simpl; auto. }
  assert (Hgrown : exists pushed, (w, window).2 = (window ++ pushed)%list)
    by (exists []; simpl; now rewrite app_nil_r).
  split.
  - pose proof (retryLoop_chat _ window userMessage fn 3 2000 Hstep 3 0 None _ Hgrown) as H.
    destruct (retryLoop fn 3 2000 3 0 None (w, window)) as [[r s'] tr].
    destruct H as (sent & Hw & Hall & Hlen). simpl in Hw. exists sent. simpl.
    rewrite Hw. repeat split; auto. simpl in Hlen. lia.
  - intros Hv.
    pose proof (retryLoop_chat_rest _ window userMessage fn 3 2000 Hstep 2 0 None _ Hgrown) as H.
    pose proof (generateContent_chat_first window userMessage w Hv) as H1. fold fn P in H1.
    destruct (retryLoop fn 3 2000 3 0 None (w, window)) as [[r s'] tr].
    destruct (sends_trans _ _ _ _ _ _ _ _ H1 H) as (later & Hw & Hall & _).
    simpl in Hw. exists later. simpl. rewrite Hw. simpl. rewrite <- app_assoc.
    split; [reflexivity|exact Hall].
Qed.

Lemma retryingChat_rejected window userMessage w error :
  validateChatHistory false window = Throw error ->
  isOverloaded error = false ->
  retryingChat (generateContent (chatRequest "gemini-2.0-flash" userMessage)
                                (chatRequest "gemini-2.5-pro" userMessage))
               3 2000 window w = (Throw error, withTimers w (timers w ++ [])).
Proof.
  intros Hv Ho. unfold retryingChat, retryWithBackoff. change (Z.to_nat 3) with 3%nat.
  cbn [retryLoop]. unfold generateContent at 1.
  rewrite (chatRequest_rejected userMessage "gemini-2.0-flash" w window error Hv).
  unfold isOverloaded, isOverloadedMessage in Ho. cbv zeta. rewrite Ho.
  unfold isOverloaded, isOverloadedMessage. rewrite Ho. reflexivity.
Qed.

(** The run of [generateResponse] with a credential, step by step. *)
Lemma generateResponse_run owner userMessage w :
  apiKeyMissing w = false ->
  let w1 := withDb w (addMessage owner user userMessage (now w) (db w)).2 in
  let history := conversationHistory (getMessages owner (db w1)) in
  let fn := generateContent (chatRequest "gemini-2.0-flash" userMessage)
                            (chatRequest "gemini-2.5-pro" userMessage) in
  generateResponse owner userMessage w =
  match retryingChat fn 3 2000 history w1 with
  | (Ok aiResponse, w3) =>
      (Ok aiResponse,
       withDb w3 (addMessage owner assistant aiResponse (now w3) (db w3)).2)
  | (Throw e, w3) => generateResponseCatch e w3
  end.
Proof.
  intros Hkey w1 history fn. unfold generateResponse, tryCatch. rewrite Hkey.
  change (bind (runAddMessage owner user userMessage) _ w) with
    (bind (retryingChat fn 3 2000 history)
          (fun aiResponse => bind (runAddMessage owner assistant aiResponse)
                                  (fun _ => ret aiResponse)) w1).
  unfold bind at 1. destruct (retryingChat fn 3 2000 history w1) as [[ai|e] w3]; reflexivity.
Qed.

(** C9. With 12 stored turns of the owner before the call, the history
    [generateResponse] hands to the chat session of the model is exactly
    turns 3 to 12 of them, each with its text and with the role user or
    model: the 10 turns that precede the newly appended user turn, i.e.
    the first 10 of the most recent 11 of the 13 stored turns.  The new
    turn is not part of the history; it is sent as the message.  When the
    third turn is a turn of the user, the first network call goes to the
    primary model with exactly this history, and every later call carries
    a history that starts with it; when it is a turn of the assistant,
    the SDK rejects the history and no network call is made. *)
Theorem history_window_is_ten_before_newest
    (w : World) (owner userMessage : string) (prior : list ChatMessage) :
  apiKeyMissing w = false ->
  getMessages owner (db w) = prior ->
  List.length prior = 12%nat ->
  let stored := getMessages owner (addMessage owner user userMessage (now w) (db w)).2 in
  let history :=
    map (fun turn => mkContent (match role turn with user => "user" | assistant => "model" end)
                               (content turn))
        (drop 2 prior) in
  let out := generateResponse owner userMessage w in
  stored = (prior ++ [mkChatMessage (nextId (db w)) owner user userMessage (now w)])%list /\
  List.length history = 10%nat /\
  conversationHistory stored = history /\
  drop 2 prior = take 10 (drop (List.length stored - 11) stored) /\
  (forall turn, prior !! 2%nat = Some turn -> role turn = user ->
     exists later,
       requests out.2 =
         (requests w ++
          mkRequest "gemini-2.0-flash" (ChatTurn history userMessage) :: later)%list /\
       Forall (fun r => exists pushed,
                 payload r = ChatTurn (history ++ pushed) userMessage) later) /\
  (forall turn, prior !! 2%nat = Some turn -> role turn = assistant ->
     requests out.2 = requests w /\
     out.1 = Throw (newError ("Failed to generate AI response: " +:+
                              "[GoogleGenerativeAI Error]: " +:+
                              "First content should be with role 'user', got model"))).
Proof.
  intros Hkey Hprior Hlen stored history out.
  assert (Hstored : stored =
            (prior ++ [mkChatMessage (nextId (db w)) owner user userMessage (now w)])%list).
  { unfold stored. now rewrite getMessages_addMessage, Hprior. }
  assert (Hhist : conversationHistory stored = history).
  { unfold conversationHistory, history. rewrite Hstored, slice_window, Hlen. reflexivity. }
  split; [exact Hstored|].
  split; [unfold history; rewrite length_map, length_drop; lia|].
  split; [exact Hhist|].
  split.
  { rewrite Hstored, length_app, Hlen. simpl List.length.
    change (12 + 1 - 11)%nat with 2%nat.
    rewrite drop_app_le by lia. rewrite take_app_le by (rewrite length_drop; lia).
    symmetry. apply take_ge. rewrite length_drop. lia. }
  assert (Hrun := generateResponse_run owner userMessage w Hkey). cbv zeta in Hrun.
  rewrite db_withDb in Hrun. fold stored in Hrun. rewrite Hhist in Hrun.
  set (w1 := withDb w (addMessage owner user userMessage (now w) (db w)).2) in Hrun.
  split.
  - intros turn Hturn Hrole.
    assert (Hv : validateChatHistory false history = Ok tt).
    { unfold history. change (map _ (drop 2 prior)) with (map toContent (drop 2 prior)).
      rewrite validateChatHistory_window, (drop_S _ _ _ Hturn), Hrole. reflexivity. }
    destruct (proj2 (retryingChat_requests history userMessage w1) Hv) as (later & Hreq & Hall).
    exists later. unfold out. rewrite Hrun.
    split.
    + destruct (retryingChat _ 3 2000 history w1) as [[ai|e] w3]; simpl in Hreq.
      * simpl. exact Hreq.
      * destruct (@generateResponseCatch_message string e w3) as (m & -> & _). exact Hreq.
    + eapply Forall_impl; [exact Hall|]. intros r [_ Hr]. exact Hr.
  - intros turn Hturn Hrole.
    assert (Hv : validateChatHistory false history = Throw firstContentError).
    { unfold history. change (map _ (drop 2 prior)) with (map toContent (drop 2 prior)).
      rewrite validateChatHistory_window, (drop_S _ _ _ Hturn), Hrole. reflexivity. }
    unfold out. rewrite Hrun.
    rewrite (retryingChat_rejected history userMessage w1 _ Hv eq_refl).
    split; reflexivity.
Qed.

Lemma history_window_is_ten_before_newest_witness :
  conversationHistory
    (getMessages "alice" (addMessage "alice" user "How much protein?" 0 twelveTurnsDb).2) =
    map (fun n : nat => mkContent (if Nat.even n then "user" else "model") (pretty n))
        (seq 2 10) /\
  (exists later,
     requests (generateResponse "alice" "How much protein?" chatWorld).2 =
       mkRequest "gemini-2.0-flash"
         (ChatTurn (map (fun n : nat => mkContent (if Nat.even n then "user" else "model")
                                                   (pretty n)) (seq 2 10))
                   "How much protein?") :: later) /\
  requests (generateResponse "alice" "How much protein?" unansweredWorld).2 = [].
Proof.
  destruct (history_window_is_ten_before_newest chatWorld "alice" "How much protein?"
              (map chatTurn (seq 0 12)))
    as (_ & _ & Hhist & _ & Hsent & _); try reflexivity.
  destruct (history_window_is_ten_before_newest unansweredWorld "alice" "How much protein?"
              (map lateTurn (seq 0 12)))
    as (_ & _ & _ & _ & _ & Hnone); try reflexivity.
  split; [exact Hhist|]. split.
  - destruct (Hsent (chatTurn 2) eq_refl eq_refl) as (later & Hreq & _).
    exists later. exact Hreq.
  - exact (proj1 (Hnone (lateTurn 2) eq_refl eq_refl)).
Defined.

(** ** The credential check *)

(** C8. Without the API credential, [generateResponse] and
    [analyzeFoodImage] fail before any network call, with an error that
    names the missing GEMINI_API_KEY; [generatePlan] has no such check and
    starts by sending the workout prompt to the provider. *)
Theorem generatePlan_calls_provider_without_credential
    (w : World) (args : GeneratePlanArgs) (owner userMessage imageData mimeType : string) :
  apiKeyMissing w = true ->
  generateResponse owner userMessage w =
    (Throw (newError ("Failed to generate AI response: " +:+
                      "GEMINI_API_KEY is not configured in environment variables")), w) /\
  analyzeFoodImage imageData mimeType w =
    (Throw (newError ("Failed to analyze the image: " +:+
                      "GEMINI_API_KEY is not configured in environment variables")), w) /\
  exists later,
    requests (generatePlan args w).2 =
      (requests w ++
       mkRequest "gemini-2.5-pro"
         (WorkoutPrompt (age args) (height args) (weight args) (injuries args)
            (workout_days args) (fitness_goal args) (fitness_level args)) :: later)%list.
Proof.
  intros Hkey. split; [|split].
  - unfold generateResponse, tryCatch. rewrite Hkey. reflexivity.
  - unfold analyzeFoodImage, tryCatch. rewrite Hkey. reflexivity.
  - destruct (appends_first (fun _ => True) w
                (mkRequest "gemini-2.5-pro"
                   (WorkoutPrompt (age args) (height args) (weight args) (injuries args)
                      (workout_days args) (fitness_goal args) (fitness_level args)))
                (generatePlan args w).2) as (later & Hreq & _); [|eauto].
    unfold generatePlan. apply bind_send_first. intros workoutResult.
    apply appending_bind; [apply appending_responseText|]. intros workoutPlanText.
    apply appending_bind; [apply appending_liftF|]. intros workoutPlan0.
    apply appending_bind; [apply appending_liftF|]. intros workoutPlan.
    apply appending_bind; [now apply appending_send|]. intros dietResult.
    apply appending_bind; [apply appending_responseText|]. intros dietPlanText.
    apply appending_bind; [apply appending_liftF|]. intros dietPlan0.
    apply appending_bind; [apply appending_liftF|]. intros dietPlan.
    intros w'. apply appending_runCreatePlan.
Qed.

Lemma generatePlan_calls_provider_without_credential_witness :
  (generateResponse "alice" "hello" noKeyWorld).1 =
    Throw (newError "Failed to generate AI response: GEMINI_API_KEY is not configured in environment variables") /\
  requests (generateResponse "alice" "hello" noKeyWorld).2 = [] /\
  requests (analyzeFoodImage "aGVsbG8=" "image/png" noKeyWorld).2 = [] /\
  exists later,
    requests (generatePlan demoArgs noKeyWorld).2 =
      mkRequest "gemini-2.5-pro"
        (WorkoutPrompt "30" "180cm" "80kg" "none" "3" "strength" "beginner") :: later.
Proof.
  destruct (generatePlan_calls_provider_without_credential noKeyWorld demoArgs
              "alice" "hello" "aGVsbG8=" "image/png") as (H1 & H2 & later & H3);
    [reflexivity|].
  rewrite H1, H2. repeat split. exists later. exact H3.
Defined.

(** ** The actions on sample worlds *)

(** The primary model is overloaded, the fallback answers: one attempt, two
    network calls, no wait. *)
Example analyzeFoodImage_fallback_answers :
  let w := worldWith (Some "key") [Throw e503; Ok (answer appleResponse)] in
  let '(r, w') := analyzeFoodImage "aGVsbG8=" "image/png" w in
  r = Ok {| foodName := JStr "Apple";
            calories := JNum (numOfZ 95);
            servingSize := JStr "Unknown";
            confidence := JStr "low";
            nutritionalInfo := {| protein := JStr "N/A"; carbs := JStr "N/A";
                                  fat := JStr "N/A"; fiber := JStr "N/A" |};
            description := JStr "Could not analyze the food." |} /\
  map model (requests w') = ["gemini-2.0-flash"; "gemini-2.5-pro"] /\
  timers w' = [].
Proof. vm_compute. repeat split. Qed.

(** Both models are overloaded on every call: three attempts, waits of
    2000 and 4000, and the busy message at the end. *)
Example generateResponse_gives_up :
  let w := worldWith (Some "key") (replicate 6 (Throw e503)) in
  let '(r, w') := generateResponse "alice" "hello" w in
  r = Throw (newError "The AI service is currently busy. Please try again in a few moments.") /\
  List.length (requests w') = 6%nat /\
  timers w' = [2000; 4000] /\
  map content (chatMessages (db w')) = ["hello"].
Proof. vm_compute. repeat split. Qed.

(** A window that starts with a turn of the assistant is rejected by the
    SDK before any network call; the user turn is stored all the same. *)
Example generateResponse_rejected_window :
  let '(r, w') := generateResponse "alice" "How much protein?" unansweredWorld in
  r = Throw (newError ("Failed to generate AI response: " +:+
                       "[GoogleGenerativeAI Error]: " +:+
                       "First content should be with role 'user', got model")) /\
  requests w' = [] /\ timers w' = [] /\
  List.length (chatMessages (db w')) = 13%nat.
Proof. vm_compute. repeat split. Qed.

(** After a response that is valid but blocked, the call to the fallback
    model carries the exchange the first call pushed onto the array. *)
Example generateResponse_history_grows :
  let '(r, w') := generateResponse "alice" "hello" blockedWorld in
  r = Ok "Drink water." /\
  map (fun q => (model q, payload q)) (requests w') =
    [("gemini-2.0-flash",
      ChatTurn [mkContent "user" "0"; mkContent "model" "1"] "hello");
     ("gemini-2.5-pro",
      ChatTurn [mkContent "user" "0"; mkContent "model" "1";
                mkContent "user" "hello"; mkContent "model" "Drink"] "hello")] /\
  timers w' = [].
Proof. vm_compute. repeat split. Qed.

(** A refusal in prose ends [analyzeFoodImage] with the syntax error of the
    engine, wrapped in the generic message. *)
Example analyzeFoodImage_prose :
  (analyzeFoodImage "aGVsbG8=" "image/png"
     (worldWith (Some "key") [Ok (answer proseResponse)])).1 =
  Throw (newError "Failed to analyze the image: Unexpected token").
Proof. vm_compute. reflexivity. Qed.

(** With answers of the expected shape [generatePlan] stores one active
    plan and returns its id. *)
Example generatePlan_stores_plan :
  let w := worldWith (Some "key")
             [Ok (answer zeroSetsPlanText); Ok (answer dietText)] in
  let '(r, w') := generatePlan demoArgs w in
  r = Ok 0%nat /\
  map model (requests w') = ["gemini-2.5-pro"; "gemini-2.5-pro"] /\
  map (fun p => (planId p, name (planFields p), isActive (planFields p),
                 dailyCalories (dietPlan (planFields p)))) (plans (db w')) =
    [(0%nat, "strength Plan - 1/1/2026", true, numOfZ 2200)].
Proof. vm_compute. repeat split. Qed.

(** * Further properties *)

(** ** Every run of the resilient invoker *)

Lemma scripted_fails_with {T : Type} (errs : list Thrown) (rest : list (Result T)) :
  fails_with scripted (map Throw errs ++ rest)%list errs rest.
Proof.
  induction errs as [|e errs IH]; simpl; [constructor|].
  eapply fw_cons; [reflexivity|exact IH].
Qed.

Section RetryRuns.
Context {W T : Type}.
Variable fn : W -> Result T * W.
Variables (maxRetries initialDelay : Z).

(** After [errs], all retried, the loop returns whatever the next
    invocation gives when that is a value, an error that is not an
    overload, or the outcome of the last attempt allowed. *)
Lemma retryLoop_ends_with w errs w1 r w' :
  fails_with fn w errs w1 ->
  Forall (fun e => isOverloaded e = true) errs ->
  fn w1 = (r, w') ->
  forall remaining i lastError,
    (List.length errs < remaining)%nat ->
    i + Z.of_nat remaining = maxRetries ->
    (forall e, r = Throw e -> isOverloaded e = true ->
               S (List.length errs) = remaining) ->
    retryLoop fn maxRetries initialDelay remaining i lastError w =
    (r, w', backoffTrace initialDelay i (List.length errs)).
Proof.
  induction 1 as [w | w e w1 errs w2 Hfn Hrest IH];
    intros Hover Hlast remaining i lastError Hrem Hi Hstop.
  - destruct remaining as [|remaining]; [simpl in Hrem; lia|].
    simpl. rewrite Hlast. destruct r as [v|e]; [reflexivity|].
    destruct (isOverloaded e) eqn:He; [|reflexivity].
    specialize (Hstop e eq_refl He). simpl in Hstop.
    replace (i <? maxRetries - 1) with false by (symmetry; apply Z.ltb_ge; lia).
    reflexivity.
  - pose proof (Forall_inv Hover) as He. pose proof (Forall_inv_tail Hover) as Hover'.
    simpl in He.
    destruct remaining as [|remaining]; [simpl in Hrem; lia|].
    simpl in Hrem. simpl retryLoop. rewrite Hfn, He.
    replace (i <? maxRetries - 1) with true by (symmetry; apply Z.ltb_lt; lia).
    simpl andb. cbv iota.
    rewrite (IH Hover' Hlast remaining (i + 1) (Some e)); [reflexivity|lia|lia|].
    intros e' Hr Ho. specialize (Hstop e' Hr Ho). simpl in Hstop. lia.
Qed.

(** Every run has this shape. *)
Lemma retryLoop_shape remaining :
  forall i lastError w,
    (0 < remaining)%nat ->
    i + Z.of_nat remaining = maxRetries ->
    exists errs w1 r w',
      (List.length errs < remaining)%nat /\
      fails_with fn w errs w1 /\
      Forall (fun e => isOverloaded e = true) errs /\
      fn w1 = (r, w') /\
      (forall e, r = Throw e -> isOverloaded e = true -> S (List.length errs) = remaining) /\
      retryLoop fn maxRetries initialDelay remaining i lastError w =
      (r, w', backoffTrace initialDelay i (List.length errs)).
Proof.
  induction remaining as [|n IH]; intros i lastError w Hpos Hi; [lia|].
  destruct (fn w) as [[v|e] w0] eqn:Hfn.
  - exists [], w, (Ok v), w0. simpl. rewrite Hfn.
    repeat split; auto; try lia; try constructor. discriminate.
  - destruct (isOverloaded e && (i <? maxRetries - 1)) eqn:Hretry.
    + apply andb_true_iff in Hretry as [He Hlt]. apply Z.ltb_lt in Hlt.
      destruct (IH (i + 1) (Some e) w0) as (errs & w1 & r & w' & Hlen & Hf & Hall & Hr & Hstop & Hrun);
        [lia|lia|].
      exists (e :: errs), w1, r, w'. simpl List.length.
      split; [lia|]. split; [eapply fw_cons; eassumption|].
      split; [constructor; assumption|]. split; [exact Hr|].
      split; [intros e' H1 H2; f_equal; eauto|].
      simpl retryLoop. rewrite Hfn, He.
      replace (i <? maxRetries - 1) with true by (symmetry; apply Z.ltb_lt; lia).
      simpl andb. cbv iota. rewrite Hrun. reflexivity.
    + exists [], w, (Throw e), w0. simpl. rewrite Hfn, Hretry.
      repeat split; auto; try lia; try constructor.
      intros e' [= <-] He. rewrite He in Hretry. simpl in Hretry.
      apply Z.ltb_ge in Hretry. lia.
Qed.

Lemma totalWait_backoffTrace i k :
  0 <= i -> totalWait (backoffTrace initialDelay i k) =
            initialDelay * (2 ^ (i + Z.of_nat k) - 2 ^ i).
Proof.
  revert i. induction k as [|k IH]; intros i Hi.
  - unfold totalWait. simpl. rewrite Z.add_0_r. lia.
  - simpl backoffTrace. unfold totalWait in *.
    change (waits (Invoke :: Wait ?d :: ?tr)) with (d :: waits tr). simpl fold_right.
    rewrite IH by lia.
    replace (i + 1 + Z.of_nat k) with (i + Z.of_nat (S k)) by lia.
    replace (2 ^ (i + 1)) with (2 * 2 ^ i) by (rewrite Z.pow_add_r by lia; lia).
    lia.
Qed.

End RetryRuns.

(** X1. When the wrapped function fails [maxRetries] times in a row with
    overload errors, [retryWithBackoff] invokes it exactly [maxRetries]
    times, waits [initialDelay * 2^i] after each failure except the last,
    and rejects with the error of the last attempt. *)
Theorem retryWithBackoff_exhausted {W T : Type}
    (fn : W -> Result T * W) (maxRetries initialDelay : Z)
    (w w1 w' : W) (errs : list Thrown) (e : Thrown) :
  fails_with fn w errs w1 ->
  fn w1 = (Throw e, w') ->
  Forall (fun e => isOverloaded e = true) errs ->
  Z.of_nat (S (List.length errs)) = maxRetries ->
  exists tr,
    retryWithBackoff fn maxRetries initialDelay w = (Throw e, w', tr) /\
    invocations tr = Z.to_nat maxRetries /\
    waits tr = map (fun i => initialDelay * 2 ^ Z.of_nat i) (seq 0 (List.length errs)).
Proof.
  intros Hf Hlast Hall Hlen.
  exists (backoffTrace initialDelay 0 (List.length errs)). split; [|split].
  - unfold retryWithBackoff.
    eapply retryLoop_ends_with; eauto; lia.
  - rewrite invocations_backoffTrace. lia.
  - rewrite waits_backoffTrace. apply map_ext. intros j. now rewrite Z.add_0_l.
Qed.

Lemma retryWithBackoff_exhausted_witness :
  exists tr,
    retryWithBackoff scripted 3 2000
      [Throw e503; Throw eOverloaded; Throw e503; Ok "too late"] =
      (Throw e503, [Ok "too late"], tr) /\
    invocations tr = 3%nat /\ waits tr = [2000; 4000].
Proof.
  apply (retryWithBackoff_exhausted scripted 3 2000
           [Throw e503; Throw eOverloaded; Throw e503; Ok "too late"]
           [Throw e503; Ok "too late"] [Ok "too late"] [e503; eOverloaded] e503).
  - apply (scripted_fails_with [e503; eOverloaded]).
  - reflexivity.
  - repeat constructor.
  - reflexivity.
Defined.

(** X2. When overload failures, fewer than [maxRetries], are followed by a
    failure whose error is not an overload, [retryWithBackoff] stops
    there: it rejects with that error, without a wait after it, having
    waited [initialDelay * 2^i] after each earlier failure. *)
Theorem retryWithBackoff_stops_at_fatal_error {W T : Type}
    (fn : W -> Result T * W) (maxRetries initialDelay : Z)
    (w w1 w' : W) (errs : list Thrown) (e : Thrown) :
  fails_with fn w errs w1 ->
  fn w1 = (Throw e, w') ->
  Forall (fun e => isOverloaded e = true) errs ->
  isOverloaded e = false ->
  Z.of_nat (List.length errs) < maxRetries ->
  exists tr,
    retryWithBackoff fn maxRetries initialDelay w = (Throw e, w', tr) /\
    invocations tr = S (List.length errs) /\
    waits tr = map (fun i => initialDelay * 2 ^ Z.of_nat i) (seq 0 (List.length errs)).
Proof.
  intros Hf Hlast Hall He Hlen.
  exists (backoffTrace initialDelay 0 (List.length errs)). split; [|split].
  - unfold retryWithBackoff.
    eapply retryLoop_ends_with; eauto; try lia.
    intros e' [= <-] Ho. congruence.
  - apply invocations_backoffTrace.
  - rewrite waits_backoffTrace. apply map_ext. intros j. now rewrite Z.add_0_l.
Qed.

Lemma retryWithBackoff_stops_at_fatal_error_witness :
  exists tr,
    retryWithBackoff scripted 3 2000 [Throw e503; Throw eBadKey; Ok "never asked"] =
      (Throw eBadKey, [Ok "never asked"], tr) /\
    invocations tr = 2%nat /\ waits tr = [2000].
Proof.
  apply (retryWithBackoff_stops_at_fatal_error scripted 3 2000
           [Throw e503; Throw eBadKey; Ok "never asked"]
           [Throw eBadKey; Ok "never asked"] [Ok "never asked"] [e503] eBadKey).
  - apply (scripted_fails_with [e503]).
  - reflexivity.
  - repeat constructor.
  - reflexivity.
  - simpl. lia.
Defined.

(** X3. Whatever the wrapped function does, a run of [retryWithBackoff]
    with at least one attempt allowed consists of some overload failures,
    fewer than [maxRetries], each followed by its wait, and one more
    invocation whose outcome is the outcome of the run.  So the function
    is invoked at least once and at most [maxRetries] times, an error the
    run rejects with is one the function threw, an overload error is only
    propagated from the last attempt allowed, and with a non-negative
    [initialDelay] the waits add up to at most
    [initialDelay * (2^(maxRetries-1) - 1)]. *)
Theorem retryWithBackoff_run_shape {W T : Type}
    (fn : W -> Result T * W) (maxRetries initialDelay : Z) (w : W) :
  0 < maxRetries ->
  exists errs w1 r w' tr,
    retryWithBackoff fn maxRetries initialDelay w = (r, w', tr) /\
    fails_with fn w errs w1 /\
    Forall (fun e => isOverloaded e = true) errs /\
    fn w1 = (r, w') /\
    Z.of_nat (List.length errs) < maxRetries /\
    (forall e, r = Throw e -> isOverloaded e = true ->
               Z.of_nat (S (List.length errs)) = maxRetries) /\
    tr = backoffTrace initialDelay 0 (List.length errs) /\
    (1 <= invocations tr <= Z.to_nat maxRetries)%nat /\
    (0 <= initialDelay ->
     0 <= totalWait tr <= initialDelay * (2 ^ (maxRetries - 1) - 1)).
Proof.
  intros Hmax.
  destruct (retryLoop_shape fn maxRetries initialDelay (Z.to_nat maxRetries) 0 None w)
    as (errs & w1 & r & w' & Hlen & Hf & Hall & Hr & Hstop & Hrun); [lia|lia|].
  exists errs, w1, r, w', (backoffTrace initialDelay 0 (List.length errs)).
  split; [exact Hrun|]. split; [exact Hf|]. split; [exact Hall|]. split; [exact Hr|].
  split; [lia|].
  split; [intros e H1 H2; specialize (Hstop e H1 H2); lia|].
  split; [reflexivity|].
  split; [rewrite invocations_backoffTrace; lia|].
  intros Hd. rewrite totalWait_backoffTrace by lia.
  rewrite Z.add_0_l. change (2 ^ 0) with 1.
  assert (Hpow : 1 <= 2 ^ Z.of_nat (List.length errs) <= 2 ^ (maxRetries - 1)).
  { split.
    - assert (0 < 2 ^ Z.of_nat (List.length errs)) by (apply Z.pow_pos_nonneg; lia). lia.
    - apply Z.pow_le_mono_r; lia. }
  nia.
Qed.

Lemma retryWithBackoff_run_shape_witness :
  exists errs w1 r w' tr,
    retryWithBackoff scripted 3 2000 [Throw e503; Ok "done"] = (r, w', tr) /\
    fails_with scripted [Throw e503; Ok "done"] errs w1 /\
    (1 <= invocations tr <= 3)%nat /\
    0 <= totalWait tr <= 6000.
Proof.
  destruct (retryWithBackoff_run_shape scripted 3 2000 [Throw e503; Ok "done"])
    as (errs & w1 & r & w' & tr & H1 & H2 & _ & _ & _ & _ & _ & H3 & H4); [lia|].
  exists errs, w1, r, w', tr. split; [exact H1|]. split; [exact H2|].
  split; [exact H3|]. apply H4. lia.
Defined.

(** ** What the actions do to the world *)

Lemma callsOnce_visionRequest modelName imageData mimeType :
  callsOnce (mkRequest modelName (FoodImage imageData mimeType))
            (visionRequest modelName imageData mimeType).
Proof. intros w. reflexivity. Qed.

Lemma generateContent_sends {A} reqP reqF (primary fallback : Action A) w :
  callsOnce reqP primary -> callsOnce reqF fallback ->
  sends (fun r => r = reqP \/ r = reqF) 1 2 w (generateContent primary fallback w).2.
Proof.
  intros Hp Hf. unfold generateContent.
  specialize (Hp w). destruct (primary w) as [[a|e] w1]; simpl in *.
  - subst. exists [reqP]. repeat split; [repeat constructor; auto|simpl; lia|simpl; lia].
  - destruct (_ || _).
    + rewrite Hf, Hp. exists [reqP; reqF].
      split; [unfold withRequests; simpl; now rewrite <- app_assoc|].
      split; [|simpl; lia].
      constructor; [now left|]. constructor; [now right|constructor].
    + subst. exists [reqP]. repeat split; [repeat constructor; auto|simpl; lia|simpl; lia].
Qed.

Lemma retryLoop_sends {A} P (fn : Action A) maxRetries initialDelay :
  (forall w, sends P 1 2 w (fn w).2) ->
  forall n i lastError w,
    sends P (Nat.min 1 n) (2 * n) w (retryLoop fn maxRetries initialDelay n i lastError w).1.2.
Proof.
  intros Hfn. induction n as [|n IH]; intros i lastError w.
  - apply sends_refl.
  - simpl retryLoop. specialize (Hfn w). destruct (fn w) as [[a|e] w1]; simpl in Hfn.
    + simpl. eapply sends_weaken; [exact Hfn|simpl; lia|lia].
    + destruct (_ && _).
      * specialize (IH (i + 1) (Some e) w1).
        destruct (retryLoop fn maxRetries initialDelay n (i + 1) (Some e) w1) as [[r w2] tr].
        simpl in *. eapply sends_weaken; [eapply sends_trans; eassumption|simpl; lia|lia].
      * simpl. eapply sends_weaken; [exact Hfn|simpl; lia|lia].
Qed.

(** Three attempts with 2000 ms: the waits are none, 2000, or 2000 and
    then 4000, and the world changes by network calls only. *)
Lemma retrying_three {A} P (fn : Action A) w :
  (forall w, sends P 1 2 w (fn w).2) ->
  exists w2 ts,
    (retrying fn 3 2000 w).2 = withTimers w2 (timers w ++ ts) /\
    sends P 1 6 w w2 /\
    (ts = [] \/ ts = [2000] \/ ts = [2000; 4000]).
Proof.
  intros Hfn. unfold retrying, retryWithBackoff.
  pose proof (retryLoop_sends P fn 3 2000 Hfn (Z.to_nat 3) 0 None w) as Hs.
  destruct (retryLoop_shape fn 3 2000 (Z.to_nat 3) 0 None w)
    as (errs & w1 & r & w' & Hlen & _ & _ & _ & _ & Hrun); [simpl; lia|reflexivity|].
  rewrite Hrun in *. simpl in Hs. exists w', (waits (backoffTrace 2000 0 (List.length errs))).
  split; [|split; [exact Hs|]].
  - simpl. destruct Hs as (sent & -> & _). reflexivity.
  - change (Z.to_nat 3) with 3%nat in Hlen.
    destruct errs as [|e1 [|e2 [|e3 errs]]]; simpl in Hlen; auto; lia.
Qed.

Lemma retrying_generateContent {A} reqP reqF (primary fallback : Action A) w :
  callsOnce reqP primary -> callsOnce reqF fallback ->
  exists sent ts,
    (retrying (generateContent primary fallback) 3 2000 w).2 =
      withTimers (withRequests w (requests w ++ sent)) (timers w ++ ts) /\
    Forall (fun r => r = reqP \/ r = reqF) sent /\
    (1 <= List.length sent <= 6)%nat /\
    (ts = [] \/ ts = [2000] \/ ts = [2000; 4000]).
Proof.
  intros Hp Hf.
  destruct (retrying_three (fun r => r = reqP \/ r = reqF)
              (generateContent primary fallback) w)
    as (w2 & ts & Hw & (sent & -> & Hall & Hlen) & Hts).
  - intros w0. now apply generateContent_sends.
  - exists sent, ts. repeat split; auto; lia.
Qed.

(** Three attempts of the chat closure with 2000 ms: at most six calls,
    waits of none, 2000, or 2000 and then 4000, and nothing else changes. *)
Lemma retryingChat_three window userMessage w :
  exists sent ts,
    (retryingChat (generateContent (chatRequest "gemini-2.0-flash" userMessage)
                                   (chatRequest "gemini-2.5-pro" userMessage))
                  3 2000 window w).2 =
      withTimers (withRequests w (requests w ++ sent)) (timers w ++ ts) /\
    Forall (chatCall ["gemini-2.0-flash"; "gemini-2.5-pro"] window userMessage) sent /\
    (List.length sent <= 6)%nat /\
    (ts = [] \/ ts = [2000] \/ ts = [2000; 4000]).
Proof.
  unfold retryingChat, retryWithBackoff.
  set (fn := generateContent _ _).
  assert (Hstep : forall s, (exists pushed, s.2 = (window ++ pushed)%list) ->
            sends (chatCall ["gemini-2.0-flash"; "gemini-2.5-pro"] window userMessage) 0 2
                  s.1 (fn s).2.1 /\
            exists pushed, (fn s).2.2 = (window ++ pushed)%list).
  { intros s Hs. apply (generateContent_chat _ window userMessage); simpl; auto. }
  assert (Hgrown : exists pushed, (w, window).2 = (window ++ pushed)%list)
    by (exists []; simpl; now rewrite app_nil_r).
  pose proof (retryLoop_chat _ window userMessage fn 3 2000 Hstep (Z.to_nat 3) 0 None _ Hgrown)
    as Hs.
  destruct (retryLoop_shape fn 3 2000 (Z.to_nat 3) 0 None (w, window))
    as (errs & s1 & r & s' & Hlen & _ & _ & _ & _ & Hrun); [simpl; lia|reflexivity|].
  rewrite Hrun in *. simpl in Hs. destruct Hs as (sent & Hw & Hall & Hsent).
  exists sent, (waits (backoffTrace 2000 0 (List.length errs))).
  split; [|split; [exact Hall|split; [simpl in Hsent; lia|]]].
  - simpl. rewrite Hw. reflexivity.
  - change (Z.to_nat 3) with 3%nat in Hlen.
    destruct errs as [|e1 [|e2 [|e3 errs]]]; simpl in Hlen; auto; lia.
Qed.

(** X4. With a credential, one call of [generateResponse] makes at most
    six network calls, each to gemini-2.0-flash or to gemini-2.5-pro with
    the message and a history that starts with the window of stored
    turns, and waits on no timer, on one of 2000 ms, or on one of 2000 ms
    and then one of 4000 ms.  When the window is empty or starts with a
    turn of the user, at least one call is made, and the first one goes
    to gemini-2.0-flash with exactly the window.  When the window starts
    with a turn of the assistant, the SDK rejects it: no call is made,
    nothing is waited for, and the action fails with the message of the
    SDK. *)
Theorem generateResponse_budget (owner userMessage : string) (w : World) :
  apiKeyMissing w = false ->
  let out := generateResponse owner userMessage w in
  let window :=
    conversationHistory
      (getMessages owner (db w) ++
       [mkChatMessage (nextId (db w)) owner user userMessage (now w)]) in
  exists sent ts,
    requests out.2 = (requests w ++ sent)%list /\
    (List.length sent <= 6)%nat /\
    Forall (fun r => (model r = "gemini-2.0-flash" \/ model r = "gemini-2.5-pro") /\
                     exists pushed, payload r = ChatTurn (window ++ pushed) userMessage) sent /\
    timers out.2 = (timers w ++ ts)%list /\
    (ts = [] \/ ts = [2000] \/ ts = [2000; 4000]) /\
    ((forall c, head window = Some c -> contentRole c = "user") ->
     exists later,
       sent = mkRequest "gemini-2.0-flash" (ChatTurn window userMessage) :: later) /\
    ((exists c, head window = Some c /\ contentRole c = "model") ->
     sent = [] /\ ts = [] /\
     out.1 = Throw (newError ("Failed to generate AI response: " +:+
                              "[GoogleGenerativeAI Error]: " +:+
                              "First content should be with role 'user', got model"))).
Proof.
  intros Hkey out window. unfold out. rewrite generateResponse_run by exact Hkey.
  cbv zeta. rewrite db_withDb, getMessages_addMessage. fold window.
  set (w1 := withDb w (addMessage owner user userMessage (now w) (db w)).2).
  destruct (validateChatHistory false window) as [[]|error] eqn:Hv.
  - destruct (retryingChat_three window userMessage w1) as (sent & ts & Hw & Hall & Hlen & Hts).
    destruct (proj2 (retryingChat_requests window userMessage w1) Hv) as (later & Hreq & _).
    rewrite Hw in Hreq. simpl in Hreq. apply app_inv_head in Hreq.
    exists sent, ts.
    assert (Hmodels : Forall (fun r => (model r = "gemini-2.0-flash" \/
                                        model r = "gemini-2.5-pro") /\
                        exists pushed, payload r = ChatTurn (window ++ pushed) userMessage) sent).
    { eapply Forall_impl; [exact Hall|]. intros r [Hin Hr]. split; [|exact Hr].
      simpl in Hin. intuition. }
    assert (Hno : ~ exists c, head window = Some c /\ contentRole c = "model").
    { intros H. unfold window, conversationHistory in Hv, H.
      rewrite (head_window_model _ H) in Hv. discriminate. }
    destruct (retryingChat _ 3 2000 window w1) as [[ai|e] w3]; cbn [snd] in Hw; subst w3.
    + repeat split; auto; [now exists later|contradiction..].
    + destruct (@generateResponseCatch_message string e
                  (withTimers (withRequests w1 (requests w1 ++ sent)) (timers w1 ++ ts)))
        as (m & -> & _).
      repeat split; auto; [now exists later|contradiction..].
  - assert (Herr : error = firstContentError).
    { unfold window, conversationHistory in Hv. rewrite validateChatHistory_window in Hv.
      destruct (slice _ _ _) as [|[? ? [] ? ?] ?]; simpl in Hv; congruence. }
    subst error.
    rewrite (retryingChat_rejected window userMessage w1 _ Hv eq_refl).
    exists [], []. simpl. rewrite !app_nil_r.
    repeat split; auto; [lia|].
    intros Huser. unfold window, conversationHistory in Hv, Huser.
    rewrite (head_window_user _ Huser) in Hv. discriminate.
Qed.

Lemma generateResponse_budget_witness :
  (exists later,
     map model (requests (generateResponse "alice" "How much protein?" chatWorld).2) =
       "gemini-2.0-flash" :: later /\ (List.length later <= 5)%nat) /\
  requests (generateResponse "alice" "How much protein?" unansweredWorld).2 = [] /\
  timers (generateResponse "alice" "How much protein?" unansweredWorld).2 = [].
Proof.
  destruct (generateResponse_budget "alice" "How much protein?" chatWorld)
    as (sent & ts & H1 & H2 & _ & _ & _ & H3 & _); [reflexivity|].
  destruct (generateResponse_budget "alice" "How much protein?" unansweredWorld)
    as (sent' & ts' & H1' & _ & _ & H2' & _ & _ & H3'); [reflexivity|].
  split; [|split].
  - destruct H3 as (later & ->); [intros c [= <-]; reflexivity|].
    exists (map model later). rewrite H1. simpl in *. rewrite length_map. split; [reflexivity|lia].
  - destruct H3' as (-> & _); [eexists; split; reflexivity|]. exact H1'.
  - destruct H3' as (_ & -> & _); [eexists; split; reflexivity|]. exact H2'.
Defined.



Lemma analyzeFoodImageCatch_message {A} (e : Thrown) w :
  exists message,
    @analyzeFoodImageCatch A e w = (Throw (newError message), w) /\
    analyzeFoodImageFailure (errorMessageOf e) message.
Proof.
  unfold analyzeFoodImageCatch, analyzeFoodImageFailure, throw.
  repeat (destruct (_ || _); [eexists; split; [reflexivity|tauto]|]).
  destruct (includes _ "SAFETY"); [eexists; split; [reflexivity|tauto]|].
  destruct (_ && _); eexists; (split; [reflexivity|tauto]).
Qed.

Lemma foodAnalysisOf_complete v r : foodAnalysisOf v = inr r -> completeFood r.
Proof.
  intros H. destruct (nullish v) eqn:Hv.
  - destruct v; try discriminate Hv; discriminate H.
  - destruct (foodAnalysisOf_not_nullish v Hv) as (r' & Hr' & Hc). congruence.
Qed.

Lemma parseFoodResponse_complete text r : parseFoodResponse text = inr r -> completeFood r.
Proof.
  unfold parseFoodResponse. destruct (JSON_parse _) as [|v]; [discriminate|].
  apply foodAnalysisOf_complete.
Qed.

(** The run of [analyzeFoodImage] with a credential, step by step. *)
Lemma analyzeFoodImage_run imageData mimeType w :
  apiKeyMissing w = false ->
  let fn := generateContent (visionRequest "gemini-2.0-flash" imageData mimeType)
                            (visionRequest "gemini-2.5-pro" imageData mimeType) in
  analyzeFoodImage imageData mimeType w =
  match retrying fn 3 2000 w with
  | (Ok response, w3) =>
      match text response with
      | Ok t =>
          match parseFoodResponse t with
          | inr r => (Ok r, w3)
          | inl f => analyzeFoodImageCatch (ErrorObj (faultName f) (engineMessage w3 f)) w3
          end
      | Throw e => analyzeFoodImageCatch e w3
      end
  | (Throw e, w3) => analyzeFoodImageCatch e w3
  end.
Proof.
  intros Hkey fn. unfold analyzeFoodImage, tryCatch. rewrite Hkey.
  fold fn. unfold bind at 1.
  destruct (retrying fn 3 2000 w) as [[response|e] w3]; [|reflexivity].
  unfold bind, responseText, liftF.
  destruct (text response) as [t|e]; [|reflexivity].
  destruct (parseFoodResponse t); reflexivity.
Qed.

(** X6. With a credential, one call of [analyzeFoodImage] makes between
    one and six network calls, each with the image to gemini-2.0-flash or
    gemini-2.5-pro, waits on no timer, on 2000 ms, or on 2000 ms and then
    4000 ms, and never touches the database.  An analysis it returns has
    every field populated; a failure is always an [Error] with one of the
    six messages of the catch clause. *)
Theorem analyzeFoodImage_effects (imageData mimeType : string) (w : World) :
  apiKeyMissing w = false ->
  let r := (analyzeFoodImage imageData mimeType w).1 in
  let w' := (analyzeFoodImage imageData mimeType w).2 in
  (exists sent ts,
     requests w' = (requests w ++ sent)%list /\
     (1 <= List.length sent <= 6)%nat /\
     Forall (fun q => q = mkRequest "gemini-2.0-flash" (FoodImage imageData mimeType) \/
                      q = mkRequest "gemini-2.5-pro" (FoodImage imageData mimeType)) sent /\
     timers w' = (timers w ++ ts)%list /\
     (ts = [] \/ ts = [2000] \/ ts = [2000; 4000])) /\
  db w' = db w /\
  (forall a, r = Ok a -> completeFood a) /\
  (forall e, r = Throw e ->
     exists cause message, e = newError message /\ analyzeFoodImageFailure cause message).
Proof.
  intros Hkey r w'. unfold r, w'. rewrite analyzeFoodImage_run by exact Hkey. cbv zeta.
  destruct (retrying_generateContent
              (mkRequest "gemini-2.0-flash" (FoodImage imageData mimeType))
              (mkRequest "gemini-2.5-pro" (FoodImage imageData mimeType))
              (visionRequest "gemini-2.0-flash" imageData mimeType)
              (visionRequest "gemini-2.5-pro" imageData mimeType) w)
    as (sent & ts & Hw & Hall & Hlen & Hts);
    [apply callsOnce_visionRequest|apply callsOnce_visionRequest|].
  assert (Hcatch : forall e w3,
            w3 = withTimers (withRequests w (requests w ++ sent)) (timers w ++ ts) ->
            let out := @analyzeFoodImageCatch FoodAnalysis e w3 in
            (exists sent ts,
               requests out.2 = (requests w ++ sent)%list /\
               (1 <= List.length sent <= 6)%nat /\
               Forall (fun q => q = mkRequest "gemini-2.0-flash" (FoodImage imageData mimeType) \/
                                q = mkRequest "gemini-2.5-pro" (FoodImage imageData mimeType)) sent /\
               timers out.2 = (timers w ++ ts)%list /\
               (ts = [] \/ ts = [2000] \/ ts = [2000; 4000])) /\
            db out.2 = db w /\
            (forall a, out.1 = Ok a -> completeFood a) /\
            (forall e', out.1 = Throw e' ->
               exists cause message,
                 e' = newError message /\ analyzeFoodImageFailure cause message)).
  { intros e w3 ->. cbv zeta.
    destruct (@analyzeFoodImageCatch_message FoodAnalysis e
                (withTimers (withRequests w (requests w ++ sent)) (timers w ++ ts)))
      as (m & -> & Hm).
    split; [exists sent, ts; repeat split; auto; lia|].
    split; [reflexivity|]. split; [discriminate|].
    intros e' [= <-]. eauto. }
  destruct (retrying _ 3 2000 w) as [[response|e] w3]; cbn [snd] in Hw;
    [|now apply Hcatch].
  destruct (text response) as [t|e]; [|now apply Hcatch].
  destruct (parseFoodResponse t) as [f|a] eqn:Hparse; [now apply Hcatch|].
  subst w3. split; [exists sent, ts; repeat split; auto; lia|].
  split; [reflexivity|]. split; [|discriminate].
  intros a' [= <-]. eapply parseFoodResponse_complete, Hparse.
Qed.

Lemma analyzeFoodImage_effects_witness :
  let w := worldWith (Some "key") [Throw e503; Ok (answer appleResponse)] in
  (exists sent ts,
     requests (analyzeFoodImage "aGVsbG8=" "image/png" w).2 = sent /\
     (1 <= List.length sent <= 6)%nat /\
     timers (analyzeFoodImage "aGVsbG8=" "image/png" w).2 = ts) /\
  db (analyzeFoodImage "aGVsbG8=" "image/png" w).2 = emptyDb.
Proof.
  destruct (analyzeFoodImage_effects "aGVsbG8=" "image/png"
              (worldWith (Some "key") [Throw e503; Ok (answer appleResponse)]))
    as ((sent & ts & H1 & H2 & _ & H3 & _) & H4 & _); [reflexivity|].
  split; [exists sent, ts; repeat split; auto; lia|exact H4].
Defined.

(** ** Plan generation *)

(** The run of [generatePlan], step by step. *)
Lemma generatePlan_run args w :
  let w1 := withRequests w (requests w ++ [workoutRequest args]) in
  let w2 := withRequests w1 (requests w1 ++ [dietRequest args]) in
  let raise (f : Fault) := ErrorObj (faultName f) (engineMessage w f) in
  generatePlan args w =
  match provider w (List.length (requests w)) (workoutRequest args) with
  | Throw e => (Throw e, w1)
  | Ok workoutResult =>
  match text workoutResult with
  | Throw e => (Throw e, w1)
  | Ok workoutPlanText =>
  match parseWorkoutPlan workoutPlanText with
  | inl f => (Throw (raise f), w1)
  | inr workoutPlan =>
  match provider w (List.length (requests w1)) (dietRequest args) with
  | Throw e => (Throw e, w2)
  | Ok dietResult =>
  match text dietResult with
  | Throw e => (Throw e, w2)
  | Ok dietPlanText =>
  match parseDietPlan dietPlanText with
  | inl f => (Throw (raise f), w2)
  | inr dietPlan =>
      runCreatePlan (gpUserId args) dietPlan true workoutPlan
        (fitness_goal args +:+ " Plan - " +:+ today w) w2
  end end end end end end.
Proof.
  cbv zeta. unfold generatePlan. fold (workoutRequest args). fold (dietRequest args).
  unfold bind at 1. unfold send at 1.
  destruct (provider w (List.length (requests w)) (workoutRequest args)) as [res1|e];
    [|reflexivity].
  unfold bind at 1. unfold responseText at 1. destruct (text res1) as [t1|e]; [|reflexivity].
  unfold parseWorkoutPlan. unfold bind at 1. unfold liftF at 1.
  destruct (JSON_parse t1) as [f|plan1]; [reflexivity|]. cbn [fbind].
  unfold bind at 1. unfold liftF at 1.
  destruct (validateWorkoutPlan plan1) as [f|workoutPlan]; [reflexivity|].
  unfold bind at 1. unfold send at 1.
  change (provider (withRequests w (requests w ++ [workoutRequest args]))) with (provider w).
  destruct (provider w _ (dietRequest args)) as [res2|e]; [|reflexivity].
  unfold bind at 1. unfold responseText at 1. destruct (text res2) as [t2|e]; [|reflexivity].
  unfold parseDietPlan. unfold bind at 1. unfold liftF at 1.
  destruct (JSON_parse t2) as [f|plan2]; [reflexivity|]. cbn [fbind].
  unfold bind at 1. unfold liftF at 1.
  destruct (validateDietPlan plan2) as [f|dietPlan]; reflexivity.
Qed.

(** X7. [generatePlan] waits on no timer, leaves the chat messages alone
    and makes one or two network calls, both to gemini-2.5-pro: the
    workout prompt and then the diet prompt.  It writes to the database
    only as its last step: when it fails, the database is unchanged; when
    it returns an id, both calls were made, the id is the one of the plan
    just created for the user from the two answers, with [isActive] true
    and the fitness goal and the date in its name, and this plan is the
    only active plan of the user.  A failure of the first call, an
    overload included, is not retried: the error is passed on as it is. *)
Theorem generatePlan_effects (args : GeneratePlanArgs) (w : World) :
  let r := (generatePlan args w).1 in
  let w' := (generatePlan args w).2 in
  timers w' = timers w /\
  chatMessages (db w') = chatMessages (db w) /\
  (requests w' = (requests w ++ [workoutRequest args])%list \/
   requests w' = (requests w ++ [workoutRequest args; dietRequest args])%list) /\
  (forall e, provider w (List.length (requests w)) (workoutRequest args) = Throw e ->
             r = Throw e /\ requests w' = (requests w ++ [workoutRequest args])%list) /\
  match r with
  | Throw _ => db w' = db w
  | Ok id =>
      requests w' = (requests w ++ [workoutRequest args; dietRequest args])%list /\
      exists wp dp,
        let plan := mkPlanArgs (gpUserId args)
                      (fitness_goal args +:+ " Plan - " +:+ today w) wp dp true in
        id = nextId (db w) /\
        db w' = (createPlan plan (db w)).2 /\
        activePlansOf (gpUserId args) (db w') = [mkPlan id plan]
  end.
Proof.
  cbv zeta. rewrite generatePlan_run. cbv zeta.
  assert (Happ : ((requests w ++ [workoutRequest args]) ++ [dietRequest args] =
                  requests w ++ [workoutRequest args; dietRequest args])%list)
    by now rewrite <- app_assoc.
  destruct (provider w _ (workoutRequest args)) as [res1|e];
    [|simpl; repeat split; auto; congruence].
  assert (Hno : forall (r : Result nat) (rs : list Request) (e : Thrown),
            Ok res1 = Throw e -> r = Throw e /\ rs = (requests w ++ [workoutRequest args])%list)
    by discriminate.
  destruct (text res1) as [t1|e]; [|simpl; auto 6].
  destruct (parseWorkoutPlan t1) as [f|workoutPlan]; [simpl; auto 6|].
  destruct (provider w _ (dietRequest args)) as [res2|e]; [|simpl; rewrite Happ; auto 6].
  destruct (text res2) as [t2|e]; [|simpl; rewrite Happ; auto 6].
  destruct (parseDietPlan t2) as [f|dietPlan]; [simpl; rewrite Happ; auto 6|].
  unfold runCreatePlan.
  destruct (asWorkoutPlan workoutPlan) as [wp|]; [|simpl; rewrite Happ; auto 6].
  destruct (asDietPlan dietPlan) as [dp|]; [|simpl; rewrite Happ; auto 6].
  set (plan := mkPlanArgs (gpUserId args) (fitness_goal args +:+ " Plan - " +:+ today w)
                 wp dp true).
  change (db (withRequests _ _)) with (db w).
  destruct (createPlan_step plan (db w)) as (older & Hstep & _ & Hold).
  rewrite Hstep. cbn [fst snd].
  split; [reflexivity|]. split; [reflexivity|].
  split; [right; simpl; exact Happ|]. split; [apply Hno|].
  split; [simpl; exact Happ|]. exists wp, dp. cbv zeta. fold plan. rewrite Hstep.
  split; [reflexivity|]. split; [reflexivity|].
  unfold activePlansOf. simpl. apply activePlansOf_after_insert; [exact Hold|].
  unfold isActivePlanOf. simpl. now rewrite bool_decide_eq_true_2.
Qed.

(** ** The database *)

Lemma planId_deactivate p : planId (deactivate p) = planId p.
Proof. reflexivity. Qed.

Lemma userId_deactivate p : userId (planFields (deactivate p)) = userId (planFields p).
Proof. reflexivity. Qed.

Lemma deactivate_inactive p : isActive (planFields p) = false -> deactivate p = p.
Proof. destruct p as [id [u n wp dp a]]. simpl. now intros ->. Qed.

(** The plans after [createPlan]: each earlier plan, deactivated when its
    id is the id of an active plan of the owner, and the new plan. *)
Lemma createPlan_plans args d :
  plans (createPlan args d).2 =
  (map (fun p => if decide (planId p ∈ map planId (activePlansOf (userId args) d))
                 then deactivate p else p) (plans d)
   ++ [mkPlan (nextId d) args])%list /\
  chatMessages (createPlan args d).2 = chatMessages d /\
  nextId (createPlan args d).2 = S (nextId d) /\
  (createPlan args d).1 = nextId d.
Proof.
  unfold createPlan, insertPlan.
  destruct (patch_loop_rest (activePlansOf (userId args) d) d) as [Hc Hn].
  simpl. rewrite patch_loop_plans, Hc, Hn. auto.
Qed.

Lemma active_id_collected owner d p :
  p ∈ plans d -> isActivePlanOf owner p = true ->
  planId p ∈ map planId (activePlansOf owner d).
Proof.
  intros Hin Hact. apply list_elem_of_fmap. exists p. split; [reflexivity|].
  apply list_elem_of_In, filter_In. split; [now apply list_elem_of_In|exact Hact].
Qed.

Lemma NoDup_map_same {A B : Type} (f : A -> B) (l : list A) x y :
  NoDup (map f l) -> x ∈ l -> y ∈ l -> f x = f y -> x = y.
Proof.
  induction l as [|a l IH]; simpl; intros Hnd Hx Hy Hf; [inversion Hx|].
  apply NoDup_cons in Hnd as [Hna Hnd].
  apply list_elem_of_In in Hx, Hy. simpl in Hx, Hy.
  destruct Hx as [->|Hx], Hy as [->|Hy]; auto.
  - exfalso. apply Hna. rewrite Hf. apply list_elem_of_fmap.
    exists y. split; [reflexivity|now apply list_elem_of_In].
  - exfalso. apply Hna. rewrite <- Hf. apply list_elem_of_fmap.
    exists x. split; [reflexivity|now apply list_elem_of_In].
  - apply IH; auto; now apply list_elem_of_In.
Qed.

Lemma filter_map_pointwise {A : Type} (keep : A -> bool) (g h : A -> A) (l : list A) :
  (forall x, x ∈ l -> keep (g x) = keep x /\ (keep x = true -> g x = h x)) ->
  List.filter keep (map g l) = map h (List.filter keep l).
Proof.
  induction l as [|a l IH]; intros Hg; [reflexivity|]. simpl.
  destruct (Hg a) as [Hk Hh]; [left|]. rewrite Hk.
  rewrite IH by (intros x Hx; apply Hg; now right).
  destruct (keep a); [|reflexivity]. simpl. now rewrite Hh.
Qed.

(** X8. After [createPlan], the plans of the plan's owner are the plans
    the owner had before, in the same order, each with the same id, owner,
    name, workout plan and diet plan as before and with [isActive] false,
    followed by the new plan; so [getUserPlans] lists the new plan first
    and the earlier ones, switched off, after it.  When the new plan is
    created with [isActive = false], the owner is left without any active
    plan. *)
Theorem createPlan_owner_plans (args : PlanArgs) (d : Db) :
  let d' := (createPlan args d).2 in
  let id := (createPlan args d).1 in
  let switchedOff := fun p : Plan =>
    mkPlan (planId p)
           (mkPlanArgs (userId (planFields p)) (name (planFields p))
                       (workoutPlan (planFields p)) (dietPlan (planFields p)) false) in
  plansOf (userId args) d' =
    (map switchedOff (plansOf (userId args) d) ++ [mkPlan id args])%list /\
  getUserPlans (userId args) d' =
    mkPlan id args :: map switchedOff (getUserPlans (userId args) d) /\
  (isActive args = false -> activePlansOf (userId args) d' = []).
Proof.
  intros d' id switchedOff.
  assert (E : switchedOff = deactivate) by reflexivity. rewrite E. clear E switchedOff.
  unfold d', id. clear d' id.
  destruct (createPlan_plans args d) as (Hplans & _ & _ & Hid).
  set (keep := fun p : Plan => bool_decide (userId (planFields p) = userId args)).
  assert (Hown : plansOf (userId args) (createPlan args d).2 =
                 (map deactivate (plansOf (userId args) d)
                  ++ [mkPlan (createPlan args d).1 args])%list).
  { unfold plansOf. fold keep. rewrite Hplans, Hid, List.filter_app.
    rewrite (filter_map_pointwise keep _ deactivate).
    - simpl. unfold keep at 2. simpl. now rewrite bool_decide_eq_true_2.
    - intros p Hp. split.
      + unfold keep. now destruct (decide _).
      + intros Hk. destruct (decide _) as [_|Hnot]; [reflexivity|].
        symmetry. apply deactivate_inactive.
        destruct (isActive (planFields p)) eqn:Ha; [|reflexivity].
        exfalso. apply Hnot. apply active_id_collected; [exact Hp|].
        unfold isActivePlanOf. fold (keep p). now rewrite Hk, Ha. }
  split; [exact Hown|]. split.
  - unfold getUserPlans. fold (plansOf (userId args) (createPlan args d).2).
    fold (plansOf (userId args) d). rewrite Hown, rev_app_distr. simpl.
    now rewrite map_rev.
  - intros Hinactive. unfold activePlansOf.
    assert (Heq : forall d0, List.filter (isActivePlanOf (userId args)) (plans d0) =
                             List.filter (fun p => isActive (planFields p))
                                         (plansOf (userId args) d0)).
    { intros d0. unfold plansOf. induction (plans d0) as [|p l IH]; [reflexivity|].
      simpl. unfold isActivePlanOf at 1.
      destruct (bool_decide _); simpl; [destruct (isActive _)|]; now rewrite IH. }
    rewrite Heq, Hown, List.filter_app. simpl. rewrite Hinactive.
    rewrite app_nil_r.
    assert (Hnone : forall l, List.filter (fun p => isActive (planFields p))
                                          (map deactivate l) = [])
      by (induction l as [|p l IH]; [reflexivity|exact IH]).
    apply Hnone.
Qed.

(** X9. In a database without duplicate ids, [createPlan] touches nothing
    of anybody else: the plans of every other user are exactly as before,
    the chat messages are unchanged, the id returned is new, and the
    database stays free of duplicate ids. *)
Theorem createPlan_leaves_other_users_alone (args : PlanArgs) (d : Db) (other : string) :
  wfDb d ->
  other <> userId args ->
  let d' := (createPlan args d).2 in
  plansOf other d' = plansOf other d /\
  activePlansOf other d' = activePlansOf other d /\
  chatMessages d' = chatMessages d /\
  ((createPlan args d).1 ∉ docIds d) /\
  wfDb d'.
Proof.
  intros [Hnd Hlt] Hother. cbv zeta.
  destruct (createPlan_plans args d) as (Hplans & Hchat & Hnext & Hid).
  assert (Hndp : NoDup (map planId (plans d))).
  { unfold docIds in Hnd. apply NoDup_app in Hnd. tauto. }
  assert (Hsame : forall p, p ∈ plans d -> userId (planFields p) = other ->
            (if decide (planId p ∈ map planId (activePlansOf (userId args) d))
             then deactivate p else p) = p).
  { intros p Hp Hu. destruct (decide _) as [Hin|_]; [|reflexivity]. exfalso.
    apply list_elem_of_fmap in Hin as (q & Hq & Hqin).
    apply list_elem_of_In, filter_In in Hqin as [Hqin Hact].
    apply list_elem_of_In in Hqin.
    assert (p = q) by (eapply NoDup_map_same; eauto). subst q.
    unfold isActivePlanOf in Hact. apply andb_true_iff in Hact as [Hu' _].
    apply bool_decide_eq_true in Hu'. congruence. }
  assert (Hfilter : forall keep : Plan -> bool,
            (forall p, keep p = true -> userId (planFields p) = other) ->
            (forall p, userId (planFields p) <> other -> keep p = false) ->
            List.filter keep (plans (createPlan args d).2) = List.filter keep (plans d)).
  { intros keep Hk Hk'. rewrite Hplans, List.filter_app. simpl.
    rewrite (Hk' (mkPlan (nextId d) args)) by (simpl; congruence).
    rewrite app_nil_r.
    rewrite <- (map_id (List.filter keep (plans d))).
    apply filter_map_pointwise. intros p Hp. split.
    - destruct (decide _) as [Hin|_]; [|reflexivity].
      destruct (decide (userId (planFields p) = other)) as [Hu|Hu].
      + rewrite <- (Hsame p Hp Hu) at 2. destruct (decide _); [reflexivity|contradiction].
      + rewrite (Hk' p Hu). apply Hk'. now rewrite userId_deactivate.
    - intros Hkp. apply Hsame; auto. }
  split; [|split; [|split; [exact Hchat|split]]].
  - apply Hfilter; auto.
    + intros p Hp. now apply bool_decide_eq_true in Hp.
    + intros p Hp. now apply bool_decide_eq_false.
  - apply Hfilter; auto.
    + intros p Hp. unfold isActivePlanOf in Hp. apply andb_true_iff in Hp as [Hp _].
      now apply bool_decide_eq_true in Hp.
    + intros p Hp. unfold isActivePlanOf. now rewrite bool_decide_eq_false_2.
  - rewrite Hid. intros Hin. rewrite Forall_forall in Hlt. specialize (Hlt _ Hin). lia.
  - assert (Hids : docIds (createPlan args d).2 = (docIds d ++ [nextId d])%list).
    { unfold docIds. rewrite Hplans, Hchat, map_app, map_map, app_assoc. simpl.
      do 2 f_equal. apply map_ext. intros p. now destruct (decide _). }
    split; rewrite Hids.
    + apply NoDup_app. split; [exact Hnd|]. split; [|apply NoDup_singleton].
      intros x Hx Hx'. apply list_elem_of_singleton in Hx'. subst.
      rewrite Forall_forall in Hlt. specialize (Hlt _ Hx). lia.
    + rewrite Hnext. apply Forall_app. split.
      * eapply Forall_impl; [exact Hlt|]. simpl. intros; lia.
      * repeat constructor.
Qed.

Lemma wfDb_crowdedDb : wfDb crowdedDb.
Proof.
  split; [apply (bool_decide_unpack _); vm_compute; exact I|].
  repeat constructor.
Qed.

Lemma createPlan_leaves_other_users_alone_witness :
  plansOf "bob" (createPlan (planFor "alice" "new") crowdedDb).2 =
    [mkPlan 1 (planFor "bob" "his")] /\
  activePlansOf "bob" (createPlan (planFor "alice" "new") crowdedDb).2 =
    [mkPlan 1 (planFor "bob" "his")].
Proof.
  destruct (createPlan_leaves_other_users_alone (planFor "alice" "new") crowdedDb "bob")
    as (H1 & H2 & _); [apply wfDb_crowdedDb|discriminate|].
  rewrite H1, H2. split; reflexivity.
Defined.

(** ** The table of messages *)

Lemma filter_none {A : Type} (f : A -> bool) (l : list A) :
  (forall x, x ∈ l -> f x = false) -> List.filter f l = [].
Proof.
  induction l as [|a l IH]; intros H; [reflexivity|]. simpl.
  rewrite (H a) by left. apply IH. intros x Hx. apply H. now right.
Qed.

Lemma filter_filter_and {A : Type} (f g : A -> bool) (l : list A) :
  List.filter f (List.filter g l) = List.filter (fun x => g x && f x) l.
Proof.
  induction l as [|a l IH]; [reflexivity|]. simpl.
  destruct (g a); simpl; [destruct (f a)|]; now rewrite IH.
Qed.

Lemma filter_pointwise {A : Type} (f g : A -> bool) (l : list A) :
  (forall x, x ∈ l -> f x = g x) -> List.filter f l = List.filter g l.
Proof.
  induction l as [|a l IH]; intros H; [reflexivity|]. simpl.
  rewrite (H a) by left. rewrite IH by (intros x Hx; apply H; now right). reflexivity.
Qed.

(** The delete loop of [clearMessages] removes exactly the documents whose
    id is the id of one of the collected messages. *)
Lemma clear_loop (l : list ChatMessage) (d : Db) :
  let d' := foldl (fun db message =>
                     mkDb (List.filter (fun m => negb (bool_decide (msgId m = msgId message)))
                                       (chatMessages db))
                          (plans db) (nextId db)) d l in
  chatMessages d' =
    List.filter (fun m => negb (bool_decide (msgId m ∈ map msgId l))) (chatMessages d) /\
  plans d' = plans d /\ nextId d' = nextId d.
Proof.
  cbv zeta. revert d. induction l as [|a l IH]; intros d; simpl.
  - split; [|auto].
    induction (chatMessages d) as [|x xs IHx]; [reflexivity|]. simpl.
    now rewrite <- IHx.
  - destruct (IH (mkDb (List.filter (fun m => negb (bool_decide (msgId m = msgId a)))
                                    (chatMessages d)) (plans d) (nextId d)))
      as (-> & -> & ->). simpl. split; [|auto].
    rewrite filter_filter_and. apply filter_pointwise. intros x _.
    destruct (decide (msgId x = msgId a)) as [Heq|Hne].
    + rewrite (bool_decide_eq_true_2 _ Heq). simpl. symmetry.
      apply negb_false_iff, bool_decide_eq_true. rewrite Heq. left.
    + rewrite (bool_decide_eq_false_2 _ Hne). simpl. f_equal.
      apply bool_decide_ext. split; [now right|].
      intros H. inversion H; subst; [contradiction|assumption].
Qed.

Lemma NoDup_map_filter_app {A B : Type} (f : A -> B) (g : A -> bool) (l : list A) (k : list B) :
  NoDup (map f l ++ k) -> NoDup (map f (List.filter g l) ++ k).
Proof.
  induction l as [|a l IH]; simpl; intros H; [exact H|].
  apply NoDup_cons in H as [Hna Hnd]. destruct (g a); [|now apply IH].
  simpl. apply NoDup_cons. split; [|now apply IH].
  intros Hin. apply Hna. apply elem_of_app in Hin as [Hin|Hin];
    apply elem_of_app; [left|now right].
  apply list_elem_of_fmap in Hin as (x & -> & Hx). apply list_elem_of_fmap.
  exists x. split; [reflexivity|]. apply list_elem_of_In in Hx.
  apply filter_In in Hx as [Hx _]. now apply list_elem_of_In.
Qed.

(** X10. [addMessage] followed by [getMessages]: the new message, with
    the id that was returned, is the last message of its user; the
    messages of every other user and the plans are unchanged; and a
    database without duplicate ids stays one, the id being new. *)
Theorem addMessage_then_getMessages
    (owner : string) (r : Role) (text : string) (now : Z) (d : Db) :
  wfDb d ->
  let d' := (addMessage owner r text now d).2 in
  let id := (addMessage owner r text now d).1 in
  getMessages owner d' = (getMessages owner d ++ [mkChatMessage id owner r text now])%list /\
  (forall other, other <> owner -> getMessages other d' = getMessages other d) /\
  plans d' = plans d /\
  (id ∉ docIds d) /\
  wfDb d'.
Proof.
  intros [Hnd Hlt]. cbv zeta. split; [apply getMessages_addMessage|].
  split; [|split; [reflexivity|split]].
  - intros other Hother. unfold getMessages, addMessage. simpl.
    rewrite List.filter_app. simpl.
    rewrite bool_decide_eq_false_2 by congruence. apply app_nil_r.
  - simpl. intros Hin. rewrite Forall_forall in Hlt. specialize (Hlt _ Hin). lia.
  - assert (Hperm : docIds (addMessage owner r text now d).2 ≡ₚ nextId d :: docIds d).
    { unfold docIds, addMessage. simpl. rewrite map_app. simpl.
      rewrite <- app_assoc. simpl. symmetry. apply Permutation_middle. }
    split.
    + rewrite Hperm. apply NoDup_cons. split; [|exact Hnd].
      intros Hin. rewrite Forall_forall in Hlt. specialize (Hlt _ Hin). lia.
    + rewrite Hperm. constructor; [simpl; lia|].
      eapply Forall_impl; [exact Hlt|]. simpl. intros; lia.
Qed.

Lemma addMessage_then_getMessages_witness :
  map content (getMessages "alice" (addMessage "alice" user "hello" 7 twelveTurnsDb).2) =
    (map (fun n : nat => pretty n) (seq 0 12) ++ ["hello"])%list /\
  getMessages "bob" (addMessage "alice" user "hello" 7 twelveTurnsDb).2 = [].
Proof.
  destruct (addMessage_then_getMessages "alice" user "hello" 7 twelveTurnsDb)
    as (H1 & H2 & _).
  - split; [apply (bool_decide_unpack _); vm_compute; exact I|].
    apply Forall_forall. intros x Hx. apply list_elem_of_In in Hx.
    vm_compute in Hx. simpl. intuition lia.
  - rewrite H1, (H2 "bob") by discriminate. split; vm_compute; reflexivity.
Defined.

(** X11. [clearMessages] deletes every message of the user and, in a
    database without duplicate ids, nothing else: the messages of every
    other user, the plans and the id counter are as before, and the
    database stays free of duplicate ids. *)
Theorem clearMessages_clears_only_the_owner (owner : string) (d : Db) :
  wfDb d ->
  let d' := clearMessages owner d in
  getMessages owner d' = [] /\
  (forall other, other <> owner -> getMessages other d' = getMessages other d) /\
  plans d' = plans d /\ nextId d' = nextId d /\
  wfDb d'.
Proof.
  intros [Hnd Hlt]. cbv zeta. unfold clearMessages.
  destruct (clear_loop (getMessages owner d) d) as (Hchat & Hplans & Hnext).
  cbv zeta in Hchat, Hplans, Hnext.
  set (d' := foldl _ d (getMessages owner d)) in *.
  assert (Hndm : NoDup (map msgId (chatMessages d))).
  { unfold docIds in Hnd. apply NoDup_app in Hnd. tauto. }
  split; [|split; [|split; [exact Hplans|split; [exact Hnext|]]]].
  - unfold getMessages at 1. rewrite Hchat, filter_filter_and.
    apply filter_none. intros x Hx.
    destruct (bool_decide (msgUserId x = owner)) eqn:Hu; [|apply andb_false_r].
    rewrite andb_true_r. apply negb_false_iff, bool_decide_eq_true.
    apply list_elem_of_fmap. exists x. split; [reflexivity|].
    apply list_elem_of_In, filter_In. split; [now apply list_elem_of_In|exact Hu].
  - intros other Hother. unfold getMessages at 1. rewrite Hchat, filter_filter_and.
    apply filter_pointwise. intros x Hx.
    destruct (bool_decide (msgUserId x = other)) eqn:Hu; [|apply andb_false_r].
    rewrite andb_true_r. apply negb_true_iff, bool_decide_eq_false.
    intros Hin. apply list_elem_of_fmap in Hin as (y & Hy & Hyin).
    apply list_elem_of_In, filter_In in Hyin as [Hyin Hyo].
    apply list_elem_of_In in Hyin.
    assert (x = y) by (eapply NoDup_map_same; eauto). subst y.
    apply bool_decide_eq_true in Hu, Hyo. congruence.
  - unfold wfDb, docIds. rewrite Hchat, Hplans, Hnext. split.
    + now apply NoDup_map_filter_app.
    + unfold docIds in Hlt. apply Forall_app in Hlt as [Hm Hp].
      apply Forall_app. split; [|exact Hp].
      apply Forall_forall. intros id Hid.
      apply list_elem_of_fmap in Hid as (x & -> & Hx).
      apply list_elem_of_In, filter_In in Hx as [Hx _].
      rewrite Forall_forall in Hm. apply Hm. apply list_elem_of_fmap.
      exists x. split; [reflexivity|now apply list_elem_of_In].
Qed.

Lemma clearMessages_clears_only_the_owner_witness :
  getMessages "alice" (clearMessages "alice" mixedDb) = [] /\
  map content (getMessages "bob" (clearMessages "alice" mixedDb)) = ["hello"; "hey"] /\
  plans (clearMessages "alice" mixedDb) = plans mixedDb.
Proof.
  destruct (clearMessages_clears_only_the_owner "alice" mixedDb) as (H1 & H2 & H3 & _).
  - split; [apply (bool_decide_unpack _); vm_compute; exact I|]. repeat constructor.
  - rewrite H1, (H2 "bob"), H3 by discriminate. repeat split.
Defined.

(** ** Validation of plans, once more *)

Lemma numberOr_number x d y : numberOr x d = inr y -> exists n, y = JNum n.
Proof. intros H. apply numberOr_fixed in H. destruct H; eauto. Qed.

Lemma mapF_idem {A : Type} (f : A -> Fallible A) xs ys :
  (forall x y, f x = inr y -> f y = inr y) ->
  mapF f xs = inr ys -> mapF f ys = inr ys.
Proof.
  intros Hf. revert ys. induction xs as [|x xs IH]; simpl; intros ys H.
  - now inversion H.
  - destruct (f x) as [?|y] eqn:Hx; simpl in H; [discriminate|].
    destruct (mapF f xs) as [?|ys'] eqn:Hxs; simpl in H; [discriminate|].
    inversion H; subst. simpl. rewrite (Hf _ _ Hx), (IH ys' eq_refl). reflexivity.
Qed.

Lemma validateRoutine_shape routine routine' :
  validateRoutine routine = inr routine' ->
  exists s r,
    routine' = JObj (<["reps" := JNum r]> (<["sets" := JNum s]> (spread routine))).
Proof.
  unfold validateRoutine.
  destruct (getProp routine "sets") as [?|rawSets]; simpl; [discriminate|].
  destruct (numberOr rawSets 3) as [?|sets'] eqn:Hs; simpl; [discriminate|].
  destruct (getProp routine "reps") as [?|rawReps]; simpl; [discriminate|].
  destruct (numberOr rawReps 10) as [?|reps'] eqn:Hr; simpl; [discriminate|].
  apply numberOr_number in Hs as (s & ->). apply numberOr_number in Hr as (r & ->).
  intros H; inversion H. eauto.
Qed.

Lemma validateRoutine_idem routine routine' :
  validateRoutine routine = inr routine' -> validateRoutine routine' = inr routine'.
Proof.
  intros H. apply validateRoutine_shape in H as (s & r & ->).
  unfold validateRoutine. cbn [getProp spread fbind].
  rewrite lookup_insert_ne by discriminate. rewrite !lookup_insert_eq.
  cbn [default from_option id numberOr fbind].
  do 2 f_equal. rewrite insert_insert_ne by discriminate.
  rewrite insert_insert_eq. rewrite insert_insert_ne by discriminate.
  now rewrite insert_insert_eq.
Qed.

Lemma validateExercise_shape exercise exercise' :
  validateExercise exercise = inr exercise' ->
  exists rs rs',
    getPropOpt exercise "routines" = JArr rs /\
    mapF validateRoutine rs = inr rs' /\
    exercise' = JObj (<["routines" := JArr rs']> (spread exercise)).
Proof.
  unfold validateExercise.
  destruct (getProp exercise "routines") as [?|routines0] eqn:Hr; simpl; [discriminate|].
  destruct (arrayMap routines0 validateRoutine) as [?|routines1] eqn:Hm; simpl; [discriminate|].
  intros H; inversion H; subst; clear H.
  apply getProp_inr in Hr.
  apply arrayMap_inr in Hm as (rs & rs' & Hrs & Hrs' & Hmap).
  exists rs, rs'. rewrite <- Hr, Hrs, Hrs'. auto.
Qed.

Lemma validateExercise_idem exercise exercise' :
  validateExercise exercise = inr exercise' -> validateExercise exercise' = inr exercise'.
Proof.
  intros H. apply validateExercise_shape in H as (rs & rs' & _ & Hmap & ->).
  unfold validateExercise. cbn [getProp spread fbind].
  rewrite lookup_insert_eq. cbn [default from_option id arrayMap].
  rewrite (mapF_idem validateRoutine rs rs' validateRoutine_idem Hmap).
  cbn [fbind]. now rewrite insert_insert_eq.
Qed.

Lemma validateWorkoutPlan_shape plan plan' :
  validateWorkoutPlan plan = inr plan' ->
  (truthy (getPropOpt plan "exercises") = false /\ plan' = plan) \/
  (exists (fields : gmap string JsValue) exs exs',
     plan = JObj fields /\ fields !! "exercises" = Some (JArr exs) /\
     mapF validateExercise exs = inr exs' /\
     plan' = JObj (<["exercises" := JArr exs']> fields)).
Proof.
  intros Hv. unfold validateWorkoutPlan in Hv.
  destruct (getProp plan "exercises") as [?|exercises0] eqn:He; simpl in Hv; [discriminate|].
  apply getProp_inr in He. destruct (truthy exercises0) eqn:Ht.
  - right.
    destruct (arrayMap exercises0 validateExercise) as [?|exercises1] eqn:Hm;
      simpl in Hv; [discriminate|].
    apply arrayMap_inr in Hm as (exs & exs' & Hexs & Hexs' & Hmap).
    rewrite Hexs in He. rewrite Hexs' in Hv. clear Hexs Hexs' Ht.
    destruct plan as [| | | | | |fields]; simpl in He; try discriminate.
    inversion Hv; subst; clear Hv. exists fields, exs, exs'.
    repeat split; auto.
    destruct (fields !! "exercises") as [v|]; simpl in He; [now subst|discriminate].
  - left. inversion Hv; subst. auto.
Qed.

Lemma keepsOtherFields_insert changed k v x :
  k ∈ changed -> keepsOtherFields changed v (JObj (<[k := x]> (spread v))).
Proof.
  intros Hk. eexists. split; [reflexivity|]. intros k' Hk'.
  apply lookup_insert_ne. intros ->. contradiction.
Qed.

(** X12. Validating a workout plan twice changes nothing more: the result
    of [validateWorkoutPlan] is accepted by it again and returned as it
    is.  The validation keeps the number and order of exercises and of
    routines, and every field of the plan, of an exercise and of a routine
    other than exercises, routines, sets and reps (the schedule, the day,
    the name, but also any field the schema does not have). *)
Theorem validateWorkoutPlan_idempotent (plan plan' : JsValue) :
  validateWorkoutPlan plan = inr plan' ->
  validateWorkoutPlan plan' = inr plan' /\
  (plan' = plan \/ keepsOtherFields ["exercises"] plan plan') /\
  Forall2 (keepsOtherFields ["routines"]) (exercisesOf plan) (exercisesOf plan') /\
  Forall2 (keepsOtherFields ["sets"; "reps"]) (routinesOf plan) (routinesOf plan').
Proof.
  intros Hv.
  destruct (validateWorkoutPlan_shape _ _ Hv)
    as [[Hf ->] | (fields & exs & exs' & -> & Hexs & Hmap & ->)].
  - split; [exact Hv|]. split; [now left|].
    unfold exercisesOf, routinesOf.
    destruct (getPropOpt plan "exercises"); try discriminate; split; constructor.
  - assert (Hex : Forall2 (fun ex ex' =>
                    keepsOtherFields ["routines"] ex ex' /\
                    Forall2 (keepsOtherFields ["sets"; "reps"])
                            (routinesOfExercise ex) (routinesOfExercise ex')) exs exs').
    { eapply mapF_Forall2; [|exact Hmap]. intros ex ex' H.
      apply validateExercise_shape in H as (rs & rs' & Hrs & Hmap' & ->). split.
      - apply keepsOtherFields_insert. left.
      - unfold routinesOfExercise. rewrite Hrs. simpl. rewrite lookup_insert_eq. simpl.
        eapply mapF_Forall2; [|exact Hmap']. intros r r' Hr.
        apply validateRoutine_shape in Hr as (s & n & ->).
        eexists. split; [reflexivity|]. intros k Hk.
        rewrite !lookup_insert_ne; [reflexivity| |]; intros <-; apply Hk;
          [left|right; left]. }
    split; [|split; [|split]].
    + unfold validateWorkoutPlan. cbn [getProp fbind]. rewrite lookup_insert_eq.
      cbn [default from_option id truthy arrayMap].
      rewrite (mapF_idem validateExercise exs exs' validateExercise_idem Hmap).
      cbn [fbind]. now rewrite insert_insert_eq.
    + right. apply (keepsOtherFields_insert _ _ (JObj fields)). left.
    + unfold exercisesOf. simpl. rewrite Hexs, lookup_insert_eq. simpl.
      eapply Forall2_impl; [exact Hex|]. now intros ? ? [? _].
    + unfold routinesOf. simpl. rewrite Hexs, lookup_insert_eq. simpl.
      apply Forall2_concat, Forall2_map_both.
      eapply Forall2_impl; [exact Hex|]. now intros ? ? [_ ?].
Qed.

Lemma validateWorkoutPlan_idempotent_witness :
  validateWorkoutPlan zeroSetsPlanFixed = inr zeroSetsPlanFixed /\
  List.length (routinesOf zeroSetsPlanFixed) = List.length (routinesOf zeroSetsPlan).
Proof.
  destruct (validateWorkoutPlan_idempotent zeroSetsPlan zeroSetsPlanFixed)
    as (H1 & _ & _ & H2); [vm_compute; reflexivity|].
  split; [exact H1|]. symmetry. eapply Forall2_length, H2.
Defined.

Lemma validateMeal_shape meal meal' :
  validateMeal meal = inr meal' ->
  nullish meal = false /\
  meal' = JObj (<["foods" := getPropOpt meal "foods"]> {["name" := getPropOpt meal "name"]}).
Proof.
  unfold validateMeal.
  destruct (getProp meal "name") as [?|n] eqn:Hn; simpl; [discriminate|].
  destruct (getProp meal "foods") as [?|fs] eqn:Hf; simpl; [discriminate|].
  assert (Hnn : nullish meal = false) by (destruct meal; simpl in Hn; try reflexivity; discriminate).
  apply getProp_inr in Hn as ->. apply getProp_inr in Hf as ->.
  intros H; inversion H. split; [exact Hnn|reflexivity].
Qed.

Lemma validateMeal_idem meal meal' :
  validateMeal meal = inr meal' -> validateMeal meal' = inr meal'.
Proof.
  intros H. apply validateMeal_shape in H as (_ & ->).
  unfold validateMeal. cbn [getProp fbind].
  rewrite lookup_insert_eq. rewrite lookup_insert_ne by discriminate.
  rewrite lookup_singleton_eq. reflexivity.
Qed.

Lemma validateDietPlan_shape plan plan' :
  validateDietPlan plan = inr plan' ->
  exists c ms ms',
    numberOr (getPropOpt plan "dailyCalories") 2000 = inr (JNum c) /\
    getPropOpt plan "meals" = JArr ms /\
    mapF validateMeal ms = inr ms' /\
    plan' = JObj (<["meals" := JArr ms']> {["dailyCalories" := JNum c]}).
Proof.
  unfold validateDietPlan.
  destruct (getProp plan "dailyCalories") as [?|raw] eqn:Hc; simpl; [discriminate|].
  apply getProp_inr in Hc as ->.
  destruct (numberOr _ 2000) as [?|dc] eqn:Hn; simpl; [discriminate|].
  destruct (numberOr_number _ _ _ Hn) as (c & ->).
  destruct (getProp plan "meals") as [?|meals0] eqn:Hm; simpl; [discriminate|].
  apply getProp_inr in Hm as ->.
  destruct (arrayMap _ validateMeal) as [?|meals1] eqn:Ha; simpl; [discriminate|].
  apply arrayMap_inr in Ha as (ms & ms' & Hms & -> & Hmap).
  intros H; inversion H. exists c, ms, ms'. auto.
Qed.

(** X13. Whatever [validateDietPlan] returns is an object with exactly the
    two fields dailyCalories and meals: dailyCalories is a number (the
    given number, or what [parseInt] reads, or 2000), and each meal is
    re-projected, in order, to an object with exactly the fields name and
    foods of the meal it comes from, every other field being dropped.
    Validating the result again returns it unchanged. *)
Theorem validateDietPlan_reprojects (plan plan' : JsValue) :
  validateDietPlan plan = inr plan' ->
  completeDiet plan' /\
  fixedField 2000 (getPropOpt plan "dailyCalories") (getPropOpt plan' "dailyCalories") /\
  Forall2 (fun meal meal' =>
             meal' = JObj (<["foods" := getPropOpt meal "foods"]>
                           {["name" := getPropOpt meal "name"]}))
          (mealsOf plan) (mealsOf plan') /\
  validateDietPlan plan' = inr plan'.
Proof.
  intros Hv. apply validateDietPlan_shape in Hv as (c & ms & ms' & Hc & Hms & Hmap & ->).
  assert (H2 : Forall2 (fun meal meal' =>
                 meal' = JObj (<["foods" := getPropOpt meal "foods"]>
                               {["name" := getPropOpt meal "name"]})) ms ms').
  { eapply mapF_Forall2; [|exact Hmap]. intros m m' H.
    now apply validateMeal_shape in H as (_ & ->). }
  split; [|split; [|split]].
  - exists c, ms'. split; [reflexivity|].
    clear Hmap Hms. induction H2 as [|m m' l l' -> _ IH]; [constructor|].
    constructor; [|exact IH]. now eexists _, _.
  - simpl. rewrite lookup_insert_ne by discriminate. rewrite lookup_singleton_eq. simpl.
    now apply numberOr_fixed.
  - unfold mealsOf. rewrite Hms. simpl. rewrite lookup_insert_eq. exact H2.
  - unfold validateDietPlan. cbn [getProp fbind].
    rewrite lookup_insert_ne by discriminate. rewrite lookup_singleton_eq, lookup_insert_eq.
    cbn [default from_option id numberOr fbind arrayMap].
    rewrite (mapF_idem validateMeal ms ms' validateMeal_idem Hmap). reflexivity.
Qed.

Lemma validateDietPlan_reprojects_witness :
  exists plan',
    validateDietPlan dietPlanParsed = inr plan' /\
    completeDiet plan' /\
    getPropOpt plan' "dailyCalories" = JNum (numOfZ 2200) /\
    validateDietPlan plan' = inr plan'.
Proof.
  destruct (validateDietPlan dietPlanParsed) as [|plan'] eqn:Hv;
    [vm_compute in Hv; discriminate|].
  destruct (validateDietPlan_reprojects dietPlanParsed plan' Hv) as (H1 & _ & _ & H4).
  exists plan'. split; [reflexivity|]. split; [exact H1|]. split; [|exact H4].
  vm_compute in Hv. inversion Hv. vm_compute. reflexivity.
Defined.

(** X14. The validation returns a plan only when the arrays are there:
    [validateDietPlan] raises unless meals is an array without null
    entries, and [validateWorkoutPlan] raises unless exercises is absent
    or falsy, or is an array whose every entry has an array of routines
    without null entries.  In particular a diet object without meals and
    an exercise without routines make the validation raise. *)
Theorem validation_raises_without_arrays (plan : JsValue) :
  ((forall ms, getPropOpt plan "meals" = JArr ms ->
               Exists (fun m => nullish m = true) ms) ->
   exists fault, validateDietPlan plan = inl fault) /\
  (truthy (getPropOpt plan "exercises") = true ->
   (forall exs, getPropOpt plan "exercises" = JArr exs ->
      Exists (fun ex => forall rs, getPropOpt ex "routines" = JArr rs ->
                                   Exists (fun r => nullish r = true) rs) exs) ->
   exists fault, validateWorkoutPlan plan = inl fault).
Proof.
  split.
  - intros Hno. destruct (validateDietPlan plan) as [f|plan'] eqn:Hv; [eauto|]. exfalso.
    apply validateDietPlan_shape in Hv as (c & ms & ms' & _ & Hms & Hmap & _).
    specialize (Hno ms Hms). apply Exists_exists in Hno as (m & Hin & Hnull).
    assert (Hall : Forall (fun m => nullish m = false) ms).
    { clear Hin Hms. revert ms' Hmap.
      induction ms as [|a l IH]; intros ms' Hmap; [constructor|].
      simpl in Hmap. destruct (validateMeal a) as [|a'] eqn:Ha; [discriminate|].
      simpl in Hmap. destruct (mapF validateMeal l) as [|l'] eqn:Hl; [discriminate|].
      constructor; [now apply validateMeal_shape in Ha|eauto]. }
    rewrite Forall_forall in Hall. specialize (Hall m Hin). congruence.
  - intros Ht Hno. destruct (validateWorkoutPlan plan) as [f|plan'] eqn:Hv; [eauto|]. exfalso.
    apply validateWorkoutPlan_shape in Hv
      as [[Hf _] | (fields & exs & exs' & -> & Hexs & Hmap & _)]; [congruence|].
    assert (Hg : getPropOpt (JObj fields) "exercises" = JArr exs) by (simpl; now rewrite Hexs).
    specialize (Hno exs Hg). apply Exists_exists in Hno as (ex & Hin & Hbad).
    assert (Hall : Forall (fun ex => exists rs, getPropOpt ex "routines" = JArr rs /\
                                       Forall (fun r => nullish r = false) rs) exs).
    { clear Hin Hg Hexs. revert exs' Hmap.
      induction exs as [|a l IH]; intros exs' Hmap; [constructor|].
      simpl in Hmap. destruct (validateExercise a) as [|a'] eqn:Ha; [discriminate|].
      simpl in Hmap. destruct (mapF validateExercise l) as [|l'] eqn:Hl; [discriminate|].
      constructor; [|eauto].
      apply validateExercise_shape in Ha as (rs & rs' & Hrs & Hmr & _).
      exists rs. split; [exact Hrs|]. clear Hrs. revert rs' Hmr.
      induction rs as [|r rs IHr]; intros rs' Hmr; [constructor|].
      simpl in Hmr. destruct (validateRoutine r) as [|r'] eqn:Hr; [discriminate|].
      simpl in Hmr. destruct (mapF validateRoutine rs) as [|rs''] eqn:Hrs; [discriminate|].
      constructor; [|eauto]. unfold validateRoutine in Hr. now destruct r. }
    rewrite Forall_forall in Hall. destruct (Hall ex Hin) as (rs & Hrs & Hnn).
    specialize (Hbad rs Hrs). apply Exists_exists in Hbad as (r & Hr & Hnull).
    rewrite Forall_forall in Hnn. specialize (Hnn r Hr). congruence.
Qed.

Lemma validation_raises_without_arrays_witness :
  (exists fault, validateDietPlan (JObj {["dailyCalories" := JNum (numOfZ 2000)]}) = inl fault) /\
  (exists fault,
     validateWorkoutPlan
       (JObj {["exercises" := JArr [JObj {["day" := JStr "Monday"]}]]}) = inl fault).
Proof.
  split.
  - apply (validation_raises_without_arrays
             (JObj {["dailyCalories" := JNum (numOfZ 2000)]})).
    intros ms H. vm_compute in H. discriminate.
  - apply (validation_raises_without_arrays
             (JObj {["exercises" := JArr [JObj {["day" := JStr "Monday"]}]]}));
      [reflexivity|].
    intros exs H. vm_compute in H. inversion H; subst.
    apply Exists_cons_hd. intros rs Hrs. vm_compute in Hrs. discriminate.
Defined.

(** ** Validation and the validators of [createPlan] *)

Lemma mapM_asString (strs : list string) : mapM asString (map JStr strs) = Some strs.
Proof. induction strs as [|x l IH]; [reflexivity|]. simpl. now rewrite IH. Qed.

(** X15. What [validateDietPlan] makes of a meal passes the validator of
    [createPlan] whenever the meal has a string name and an array of
    strings as foods, whatever else it has, since extra fields are dropped.
    [validateWorkoutPlan] keeps extra fields: what it makes of a routine
    object with a field other than name, sets and reps is rejected by the
    validator of [createPlan]. *)
Theorem validation_against_createPlan_validators :
  (forall (fields : gmap string JsValue) n strs,
     fields !! "name" = Some (JStr n) ->
     fields !! "foods" = Some (JArr (map JStr strs)) ->
     exists meal', validateMeal (JObj fields) = inr meal' /\
                   asMeal meal' = Some (mkMeal n strs)) /\
  (forall (fields : gmap string JsValue) k routine',
     is_Some (fields !! k) -> k <> "name" -> k <> "sets" -> k <> "reps" ->
     validateRoutine (JObj fields) = inr routine' ->
     asRoutine routine' = None).
Proof.
  split.
  - intros fields n strs Hn Hf. unfold validateMeal. cbn [getProp fbind].
    rewrite Hn, Hf. cbn [default from_option id]. eexists. split; [reflexivity|].
    unfold asMeal, asObject.
    destruct (decide _) as [_|Hne].
    + cbn [mbind option_bind].
      rewrite (lookup_insert_ne _ "foods" "name") by discriminate.
      rewrite lookup_singleton_eq, lookup_insert_eq. cbn [mbind option_bind asString asArray].
      rewrite mapM_asString. reflexivity.
    + exfalso. apply Hne. rewrite dom_insert_L, dom_singleton_L. set_solver.
  - intros fields k routine' Hk H1 H2 H3 Hv.
    apply validateRoutine_shape in Hv as (s & r & ->).
    unfold asRoutine, asObject. destruct (decide _) as [Heq|_]; [|reflexivity].
    exfalso. assert (Hin : k ∈ dom (<["reps" := JNum r]> (<["sets" := JNum s]> fields))).
    { rewrite !dom_insert_L. apply elem_of_union_r, elem_of_union_r.
      now apply elem_of_dom. }
    simpl in Heq. rewrite Heq in Hin.
    rewrite !elem_of_union, !elem_of_singleton, elem_of_empty in Hin. intuition congruence.
Qed.

Lemma validation_against_createPlan_validators_witness :
  (exists meal', validateMeal mealWithNote = inr meal' /\
                 asMeal meal' = Some (mkMeal "Breakfast" ["Oatmeal"; "Tea"])) /\
  (exists routine', validateRoutine routineWithNote = inr routine' /\
                    asRoutine routine' = None).
Proof.
  destruct validation_against_createPlan_validators as [Hmeal Hroutine]. split.
  - apply (Hmeal _ "Breakfast" ["Oatmeal"; "Tea"]); reflexivity.
  - destruct (validateRoutine routineWithNote) as [|routine'] eqn:Hv;
      [vm_compute in Hv; discriminate|].
    exists routine'. split; [reflexivity|].
    eapply (Hroutine _ "note"); [| | | |exact Hv]; try discriminate.
    vm_compute. eauto.
Defined.

(** ** The conversation window in general *)

(** X16. Whatever the number of stored turns, the history built by
    [generateResponse] leaves out the newest turn and consists of the
    turns right before it, at most 10 of them: all earlier turns when
    there are at most 10, the last 10 of them otherwise.  Each entry has
    the text of its turn and the role "user" for a turn of the user and
    "model" for a turn of the assistant, and the entries are in the order
    of the turns. *)
Theorem conversationHistory_window (prior : list ChatMessage) (newest : ChatMessage) :
  let entry := fun turn : ChatMessage =>
    mkContent (match role turn with user => "user" | assistant => "model" end)
              (content turn) in
  conversationHistory (prior ++ [newest]) =
    map entry (drop (List.length prior - 10) prior) /\
  List.length (conversationHistory (prior ++ [newest])) = Nat.min 10 (List.length prior) /\
  ((List.length prior <= 10)%nat ->
   conversationHistory (prior ++ [newest]) = map entry prior) /\
  Forall (fun c => contentRole c = "user" \/ contentRole c = "model")
         (conversationHistory (prior ++ [newest])).
Proof.
  intros entry.
  assert (E : entry = toContent) by reflexivity. rewrite E. clear E entry.
  assert (H : conversationHistory (prior ++ [newest]) =
              map toContent (drop (List.length prior - 10) prior)).
  { unfold conversationHistory. now rewrite slice_window. }
  split; [exact H|]. split; [|split].
  - rewrite H, length_map, length_drop. lia.
  - intros Hle. rewrite H. replace (List.length prior - 10)%nat with 0%nat by lia.
    reflexivity.
  - rewrite H. apply Forall_fmap, Forall_forall. intros m _. simpl.
    destruct (role m); auto.
Qed.

(** ** The actions without retry *)

(** X17. The [analyzeFoodImage] of [convex/calories.ts] makes, with a
    credential, exactly one network call, to gemini-2.5-flash, whatever
    the provider answers; it waits on no timer and leaves the database
    alone, and every failure is an [Error] whose message starts with
    "Failed to analyze food image: ".  When the provider answers the
    first call with text the normaliser accepts, it returns the same
    analysis as the [analyzeFoodImage] with retry and fallback, which then
    makes one call as well, to gemini-2.0-flash, and waits on no timer. *)
Theorem analyzeFoodImage_single_call (imageData mimeType : string) (w : World) :
  apiKeyMissing w = false ->
  let out := analyzeFoodImage_single imageData mimeType w in
  requests out.2 =
    (requests w ++ [mkRequest "gemini-2.5-flash" (FoodImage imageData mimeType)])%list /\
  timers out.2 = timers w /\ db out.2 = db w /\
  (forall e, out.1 = Throw e ->
     exists cause, e = newError ("Failed to analyze food image: " +:+ cause)) /\
  (forall response t a,
     provider w (List.length (requests w))
       (mkRequest "gemini-2.5-flash" (FoodImage imageData mimeType)) = Ok response ->
     provider w (List.length (requests w))
       (mkRequest "gemini-2.0-flash" (FoodImage imageData mimeType)) = Ok response ->
     text response = Ok t -> parseFoodResponse t = inr a ->
     out.1 = Ok a /\
     (analyzeFoodImage imageData mimeType w).1 = Ok a /\
     requests (analyzeFoodImage imageData mimeType w).2 =
       (requests w ++ [mkRequest "gemini-2.0-flash" (FoodImage imageData mimeType)])%list /\
     timers (analyzeFoodImage imageData mimeType w).2 = timers w).
Proof.
  intros Hkey out. unfold out, analyzeFoodImage_single, tryCatch. rewrite Hkey.
  unfold bind, send, responseText, liftF, throw.
  split; [|split; [|split; [|split]]].
  - destruct (provider w _ _) as [resp|e]; [|reflexivity].
    destruct (text resp) as [t|e]; [|reflexivity].
    destruct (parseFoodResponse t); reflexivity.
  - destruct (provider w _ _) as [resp|e]; [|reflexivity].
    destruct (text resp) as [t|e]; [|reflexivity].
    destruct (parseFoodResponse t); reflexivity.
  - destruct (provider w _ _) as [resp|e]; [|reflexivity].
    destruct (text resp) as [t|e]; [|reflexivity].
    destruct (parseFoodResponse t); reflexivity.
  - intros e. destruct (provider w _ _) as [resp|e0]; [|intros [= <-]; eauto].
    destruct (text resp) as [t|e0]; [|intros [= <-]; eauto].
    destruct (parseFoodResponse t); [intros [= <-]; eauto|discriminate].
  - intros response t a H25 H20 Ht Hparse. rewrite H25, Ht, Hparse.
    split; [reflexivity|].
    assert (Hnew : analyzeFoodImage imageData mimeType w =
              (Ok a, withTimers
                       (withRequests w (requests w ++
                          [mkRequest "gemini-2.0-flash" (FoodImage imageData mimeType)]))
                       (timers w ++ []))).
    { rewrite analyzeFoodImage_run by exact Hkey. cbv zeta.
      unfold retrying, retryWithBackoff. change (Z.to_nat 3) with 3%nat.
      cbn [retryLoop]. unfold generateContent, visionRequest, send.
      rewrite H20. cbn [waits omap]. rewrite Ht, Hparse. reflexivity. }
    rewrite Hnew. repeat split; try reflexivity. simpl. apply app_nil_r.
Qed.

Lemma analyzeFoodImage_single_call_witness :
  let w := worldWith (Some "key") [Ok (answer appleResponse)] in
  map model (requests (analyzeFoodImage_single "aGVsbG8=" "image/png" w).2) =
    ["gemini-2.5-flash"] /\
  (analyzeFoodImage_single "aGVsbG8=" "image/png" w).1 =
    (analyzeFoodImage "aGVsbG8=" "image/png" w).1.
Proof.
  destruct (analyzeFoodImage_single_call "aGVsbG8=" "image/png"
              (worldWith (Some "key") [Ok (answer appleResponse)]))
    as (H1 & _ & _ & _ & H5); [reflexivity|].
  cbv zeta. split; [rewrite H1; reflexivity|].
  destruct (H5 (answer appleResponse) appleResponse
              {| foodName := JStr "Apple";
                 calories := JNum (numOfZ 95);
                 servingSize := JStr "Unknown";
                 confidence := JStr "low";
                 nutritionalInfo := {| protein := JStr "N/A"; carbs := JStr "N/A";
                                       fat := JStr "N/A"; fiber := JStr "N/A" |};
                 description := JStr "Could not analyze the food." |})
    as (Ha & Hb & _); [reflexivity|reflexivity|reflexivity|vm_compute; reflexivity|].
  now rewrite Ha, Hb.
Defined.

(** X18. The [generateResponse] without retry makes, with a credential,
    at most one network call and waits on no timer; it stores the user
    turn first, and every failure is an [Error] whose message starts with
    "Failed to generate AI response: ".  When the window of stored turns
    is empty or starts with a turn of the user, exactly one call is made,
    to gemini-2.5-flash, with the same window and message as the first
    call of the [generateResponse] with retry; when it starts with a turn
    of the assistant, the SDK rejects the history and no call is made.
    When the provider answers the first call with a text, both versions
    return that text and leave the same database. *)
Theorem generateResponse_single_call (owner userMessage : string) (w : World) :
  apiKeyMissing w = false ->
  let out := generateResponse_single owner userMessage w in
  let userTurn := mkChatMessage (nextId (db w)) owner user userMessage (now w) in
  let window := conversationHistory (getMessages owner (db w) ++ [userTurn]) in
  let accepted := forall c, head window = Some c -> contentRole c = "user" in
  timers out.2 = timers w /\
  (exists later, chatMessages (db out.2) = (chatMessages (db w) ++ userTurn :: later)%list) /\
  (forall e, out.1 = Throw e ->
     exists cause, e = newError ("Failed to generate AI response: " +:+ cause)) /\
  (accepted ->
   requests out.2 =
     (requests w ++ [mkRequest "gemini-2.5-flash" (ChatTurn window userMessage)])%list) /\
  ((exists c, head window = Some c /\ contentRole c = "model") ->
   requests out.2 = requests w /\
   out.1 = Throw (newError ("Failed to generate AI response: " +:+
                            "[GoogleGenerativeAI Error]: " +:+
                            "First content should be with role 'user', got model"))) /\
  (forall response t,
     accepted ->
     provider w (List.length (requests w))
       (mkRequest "gemini-2.5-flash" (ChatTurn window userMessage)) = Ok response ->
     provider w (List.length (requests w))
       (mkRequest "gemini-2.0-flash" (ChatTurn window userMessage)) = Ok response ->
     text response = Ok t ->
     out.1 = Ok t /\
     (generateResponse owner userMessage w).1 = Ok t /\
     db (generateResponse owner userMessage w).2 = db out.2 /\
     timers (generateResponse owner userMessage w).2 = timers w /\
     requests (generateResponse owner userMessage w).2 =
       (requests w ++ [mkRequest "gemini-2.0-flash" (ChatTurn window userMessage)])%list).
Proof.
  intros Hkey out userTurn window accepted.
  assert (Hhist : conversationHistory
                    (getMessages owner (addMessage owner user userMessage (now w) (db w)).2)
                  = window).
  { unfold window, userTurn. now rewrite getMessages_addMessage. }
  set (wrap := fun e : Thrown =>
         newError ("Failed to generate AI response: " +:+
                   match e with ErrorObj _ m => m | NonError _ => "Unknown error occurred" end)).
  assert (Hout : out =
    let w1 := withDb w (addMessage owner user userMessage (now w) (db w)).2 in
    let w2 := withRequests w1
                (requests w ++ [mkRequest "gemini-2.5-flash" (ChatTurn window userMessage)]) in
    match validateChatHistory false window with
    | Throw e => (Throw (wrap e), w1)
    | Ok _ =>
        match provider w (List.length (requests w))
                (mkRequest "gemini-2.5-flash" (ChatTurn window userMessage)) with
        | Ok response =>
            match text response with
            | Ok t => (Ok t, withDb w2 (addMessage owner assistant t (now w) (db w1)).2)
            | Throw e => (Throw (wrap e), w2)
            end
        | Throw e => (Throw (wrap e), w2)
        end
    end).
  { unfold out, generateResponse_single, tryCatch. rewrite Hkey.
    unfold bind at 1. unfold runAddMessage at 1. cbn [addMessage].
    unfold bind at 1. unfold runGetMessages at 1.
    rewrite db_withDb.
    change (getMessages owner _) with
      (getMessages owner (addMessage owner user userMessage (now w) (db w)).2).
    rewrite Hhist. cbv zeta.
    unfold bind at 1. unfold chatting, chatRequest.
    destruct (validateChatHistory false window) as [[]|e]; [|reflexivity].
    unfold send. cbn [provider requests withDb].
    destruct (provider w _ _) as [resp|e]; [|reflexivity].
    destruct (candidate resp); destruct (text resp) as [t|e]; reflexivity. }
  assert (Hvalid : accepted -> validateChatHistory false window = Ok tt).
  { unfold accepted, window, conversationHistory. apply head_window_user. }
  assert (Hinvalid : (exists c, head window = Some c /\ contentRole c = "model") ->
                     validateChatHistory false window = Throw firstContentError).
  { unfold window, conversationHistory. apply head_window_model. }
  rewrite Hout. cbv zeta. split; [|split; [|split; [|split; [|split]]]].
  - destruct (validateChatHistory false window) as [[]|e]; [|reflexivity].
    destruct (provider w _ _) as [resp|e]; [destruct (text resp)|]; reflexivity.
  - destruct (validateChatHistory false window) as [[]|e]; [|now exists []].
    destruct (provider w _ _) as [resp|e]; [destruct (text resp)|]; simpl;
      [eexists; rewrite <- app_assoc; reflexivity|now exists []|now exists []].
  - intros e. destruct (validateChatHistory false window) as [[]|e0];
      [|intros [= <-]; unfold wrap; eauto].
    destruct (provider w _ _) as [resp|e0]; [destruct (text resp)|];
      [discriminate|intros [= <-]; unfold wrap; eauto|intros [= <-]; unfold wrap; eauto].
  - intros Hacc. rewrite (Hvalid Hacc).
    destruct (provider w _ _) as [resp|e]; [destruct (text resp)|]; reflexivity.
  - intros Hrej. rewrite (Hinvalid Hrej). split; reflexivity.
  - intros response t Hacc H25 H20 Ht. rewrite (Hvalid Hacc), H25, Ht. split; [reflexivity|].
    set (w1 := withDb w (addMessage owner user userMessage (now w) (db w)).2).
    assert (Hnew : generateResponse owner userMessage w =
              (Ok t,
               withDb (withTimers
                         (withRequests w1
                            (requests w ++
                             [mkRequest "gemini-2.0-flash" (ChatTurn window userMessage)]))
                         (timers w ++ []))
                      (addMessage owner assistant t (now w) (db w1)).2)).
    { rewrite generateResponse_run by exact Hkey. cbv zeta. fold w1.
      unfold w1 at 1. rewrite db_withDb, Hhist. fold w1.
      unfold retryingChat, retryWithBackoff. change (Z.to_nat 3) with 3%nat.
      cbn [retryLoop]. unfold generateContent, chatRequest, send.
      rewrite (Hvalid Hacc).
      change (provider w1) with (provider w). change (requests w1) with (requests w).
      rewrite H20. rewrite Ht. destruct (candidate response); reflexivity. }
    rewrite Hnew. repeat split; try reflexivity. simpl. apply app_nil_r.
Qed.

Lemma generateResponse_single_call_witness :
  map model (requests (generateResponse_single "alice" "How much protein?" chatWorld).2) =
    ["gemini-2.5-flash"] /\
  (generateResponse_single "alice" "How much protein?" chatWorld).1 = Ok "Drink water." /\
  (generateResponse "alice" "How much protein?" chatWorld).1 = Ok "Drink water." /\
  requests (generateResponse_single "alice" "How much protein?" unansweredWorld).2 = [].
Proof.
  destruct (generateResponse_single_call "alice" "How much protein?" chatWorld)
    as (_ & _ & _ & H1 & _ & H5); [reflexivity|].
  destruct (generateResponse_single_call "alice" "How much protein?" unansweredWorld)
    as (_ & _ & _ & _ & H6 & _); [reflexivity|].
  assert (Hacc : forall c,
            head (conversationHistory
                    (getMessages "alice" (db chatWorld) ++
                     [mkChatMessage (nextId (db chatWorld)) "alice" user "How much protein?"
                        (now chatWorld)])) = Some c ->
            contentRole c = "user") by (intros c [= <-]; reflexivity).
  split; [rewrite (H1 Hacc); reflexivity|].
  destruct (H5 (answer "Drink water.") "Drink water." Hacc) as (Ha & Hb & _);
    [reflexivity|reflexivity|reflexivity|].
  split; [exact Ha|]. split; [exact Hb|].
  destruct H6 as [H6 _]; [eexists; split; reflexivity|]. exact H6.
Defined.

(** ** Code fences *)

Lemma no_backtick_cons c rest :
  includes (String c rest) "`" = false -> c <> "`"%char /\ includes rest "`" = false.
Proof.
  cbn [includes]. intros H. apply orb_false_iff in H as [Hp Hr]. split; [|exact Hr].
  intros ->. cbn in Hp. now destruct rest.
Qed.

Lemma removeAll_no_backtick pat body tail :
  includes body "`" = false ->
  removeAll (String "`" pat) 0 (body +:+ tail) =
  body +:+ removeAll (String "`" pat) 0 tail.
Proof.
  induction body as [|c body IH]; intros H; [reflexivity|].
  apply no_backtick_cons in H as [Hc Hrest].
  change (String c body +:+ tail) with (String c (body +:+ tail)).
  cbn [removeAll String.prefix]. destruct (ascii_dec "`" c) as [<-|_]; [contradiction|].
  simpl. now rewrite IH.
Qed.

Lemma removeAll_opening s :
  removeAll "```json" 0 ("```json" +:+ str1 LF +:+ s) = removeAll "```json" 0 s /\
  removeAll "```" 0 ("```" +:+ str1 LF +:+ s) = removeAll "```" 0 s.
Proof. split; destruct s; reflexivity. Qed.

Lemma append_assoc (a b c : string) : (a +:+ b) +:+ c = a +:+ (b +:+ c).
Proof.
  induction a as [|x a IH]; [reflexivity|].
  change (String x ((a +:+ b) +:+ c) = String x (a +:+ (b +:+ c))). now f_equal.
Qed.

Lemma isWhiteSpace3_bytes c1 c2 c3 :
  isWhiteSpace3 c1 c2 c3 = true ->
  (128 <= nat_of_ascii c1 /\ 128 <= nat_of_ascii c2 /\ 128 <= nat_of_ascii c3)%nat.
Proof.
  unfold isWhiteSpace3. intros H.
  repeat match goal with
         | H : (_ || _) = true |- _ => apply orb_true_iff in H as [H|H]
         | H : (_ && _) = true |- _ =>
             let H1 := fresh in apply andb_true_iff in H as [H H1]
         | H : (_ =? _)%nat = true |- _ => apply Nat.eqb_eq in H
         | H : (_ <=? _)%nat = true |- _ => apply Nat.leb_le in H
         end; lia.
Qed.

(** A string that holds an ASCII character other than white space does
    not consist of white space only. *)
Lemma allWhiteSpace_ascii c b :
  (nat_of_ascii c < 128)%nat -> isWhiteSpace c = false ->
  forall n a, (String.length a <= n)%nat -> allWhiteSpace (a +:+ String c b) = false.
Proof.
  intros Hc Hws.
  assert (H2 : forall x, isWhiteSpace2 x c = false /\ isWhiteSpace2 c x = false).
  { intros x. unfold isWhiteSpace2. split.
    - apply andb_false_iff. right. apply Nat.eqb_neq. lia.
    - apply andb_false_iff. left. apply Nat.eqb_neq. lia. }
  assert (H3 : forall x y, isWhiteSpace3 c x y = false /\ isWhiteSpace3 x c y = false /\
                           isWhiteSpace3 x y c = false).
  { intros x y. repeat split;
      (destruct (isWhiteSpace3 _ _ _) eqn:E; [|reflexivity];
       apply isWhiteSpace3_bytes in E; lia). }
  induction n as [|n IH]; intros a Hlen.
  - destruct a; [|simpl in Hlen; lia]. simpl. rewrite Hws.
    destruct b as [|c2 [|c3 b]]; [reflexivity| |].
    + now rewrite (proj2 (H2 c2)).
    + rewrite (proj2 (H2 c2)). now rewrite (proj1 (H3 c2 c3)).
  - destruct a as [|c1 a]; [apply (IH ""); simpl; lia|].
    change (String c1 a +:+ String c b) with (String c1 (a +:+ String c b)).
    cbn [allWhiteSpace]. simpl in Hlen.
    destruct (isWhiteSpace c1); [apply IH; lia|].
    destruct a as [|c2 a].
    + simpl. rewrite (proj1 (H2 c1)). destruct b as [|c3 b]; [reflexivity|].
      now rewrite (proj1 (proj2 (H3 c1 c3))).
    + change (String c2 a +:+ String c b) with (String c2 (a +:+ String c b)).
      cbv iota. simpl in Hlen.
      destruct (isWhiteSpace2 c1 c2); [apply IH; lia|].
      destruct a as [|c3 a].
      * simpl. now rewrite (proj2 (proj2 (H3 c1 c2))).
      * change (String c3 a +:+ String c b) with (String c3 (a +:+ String c b)).
        cbv iota. simpl in Hlen. rewrite (IH a) by lia. apply andb_false_r.
Qed.

(** [trimEnd] removes nothing from a string that ends with a backtick. *)
Lemma trimEnd_backtick a : trimEnd (a +:+ "`") = a +:+ "`".
Proof.
  induction a as [|c a IH]; [reflexivity|].
  change (String c a +:+ "`") with (String c (a +:+ "`")). cbn [trimEnd].
  rewrite IH.
  assert (Hlt : (nat_of_ascii "`" < 128)%nat) by (apply Nat.ltb_lt; reflexivity).
  change (String c (a +:+ "`")) with (String c a +:+ "`") at 1.
  now rewrite (allWhiteSpace_ascii "`" "" Hlt eq_refl _ (String c a) (Nat.le_refl _)).
Qed.

Lemma trimEnd_app a b :
  (forall x, trimEnd (x +:+ b) = x +:+ b) -> forall x, trimEnd (x +:+ a +:+ b) = x +:+ a +:+ b.
Proof. intros H x. rewrite <- append_assoc. apply H. Qed.

(** X19. A body without backticks that the model wrapped in a code block,
    tagged json or untagged, is unwrapped by the fence removal of
    [analyzeFoodImage] to the body followed by the line feed that
    preceded the closing fence; text that, once trimmed, does not start
    with a fence is only trimmed. *)
Theorem stripCodeFence_unwraps (body text : string) :
  includes body "`" = false ->
  startsWith (trim text) "```" = false ->
  stripCodeFence (fenced "json" body) = body +:+ str1 LF /\
  stripCodeFence (fenced "" body) = body +:+ str1 LF /\
  stripCodeFence text = trim text.
Proof.
  intros Hbody Htext.
  assert (Htrim : forall tag, trim (fenced tag body) = fenced tag body).
  { intros tag. unfold trim, fenced.
    change (trimStart ("```" +:+ ?s)) with ("```" +:+ s).
    apply (trimEnd_app "```" _ (trimEnd_app tag _ (trimEnd_app (str1 LF) _
             (trimEnd_app body _ (trimEnd_app (str1 LF +:+ "``") _ trimEnd_backtick)))) ""). }
  split; [|split].
  - unfold stripCodeFence. rewrite Htrim. unfold fenced.
    change (startsWith ("```" +:+ "json" +:+ ?s) "```json") with true. cbv iota.
    change ("```" +:+ "json" +:+ ?s) with ("```json" +:+ s).
    rewrite (proj1 (removeAll_opening _)).
    rewrite (removeAll_no_backtick _ _ _ Hbody).
    change (removeAll "```json" 0 (str1 LF +:+ "```")) with (str1 LF +:+ "```").
    rewrite (removeAll_no_backtick _ _ _ Hbody). reflexivity.
  - unfold stripCodeFence. rewrite Htrim. unfold fenced.
    change (startsWith ("```" +:+ "" +:+ str1 LF +:+ ?s) "```json") with false.
    change (startsWith ("```" +:+ "" +:+ str1 LF +:+ ?s) "```") with true. cbv iota.
    change ("```" +:+ "" +:+ ?s) with ("```" +:+ s).
    rewrite (proj2 (removeAll_opening _)).
    rewrite (removeAll_no_backtick _ _ _ Hbody). reflexivity.
  - unfold stripCodeFence. rewrite Htext.
    destruct (startsWith (trim text) "```json") eqn:Hj; [|reflexivity].
    exfalso. unfold startsWith in *. apply prefix_iff in Hj as (rest & Hj).
    assert (String.prefix "```" (trim text) = true)
      by (apply prefix_iff; exists ("json" +:+ rest); now rewrite Hj).
    congruence.
Qed.

Lemma stripCodeFence_unwraps_witness :
  stripCodeFence appleResponse = appleJson +:+ str1 LF /\
  stripCodeFence ("  " +:+ appleJson +:+ " ") = appleJson.
Proof.
  destruct (stripCodeFence_unwraps appleJson ("  " +:+ appleJson +:+ " "))
    as (H1 & _ & H3); [reflexivity|reflexivity|].
  split; [exact H1|]. rewrite H3. reflexivity.
Defined.
